(** * Tiny-Projects: the JSON formatter and the Markdown converter services

    A shallow embedding of the two FastAPI handlers of the repository,
    [json_formatter/app/main.py] and [markdown_to_html_pdf/app/main.py],
    together with the library calls they are built from.

    - Python [str] is a list of Unicode code points ([pystr]); [bytes] is a
      list of [Byte.byte].
    - Exceptions are values: a computation returns [Ok a] or [Raise e], and
      a [try]/[except] is a match on that outcome.
    - [json.loads] and [json.dumps] are modelled after CPython's [json]
      package (decoder, scanner and encoder, as run with the default
      settings plus [indent] and [ensure_ascii=False]).  Floating point
      numbers stay abstract: the class [PyFloat] names the operations the
      package uses ([float()], [float.__repr__], comparison).
    - The Markdown engine, the PDF renderer, the clock and [str(e)] of the
      converter service are fields of the class [Engines].
    - Interpreter limits (recursion depth, the cap on the number of digits of
      an integer literal, memory) are not modelled: integers are [Z],
      recursion is bounded by the length of the text only. *)

From Stdlib Require Import String Ascii Decimal DecimalZ DecimalPos DecimalFacts.
From Stdlib Require Import ZArith Lia Bool List.
From Stdlib.Strings Require Import Byte.
Import ListNotations.

Set Warnings "-register-all".

Open Scope Z_scope.

(* ================================================================== *)
(** * Python values shared by both services *)

Module Py.

(** A Python [str]: the sequence of its code points. *)
Definition pystr := list Z.

Definition ch (a : ascii) : Z := Z.of_N (N_of_ascii a).
Arguments ch a%_char.

(** An ASCII literal as a [pystr]. *)
Definition str (s : string) : pystr := map ch (list_ascii_of_string s).
Arguments str s%_string.

Definition DQUOTE : Z := 34.
Definition BACKSLASH : Z := 92.
Definition NEWLINE : Z := 10.

Definition pystr_eqb (a b : pystr) : bool :=
  if list_eq_dec Z.eq_dec a b then true else false.

(** [s.startswith(p)] *)
Fixpoint startswith (p s : pystr) : bool :=
  match p, s with
  | [], _ => true
  | a :: p', b :: s' => (a =? b) && startswith p' s'
  | _ :: _, [] => false
  end.

(** [s.replace(old, new)].  [skip] counts the characters of a match of
    [old] that are still to be passed over. *)
Fixpoint replace_from (old new s : pystr) (skip : nat) : pystr :=
  match s with
  | [] => []
  | c :: s' =>
      match skip with
      | S k => replace_from old new s' k
      | O =>
          if startswith old s
          then new ++ replace_from old new s' (Nat.pred (length old))
          else c :: replace_from old new s' O
      end
  end.

Definition replace (s old new : pystr) : pystr :=
  match old with
  | [] => new ++ flat_map (fun c => c :: new) s
  | _ :: _ => replace_from old new s O
  end.

(** [c.isspace()], the characters [str.strip()] removes. *)
Definition isspace (c : Z) : bool :=
  ((9 <=? c) && (c <=? 13)) || ((28 <=? c) && (c <=? 32))
  || (c =? 133) || (c =? 160) || (c =? 5760)
  || ((8192 <=? c) && (c <=? 8202))
  || (c =? 8232) || (c =? 8233) || (c =? 8239) || (c =? 8287) || (c =? 12288).

Fixpoint lstrip (s : pystr) : pystr :=
  match s with
  | c :: s' => if isspace c then lstrip s' else s
  | [] => []
  end.

Definition rstrip (s : pystr) : pystr := rev (lstrip (rev s)).

(** [s.strip()] *)
Definition strip (s : pystr) : pystr := rstrip (lstrip s).

(** A string that is empty or holds white space only. *)
Definition blank (s : pystr) : bool := forallb isspace s.

(** Truth value of a string: [not s] is [negb (truthy s)]. *)
Definition truthy (s : pystr) : bool :=
  match s with [] => false | _ :: _ => true end.

(** [x in xs] for a list of strings. *)
Definition str_in (x : pystr) (xs : list pystr) : bool := existsb (pystr_eqb x) xs.

(** [s.count(c)] for a one-character [c]. *)
Definition count (c : Z) (s : pystr) : nat :=
  length (filter (Z.eqb c) s).

(** [s.rfind(c)] for a one-character [c]: the last index, or -1. *)
Fixpoint rfind_from (c : Z) (s : pystr) (i : Z) (found : Z) : Z :=
  match s with
  | [] => found
  | x :: s' => rfind_from c s' (i + 1) (if x =? c then i else found)
  end.

Definition rfind (c : Z) (s : pystr) : Z := rfind_from c s 0 (-1).

(** [' ' * n]: empty when [n] is negative. *)
Definition spaces (n : Z) : pystr := repeat (ch " ") (Z.to_nat n).

(** [s * n] for a natural [n]. *)
Definition times (s : pystr) (n : nat) : pystr := concat (repeat s n).

(** [int.__repr__]: decimal digits, a leading [-] when negative. *)
Fixpoint uint_chars (u : uint) : pystr :=
  match u with
  | Nil => []
  | D0 u' => 48 :: uint_chars u'
  | D1 u' => 49 :: uint_chars u'
  | D2 u' => 50 :: uint_chars u'
  | D3 u' => 51 :: uint_chars u'
  | D4 u' => 52 :: uint_chars u'
  | D5 u' => 53 :: uint_chars u'
  | D6 u' => 54 :: uint_chars u'
  | D7 u' => 55 :: uint_chars u'
  | D8 u' => 56 :: uint_chars u'
  | D9 u' => 57 :: uint_chars u'
  end.

Definition int_repr (z : Z) : pystr :=
  match Z.to_int z with
  | Pos u => uint_chars u
  | Neg u => ch "-" :: uint_chars u
  end.

(** [int(s)] on a string of decimal digits with an optional leading [-]. *)
Fixpoint chars_uint (s : pystr) : uint :=
  match s with
  | [] => Nil
  | c :: s' =>
      let u := chars_uint s' in
      match c - 48 with
      | 0 => D0 u | 1 => D1 u | 2 => D2 u | 3 => D3 u | 4 => D4 u
      | 5 => D5 u | 6 => D6 u | 7 => D7 u | 8 => D8 u | _ => D9 u
      end
  end.

Definition int_of_str (s : pystr) : Z :=
  match s with
  | c :: s' => if c =? ch "-" then Z.of_int (Neg (chars_uint s')) else Z.of_int (Pos (chars_uint s))
  | [] => 0
  end.

(** Outcome of a computation that may raise. *)
Inductive outcome (E A : Type) : Type :=
| Ok (a : A)
| Raise (e : E).
Arguments Ok {E A} a.
Arguments Raise {E A} e.

Definition bind {E A B} (m : outcome E A) (k : A -> outcome E B) : outcome E B :=
  match m with
  | Ok a => k a
  | Raise e => Raise e
  end.

End Py.

Import Py.

Declare Scope py_scope.
Delimit Scope py_scope with py.
Notation "x <- m ;; k" := (bind m (fun x => k))
  (at level 61, m at next level, right associativity) : py_scope.
Notation "' p <- m ;; k" := (bind m (fun p => k))
  (at level 61, p pattern, m at next level, right associativity) : py_scope.
Open Scope py_scope.

(* ================================================================== *)
(** * The [json] package: [json.loads] and [json.dumps] *)

Module Json.

(** Python's [float] as the package uses it: [float(literal)],
    [float.__repr__], [==], and the three constants of [json.decoder]. *)
Class PyFloat := {
  float : Type;
  float_of_literal : pystr -> float;
  float_repr : float -> pystr;
  float_eqb : float -> float -> bool;
  float_nan : float;
  float_inf : float;
  float_neginf : float
}.

(** The values [json.loads] builds.  A [dict] keeps its items in insertion
    order, as Python's does. *)
Inductive pyvalue {PF : PyFloat} : Type :=
| PyNone
| PyBool (b : bool)
| PyInt (z : Z)
| PyFloat_ (f : float)
| PyStr (s : pystr)
| PyList (l : list pyvalue)
| PyDict (d : list (pystr * pyvalue)).

Inductive exn : Type :=
| JSONDecodeError (msg doc : pystr) (pos : nat)
| StopIteration (value : nat)
| RecursionError
| OtherError (msg : pystr).

(** [JSONDecodeError.__init__]: line and column of [pos] in [doc]. *)
Definition lineno (doc : pystr) (pos : nat) : Z :=
  Z.of_nat (count NEWLINE (firstn pos doc)) + 1.

Definition colno (doc : pystr) (pos : nat) : Z :=
  Z.of_nat pos - rfind NEWLINE (firstn pos doc).

(** [str(e)] *)
Definition exn_str (e : exn) : pystr :=
  match e with
  | JSONDecodeError msg doc pos =>
      msg ++ str ": line " ++ int_repr (lineno doc pos) ++ str " column "
          ++ int_repr (colno doc pos) ++ str " (char " ++ int_repr (Z.of_nat pos) ++ str ")"
  | StopIteration value => int_repr (Z.of_nat value)
  | RecursionError => str "maximum recursion depth exceeded"
  | OtherError msg => msg
  end.

(** ** Decoder *)

(** [WHITESPACE_STR] *)
Definition is_ws (c : Z) : bool :=
  (c =? ch " ") || (c =? 9) || (c =? 10) || (c =? 13).

(** [WHITESPACE.match(s, end).end()]: the position after the white space
    at [end_], with the text from there on. *)
Fixpoint w_end (end_ : nat) (rest : pystr) : nat * pystr :=
  match rest with
  | c :: r => if is_ws c then w_end (S end_) r else (end_, rest)
  | [] => (end_, rest)
  end.

Definition is_control (c : Z) : bool := (0 <=? c) && (c <=? 31).

Definition hexval (c : Z) : option Z :=
  if (48 <=? c) && (c <=? 57) then Some (c - 48)
  else if (97 <=? c) && (c <=? 102) then Some (c - 87)
  else if (65 <=? c) && (c <=? 70) then Some (c - 55)
  else None.

Definition hex4 (a b c d : Z) : option Z :=
  match hexval a, hexval b, hexval c, hexval d with
  | Some x, Some y, Some z, Some w => Some (((x * 16 + y) * 16 + z) * 16 + w)
  | _, _, _, _ => None
  end.

(** The table [BACKSLASH]. *)
Definition backslash (esc : Z) : option Z :=
  if esc =? DQUOTE then Some DQUOTE
  else if esc =? BACKSLASH then Some BACKSLASH
  else if esc =? ch "/" then Some (ch "/")
  else if esc =? ch "b" then Some 8
  else if esc =? ch "f" then Some 12
  else if esc =? ch "n" then Some 10
  else if esc =? ch "r" then Some 13
  else if esc =? ch "t" then Some 9
  else None.

Definition is_digit (c : Z) : bool := (48 <=? c) && (c <=? 57).

(** The longest run of digits at the head of [rest], and what follows. *)
Fixpoint span_digits (rest : pystr) : pystr * pystr :=
  match rest with
  | c :: r =>
      if is_digit c then let '(ds, r') := span_digits r in (c :: ds, r')
      else ([], rest)
  | [] => ([], [])
  end.

(** [NUMBER_RE], group 1: an optional minus sign, then a single 0 or a
    digit 1-9 followed by any digits. *)
Definition match_integer (rest : pystr) : option (pystr * pystr) :=
  let '(sign, r) :=
    match rest with
    | c :: r' => if c =? ch "-" then ([c], r') else ([], rest)
    | [] => ([], rest)
    end in
  match r with
  | c :: r' =>
      if c =? ch "0" then Some (sign ++ [c], r')
      else if is_digit c then
        let '(ds, r'') := span_digits r' in Some (sign ++ c :: ds, r'')
      else None
  | [] => None
  end.

(** [NUMBER_RE], group 2 (optional): a dot and at least one digit. *)
Definition match_frac (rest : pystr) : option pystr * pystr :=
  match rest with
  | c :: r =>
      if c =? ch "." then
        match span_digits r with
        | ([], _) => (None, rest)
        | (ds, r') => (Some (c :: ds), r')
        end
      else (None, rest)
  | [] => (None, rest)
  end.

(** [NUMBER_RE], group 3 (optional): e or E, an optional sign, and at
    least one digit. *)
Definition match_exp (rest : pystr) : option pystr * pystr :=
  match rest with
  | c :: r =>
      if (c =? ch "e") || (c =? ch "E") then
        let '(sign, r1) :=
          match r with
          | g :: r' => if (g =? ch "-") || (g =? ch "+") then ([g], r') else ([], r)
          | [] => ([], r)
          end in
        match span_digits r1 with
        | ([], _) => (None, rest)
        | (ds, r2) => (Some (c :: sign ++ ds), r2)
        end
      else (None, rest)
  | [] => (None, rest)
  end.

(** [NUMBER_RE.match(string, idx)]: the three groups and the rest. *)
Definition match_number (rest : pystr)
  : option (pystr * option pystr * option pystr * pystr) :=
  match match_integer rest with
  | None => None
  | Some (integer, r1) =>
      let '(frac, r2) := match_frac r1 in
      let '(exp, r3) := match_exp r2 in
      Some (integer, frac, exp, r3)
  end.

(** [x or ''] *)
Definition or_empty (x : option pystr) : pystr :=
  match x with Some v => v | None => [] end.

Section Decoder.
Context {PF : PyFloat}.

(** [d[k] = v] *)
Fixpoint dict_setitem (d : list (pystr * pyvalue)) (k : pystr) (v : pyvalue)
  : list (pystr * pyvalue) :=
  match d with
  | [] => [(k, v)]
  | (k', v') :: d' =>
      if pystr_eqb k' k then (k', v) :: d' else (k', v') :: dict_setitem d' k v
  end.

(** [dict(pairs)] *)
Definition dict (pairs : list (pystr * pyvalue)) : list (pystr * pyvalue) :=
  fold_left (fun d kv => dict_setitem d (fst kv) (snd kv)) pairs [].

(** The document being decoded. *)
Variable s : pystr.

Definition result : Type := outcome exn (pyvalue * nat * pystr).

(** [scanstring(s, end)]: [rest] is the text from [end_] on, [chunks] the
    characters decoded so far. *)
Fixpoint scanstring_loop (begin : nat) (chunks : pystr) (end_ : nat) (rest : pystr)
  : outcome exn (pystr * nat * pystr) :=
  match rest with
  | [] => Raise (JSONDecodeError (str "Unterminated string starting at") s begin)
  | c :: r =>
      if c =? DQUOTE then Ok (chunks, S end_, r)
      else if c =? BACKSLASH then
        match r with
        | [] => Raise (JSONDecodeError (str "Unterminated string starting at") s begin)
        | esc :: r1 =>
            if esc =? ch "u" then
              match r1 with
              | h1 :: h2 :: h3 :: h4 :: r5 =>
                  match hex4 h1 h2 h3 h4 with
                  | None => Raise (JSONDecodeError (str "Invalid \uXXXX escape") s (S end_))
                  | Some uni =>
                      let single := scanstring_loop begin (chunks ++ [uni]) (end_ + 6) r5 in
                      if (0xd800 <=? uni) && (uni <=? 0xdbff) then
                        match r5 with
                        | b :: u :: k1 :: k2 :: k3 :: k4 :: r11 =>
                            if (b =? BACKSLASH) && (u =? ch "u") then
                              match hex4 k1 k2 k3 k4 with
                              | None =>
                                  Raise (JSONDecodeError (str "Invalid \uXXXX escape") s (end_ + 7))
                              | Some uni2 =>
                                  if (0xdc00 <=? uni2) && (uni2 <=? 0xdfff) then
                                    scanstring_loop begin
                                      (chunks ++ [0x10000 + Z.lor (Z.shiftl (uni - 0xd800) 10) (uni2 - 0xdc00)])
                                      (end_ + 12) r11
                                  else single
                              end
                            else single
                        | _ => single
                        end
                      else single
                  end
              | _ => Raise (JSONDecodeError (str "Invalid \uXXXX escape") s (S end_))
              end
            else
              match backslash esc with
              | Some char => scanstring_loop begin (chunks ++ [char]) (end_ + 2) r1
              | None => Raise (JSONDecodeError (str "Invalid \escape") s end_)
              end
        end
      else if is_control c then
        Raise (JSONDecodeError (str "Invalid control character at") s end_)
      else scanstring_loop begin (chunks ++ [c]) (S end_) r
  end.

Definition scanstring (end_ : nat) (rest : pystr) : outcome exn (pystr * nat * pystr) :=
  scanstring_loop (end_ - 1) [] end_ rest.

(** [except StopIteration as err: raise JSONDecodeError("Expecting value", s, err.value)] *)
Definition expecting_value {A} (m : outcome exn A) : outcome exn A :=
  match m with
  | Raise (StopIteration value) => Raise (JSONDecodeError (str "Expecting value") s value)
  | _ => m
  end.

(** The [while True] loop of [JSONArray]; [n] bounds its iterations. *)
Fixpoint JSONArray_loop (scan_once : nat -> pystr -> result) (n : nat)
    (values : list pyvalue) (end_ : nat) (rest : pystr) : result :=
  match n with
  | O => Raise RecursionError
  | S n' =>
      '(value, end1, r1) <- expecting_value (scan_once end_ rest) ;;
      let values := values ++ [value] in
      let '(end2, r2) := w_end end1 r1 in
      match r2 with
      | nextchar :: r3 =>
          if nextchar =? ch "]" then Ok (PyList values, S end2, r3)
          else if nextchar =? ch "," then
            let '(end4, r4) := w_end (S end2) r3 in
            JSONArray_loop scan_once n' values end4 r4
          else Raise (JSONDecodeError (str "Expecting ',' delimiter") s end2)
      | [] => Raise (JSONDecodeError (str "Expecting ',' delimiter") s end2)
      end
  end.

(** [JSONArray((s, end), scan_once)] *)
Definition JSONArray (scan_once : nat -> pystr -> result) (end_ : nat) (rest : pystr)
  : result :=
  let '(end1, r1) := w_end end_ rest in
  match r1 with
  | nextchar :: r2 =>
      if nextchar =? ch "]" then Ok (PyList [], S end1, r2)
      else JSONArray_loop scan_once (length r1) [] end1 r1
  | [] => JSONArray_loop scan_once (S O) [] end1 r1
  end.

(** The [while True] loop of [JSONObject], entered after the opening quote
    of a key; [n] bounds its iterations. *)
Fixpoint JSONObject_loop (scan_once : nat -> pystr -> result) (n : nat)
    (pairs : list (pystr * pyvalue)) (end_ : nat) (rest : pystr) : result :=
  match n with
  | O => Raise RecursionError
  | S n' =>
      '(key, end1, r1) <- scanstring end_ rest ;;
      let '(end2, r2) := w_end end1 r1 in
      match r2 with
      | colon :: r3 =>
          if colon =? ch ":" then
            let '(end4, r4) := w_end (S end2) r3 in
            '(value, end5, r5) <- expecting_value (scan_once end4 r4) ;;
            let pairs := pairs ++ [(key, value)] in
            let '(end6, r6) := w_end end5 r5 in
            match r6 with
            | nextchar :: r7 =>
                if nextchar =? ch "}" then Ok (PyDict (dict pairs), S end6, r7)
                else if nextchar =? ch "," then
                  let '(end8, r8) := w_end (S end6) r7 in
                  match r8 with
                  | q :: r9 =>
                      if q =? DQUOTE then JSONObject_loop scan_once n' pairs (S end8) r9
                      else Raise (JSONDecodeError
                                    (str "Expecting property name enclosed in double quotes") s end8)
                  | [] => Raise (JSONDecodeError
                                   (str "Expecting property name enclosed in double quotes") s end8)
                  end
                else Raise (JSONDecodeError (str "Expecting ',' delimiter") s end6)
            | [] => Raise (JSONDecodeError (str "Expecting ',' delimiter") s end6)
            end
          else Raise (JSONDecodeError (str "Expecting ':' delimiter") s end2)
      | [] => Raise (JSONDecodeError (str "Expecting ':' delimiter") s end2)
      end
  end.

(** [JSONObject((s, end), strict, scan_once, ...)] *)
Definition JSONObject (scan_once : nat -> pystr -> result) (end_ : nat) (rest : pystr)
  : result :=
  let '(end1, r1) := w_end end_ rest in
  match r1 with
  | nextchar :: r2 =>
      if nextchar =? DQUOTE then JSONObject_loop scan_once (length r1) [] (S end1) r2
      else if nextchar =? ch "}" then Ok (PyDict [], S end1, r2)
      else Raise (JSONDecodeError
                    (str "Expecting property name enclosed in double quotes") s end1)
  | [] => Raise (JSONDecodeError
                   (str "Expecting property name enclosed in double quotes") s end1)
  end.

(** [_scan_once(string, idx)]; [fuel] bounds the depth of the recursion. *)
Fixpoint scan_once (fuel : nat) (idx : nat) (rest : pystr) {struct fuel} : result :=
  match fuel with
  | O => Raise RecursionError
  | S fuel' =>
      match rest with
      | [] => Raise (StopIteration idx)
      | nextchar :: r =>
          if nextchar =? DQUOTE then
            '(v, end_, r') <- scanstring (S idx) r ;; Ok (PyStr v, end_, r')
          else if nextchar =? ch "{" then JSONObject (scan_once fuel') (S idx) r
          else if nextchar =? ch "[" then JSONArray (scan_once fuel') (S idx) r
          else if startswith (str "null") rest then Ok (PyNone, idx + 4, skipn 4 rest)%nat
          else if startswith (str "true") rest then Ok (PyBool true, idx + 4, skipn 4 rest)%nat
          else if startswith (str "false") rest then Ok (PyBool false, idx + 5, skipn 5 rest)%nat
          else
            match match_number rest with
            | Some (integer, frac, exp, r') =>
                let m_end := (idx + (length rest - length r'))%nat in
                match frac, exp with
                | None, None => Ok (PyInt (int_of_str integer), m_end, r')
                | _, _ =>
                    Ok (PyFloat_ (float_of_literal (integer ++ or_empty frac ++ or_empty exp)),
                        m_end, r')
                end
            | None =>
                if startswith (str "NaN") rest then Ok (PyFloat_ float_nan, idx + 3, skipn 3 rest)%nat
                else if startswith (str "Infinity") rest then
                  Ok (PyFloat_ float_inf, idx + 8, skipn 8 rest)%nat
                else if startswith (str "-Infinity") rest then
                  Ok (PyFloat_ float_neginf, idx + 9, skipn 9 rest)%nat
                else Raise (StopIteration idx)
            end
      end
  end.

(** [JSONDecoder.raw_decode(s, idx)] *)
Definition raw_decode (idx : nat) (rest : pystr) : result :=
  expecting_value (scan_once (S (length s)) idx rest).

(** [JSONDecoder.decode(s)] *)
Definition decode : outcome exn pyvalue :=
  let '(idx, rest) := w_end O s in
  '(obj, end_, r) <- raw_decode idx rest ;;
  let '(end', r') := w_end end_ r in
  match r' with
  | [] => Ok obj
  | _ :: _ => Raise (JSONDecodeError (str "Extra data") s end')
  end.

End Decoder.

(** [json.loads(s)] *)
Definition loads {PF : PyFloat} (s : pystr) : outcome exn pyvalue :=
  if startswith [0xfeff] s
  then Raise (JSONDecodeError (str "Unexpected UTF-8 BOM (decode using utf-8-sig)") s O)
  else decode s.

(** ** Encoder *)

Definition to_hex_digit (n : Z) : Z := if n <? 10 then 48 + n else 87 + n.

(** The format [\u{0:04x}] of [ESCAPE_DCT]. *)
Definition u_escape (i : Z) : pystr :=
  BACKSLASH :: ch "u"
    :: map to_hex_digit [(i / 4096) mod 16; (i / 256) mod 16; (i / 16) mod 16; i mod 16].

(** What [ESCAPE.sub(replace, s)] writes for one character: its entry of
    [ESCAPE_DCT] when [ESCAPE] matches it, the character itself otherwise. *)
Definition escape_char (c : Z) : pystr :=
  if c =? BACKSLASH then [BACKSLASH; BACKSLASH]
  else if c =? DQUOTE then [BACKSLASH; DQUOTE]
  else if c =? 8 then [BACKSLASH; ch "b"]
  else if c =? 12 then [BACKSLASH; ch "f"]
  else if c =? 10 then [BACKSLASH; ch "n"]
  else if c =? 13 then [BACKSLASH; ch "r"]
  else if c =? 9 then [BACKSLASH; ch "t"]
  else if is_control c then u_escape c
  else [c].

(** [encode_basestring(s)], the encoder of strings under [ensure_ascii=False]. *)
Definition encode_basestring (s : pystr) : pystr :=
  DQUOTE :: flat_map escape_char s ++ [DQUOTE].

(** The chunks of the items of a list or dict, joined: [separator] is
    yielded before every item but the first. *)
Fixpoint iter_items {A} (enc : A -> pystr) (separator : pystr) (first : bool) (l : list A)
  : pystr :=
  match l with
  | [] => []
  | x :: l' => (if first then [] else separator) ++ enc x ++ iter_items enc separator false l'
  end.

Section Encoder.
Context {PF : PyFloat}.

(** [floatstr(o)] with [allow_nan=True] *)
Definition floatstr (o : float) : pystr :=
  if negb (float_eqb o o) then str "NaN"
  else if float_eqb o float_inf then str "Infinity"
  else if float_eqb o float_neginf then str "-Infinity"
  else float_repr o.

(** The arguments of [_make_iterencode]; [_indent] is already a string. *)
Variable _indent : option pystr.
Variable _item_separator _key_separator : pystr.

(** ['\n' + _indent * level], or nothing when [_indent is None]. *)
Definition newline_indent (level : nat) : pystr :=
  match _indent with
  | Some i => NEWLINE :: times i level
  | None => []
  end.

(** [_current_indent_level += 1], done only when [_indent is not None]. *)
Definition inner_level (level : nat) : nat :=
  match _indent with
  | Some _ => S level
  | None => level
  end.

(** [_iterencode(o, _current_indent_level)], its chunks joined. *)
Fixpoint _iterencode (o : pyvalue) (_current_indent_level : nat) : pystr :=
  match o with
  | PyStr v => encode_basestring v
  | PyNone => str "null"
  | PyBool true => str "true"
  | PyBool false => str "false"
  | PyInt z => int_repr z
  | PyFloat_ f => floatstr f
  | PyList [] => str "[]"
  | PyList lst =>
      let level := inner_level _current_indent_level in
      ch "[" :: newline_indent level
        ++ iter_items (fun value => _iterencode value level)
             (_item_separator ++ newline_indent level) true lst
        ++ newline_indent _current_indent_level ++ [ch "]"]
  | PyDict [] => str "{}"
  | PyDict dct =>
      let level := inner_level _current_indent_level in
      ch "{" :: newline_indent level
        ++ iter_items
             (fun '(key, value) =>
                encode_basestring key ++ _key_separator ++ _iterencode value level)
             (_item_separator ++ newline_indent level) true dct
        ++ newline_indent _current_indent_level ++ [ch "}"]
  end.

End Encoder.

(** [json.dumps(obj, indent=indent, ensure_ascii=False)] *)
Definition dumps {PF : PyFloat} (obj : pyvalue) (indent : option Z) : pystr :=
  let item_separator := match indent with Some _ => str "," | None => str ", " end in
  match obj with
  | PyStr v => encode_basestring v
  | _ => _iterencode (option_map spaces indent) item_separator (str ": ") obj O
  end.

(** A stand-in for [float] that keeps the literal it was read from; it
    runs the model on documents with numbers of any syntax. *)
Inductive literal_float : Type :=
| LNaN
| LInf
| LNegInf
| LFinite (literal : pystr).

Definition literal_float_eqb (a b : literal_float) : bool :=
  match a, b with
  | LInf, LInf => true
  | LNegInf, LNegInf => true
  | LFinite x, LFinite y => pystr_eqb x y
  | _, _ => false
  end.

Definition literal_float_repr (a : literal_float) : pystr :=
  match a with
  | LNaN => str "nan"
  | LInf => str "inf"
  | LNegInf => str "-inf"
  | LFinite x => x
  end.

#[export] Instance literal_PyFloat : PyFloat := {|
  float := literal_float;
  float_of_literal := LFinite;
  float_repr := literal_float_repr;
  float_eqb := literal_float_eqb;
  float_nan := LNaN;
  float_inf := LInf;
  float_neginf := LNegInf
|}.

End Json.

(* ================================================================== *)
(** * json_formatter/app/main.py *)

Module JsonFormatter.
Import Json.

(** [class JSONInput(BaseModel)] *)
Record JSONInput : Type := {
  text : pystr;
  indent : option Z
}.

(** The value of [indent] when the request leaves it out. *)
Definition default_indent : option Z := Some 4.

(** [class JSONResponse(BaseModel)] *)
Record JSONResponse : Type := {
  success : bool;
  formatted : option pystr;
  error : option pystr;
  error_line : option Z;
  error_column : option Z
}.

(** The two calls into the [json] package. *)
Class JsonLib := {
  value : Type;
  json_loads : pystr -> outcome exn value;
  json_dumps : value -> option Z -> outcome exn pystr
}.

(** [async def format_json(data: JSONInput)] *)
Definition format_json {L : JsonLib} (data : JSONInput) : JSONResponse :=
  let body :=
    let text := replace data.(text) (str "'") [DQUOTE] in
    parsed <- json_loads text ;;
    formatted <- json_dumps parsed data.(indent) ;;
    Ok {| success := true; formatted := Some formatted;
          error := None; error_line := None; error_column := None |} in
  match body with
  | Ok response => response
  | Raise (JSONDecodeError msg doc pos) =>
      {| success := false; formatted := None;
         error := Some (str "JSON Error: " ++ msg);
         error_line := Some (lineno doc pos);
         error_column := Some (colno doc pos) |}
  | Raise e =>
      {| success := false; formatted := None;
         error := Some (str "Error: " ++ exn_str e);
         error_line := None; error_column := None |}
  end.

(** The two shapes of a response, as the handler builds them. *)
Definition Success (formattedText : pystr) : JSONResponse :=
  {| success := true; formatted := Some formattedText;
     error := None; error_line := None; error_column := None |}.

Definition Failure (message : pystr) (line column : option Z) : JSONResponse :=
  {| success := false; formatted := None;
     error := Some message; error_line := line; error_column := column |}.

(** The invariant of the response model: a success carries the text and
    nothing else, a failure carries a message and no text. *)
Definition response_shape (r : JSONResponse) : Prop :=
  (r.(success) = true ->
   (exists out, r.(formatted) = Some out) /\ r.(error) = None
   /\ r.(error_line) = None /\ r.(error_column) = None)
  /\ (r.(success) = false ->
      (exists msg, r.(error) = Some msg) /\ r.(formatted) = None).

(** The [json] package of CPython, over any model of [float]. *)
#[export] Instance cpython_json {PF : PyFloat} : JsonLib := {|
  value := pyvalue;
  json_loads := loads;
  json_dumps := fun obj indent => Ok (dumps obj indent)
|}.

End JsonFormatter.

(* ================================================================== *)
(** * markdown_to_html_pdf/app/main.py *)

Module MarkdownConverter.

Definition bytes := list byte.

Definition byte_val (b : byte) : Z := Z.of_N (Byte.to_N b).

Definition byte_of (z : Z) : byte :=
  match Byte.of_N (Z.to_N z) with
  | Some b => b
  | None => x00
  end.

Inductive exn : Type :=
| HTTPException (status_code : Z) (detail : pystr)
| UnicodeDecodeError (start : nat)
| UnicodeEncodeError (start : nat)
| AttributeError
| LibraryError (msg : pystr).

(** ** The [utf-8] codec *)

(** A continuation byte. *)
Definition cont (b : Z) : bool := (0x80 <=? b) && (b <=? 0xBF).

(** The range of the second byte of a three-byte sequence led by [b0]. *)
Definition second_of_3 (b0 b1 : Z) : bool :=
  if b0 =? 0xE0 then (0xA0 <=? b1) && (b1 <=? 0xBF)
  else if b0 =? 0xED then (0x80 <=? b1) && (b1 <=? 0x9F)
  else cont b1.

(** The range of the second byte of a four-byte sequence led by [b0]. *)
Definition second_of_4 (b0 b1 : Z) : bool :=
  if b0 =? 0xF0 then (0x90 <=? b1) && (b1 <=? 0xBF)
  else if b0 =? 0xF4 then (0x80 <=? b1) && (b1 <=? 0x8F)
  else cont b1.

Fixpoint utf8_decode_from (pos : nat) (bs : list Z) : outcome exn pystr :=
  match bs with
  | [] => Ok []
  | b0 :: r0 =>
      if (0 <=? b0) && (b0 <? 0x80) then
        s <- utf8_decode_from (S pos) r0 ;; Ok (b0 :: s)
      else if (0xC2 <=? b0) && (b0 <=? 0xDF) then
        match r0 with
        | b1 :: r1 =>
            if cont b1 then
              s <- utf8_decode_from (pos + 2) r1 ;;
              Ok ((b0 - 0xC0) * 64 + (b1 - 0x80) :: s)
            else Raise (UnicodeDecodeError pos)
        | _ => Raise (UnicodeDecodeError pos)
        end
      else if (0xE0 <=? b0) && (b0 <=? 0xEF) then
        match r0 with
        | b1 :: b2 :: r2 =>
            if second_of_3 b0 b1 && cont b2 then
              s <- utf8_decode_from (pos + 3) r2 ;;
              Ok (((b0 - 0xE0) * 64 + (b1 - 0x80)) * 64 + (b2 - 0x80) :: s)
            else Raise (UnicodeDecodeError pos)
        | _ => Raise (UnicodeDecodeError pos)
        end
      else if (0xF0 <=? b0) && (b0 <=? 0xF4) then
        match r0 with
        | b1 :: b2 :: b3 :: r3 =>
            if second_of_4 b0 b1 && cont b2 && cont b3 then
              s <- utf8_decode_from (pos + 4) r3 ;;
              Ok ((((b0 - 0xF0) * 64 + (b1 - 0x80)) * 64 + (b2 - 0x80)) * 64 + (b3 - 0x80) :: s)
            else Raise (UnicodeDecodeError pos)
        | _ => Raise (UnicodeDecodeError pos)
        end
      else Raise (UnicodeDecodeError pos)
  end.

(** [content.decode('utf-8')] *)
Definition decode_utf8 (content : bytes) : outcome exn pystr :=
  utf8_decode_from O (map byte_val content).

Definition utf8_encode_char (c : Z) : option (list Z) :=
  if c <? 0x80 then Some [c]
  else if c <? 0x800 then Some [0xC0 + c / 64; 0x80 + c mod 64]
  else if (0xD800 <=? c) && (c <=? 0xDFFF) then None
  else if c <? 0x10000 then Some [0xE0 + c / 4096; 0x80 + (c / 64) mod 64; 0x80 + c mod 64]
  else Some [0xF0 + c / 262144; 0x80 + (c / 4096) mod 64; 0x80 + (c / 64) mod 64; 0x80 + c mod 64].

Fixpoint utf8_encode_from (pos : nat) (s : pystr) : outcome exn (list Z) :=
  match s with
  | [] => Ok []
  | c :: s' =>
      match utf8_encode_char c with
      | Some bs => r <- utf8_encode_from (S pos) s' ;; Ok (bs ++ r)
      | None => Raise (UnicodeEncodeError pos)
      end
  end.

(** [s.encode('utf-8')] *)
Definition encode_utf8 (s : pystr) : outcome exn bytes :=
  r <- utf8_encode_from O s ;; Ok (map byte_of r).

(** Whether [content.decode('utf-8')] returns. *)
Definition valid_utf8 (content : bytes) : bool :=
  match decode_utf8 content with
  | Ok _ => true
  | Raise _ => false
  end.

(** ** [os.path.splitext] *)

(** [p[i:j]] *)
Definition slice (p : pystr) (i j : Z) : pystr :=
  firstn (Z.to_nat (j - i)) (skipn (Z.to_nat i) p).

(** The loop of [_splitext] that skips leading dots: whether some
    character of the slice is not a dot. *)
Fixpoint has_non_dot (name : pystr) : bool :=
  match name with
  | [] => false
  | c :: name' => if negb (c =? ch ".") then true else has_non_dot name'
  end.

Definition splitext (p : pystr) : pystr * pystr :=
  let sepIndex := rfind (ch "/") p in
  let dotIndex := rfind (ch ".") p in
  if (sepIndex <? dotIndex) && has_non_dot (slice p (sepIndex + 1) dotIndex)
  then (firstn (Z.to_nat dotIndex) p, skipn (Z.to_nat dotIndex) p)
  else (p, []).

(** ** The service *)

(** What the service takes from outside its own code: the Markdown engine,
    the PDF renderer, the clock, [str(e)], and the four literal pieces of
    [HTML_TEMPLATE] around its fields [title], [content] and [timestamp]. *)
Class Engines := {
  markdown2_markdown : pystr -> list pystr -> outcome exn pystr;
  weasyprint_write_pdf : pystr -> outcome exn bytes;
  datetime_now_strftime : pystr -> pystr;
  exn_str : exn -> pystr;
  template_head : pystr;
  template_style : pystr;
  template_footer : pystr;
  template_tail : pystr
}.

(** [StreamingResponse(BytesIO(content), media_type=..., headers=...)] *)
Record StreamingResponse : Type := {
  content : bytes;
  media_type : pystr;
  headers : list (pystr * pystr)
}.

(** [UploadFile]: its name and what [await file.read()] returns. *)
Record UploadFile : Type := {
  filename : option pystr;
  read : bytes
}.

(** How [str.format] writes a field. *)
Definition format_field (s : option pystr) : pystr :=
  match s with
  | Some v => v
  | None => str "None"
  end.

(** [title.replace(' ', '_')]; [None] has no [replace]. *)
Definition title_replace (title : option pystr) : outcome exn pystr :=
  match title with
  | Some t => Ok (replace t (str " ") (str "_"))
  | None => Raise AttributeError
  end.

(** The status a raised exception, or a response, is sent with. *)
Definition status {A} (r : outcome exn A) : Z :=
  match r with
  | Ok _ => 200
  | Raise (HTTPException status_code _) => status_code
  | Raise _ => 500
  end.

(** The title an upload is converted under: the name of the file without
    its extension, [Document] when the file has no name. *)
Definition upload_title (file : UploadFile) : pystr :=
  match file.(filename) with
  | Some name => if truthy name then fst (splitext name) else str "Document"
  | None => str "Document"
  end.

(** A name part with no dot and no slash in it. *)
Definition plain (s : pystr) : bool :=
  forallb (fun c => negb ((c =? ch ".") || (c =? ch "/"))) s.

(** The bytes of an ASCII literal. *)
Definition ascii_bytes (s : string) : bytes := map (fun a => byte_of (ch a)) (list_ascii_of_string s).
Arguments ascii_bytes s%_string.

(** The formats the handlers accept. *)
Definition formats : list pystr := [str "html"; str "pdf"].

Section Service.
Context {E : Engines}.

(** [HTML_TEMPLATE.format(title=..., content=..., timestamp=...)] *)
Definition HTML_TEMPLATE_format (title : option pystr) (content timestamp : pystr) : pystr :=
  template_head ++ format_field title ++ template_style ++ content
    ++ template_footer ++ timestamp ++ template_tail.

(** [MarkdownConverter.convert_to_html(md_content, title)] *)
Definition convert_to_html (md_content : pystr) (title : option pystr) : outcome exn pystr :=
  html_content <-
    markdown2_markdown md_content
      [str "fenced-code-blocks"; str "tables"; str "break-on-newline"; str "code-friendly";
       str "cuddled-lists"; str "header-ids"; str "strike"; str "task_list"; str "footnotes"] ;;
  let timestamp := datetime_now_strftime (str "%Y-%m-%d %H:%M:%S") in
  let full_html := HTML_TEMPLATE_format title html_content timestamp in
  Ok full_html.

(** [MarkdownConverter.convert_to_pdf(html_content)] *)
Definition convert_to_pdf (html_content : pystr) : outcome exn bytes :=
  weasyprint_write_pdf html_content.

(** The body both handlers share after the title is known: convert, then
    build the response for [output_format]. *)
Definition respond (md_content : pystr) (title : option pystr) (output_format : pystr)
  : outcome exn StreamingResponse :=
  html_content <- convert_to_html md_content title ;;
  if pystr_eqb output_format (str "html") then
    body <- encode_utf8 html_content ;;
    name <- title_replace title ;;
    Ok {| content := body;
          media_type := str "text/html";
          headers := [(str "Content-Disposition",
                       str "attachment; filename=" ++ name ++ str ".html")] |}
  else
    pdf_content <- convert_to_pdf html_content ;;
    name <- title_replace title ;;
    Ok {| content := pdf_content;
          media_type := str "application/pdf";
          headers := [(str "Content-Disposition",
                       str "attachment; filename=" ++ name ++ str ".pdf")] |}.

(** [async def convert_paste(content, output_format, title)] *)
Definition convert_paste (content : pystr) (output_format : pystr) (title : option pystr)
  : outcome exn StreamingResponse :=
  if negb (truthy (strip content)) then
    Raise (HTTPException 400 (str "Content cannot be empty"))
  else if negb (str_in output_format [str "html"; str "pdf"]) then
    Raise (HTTPException 400 (str "output_format must be 'html' or 'pdf'"))
  else
    match respond content title output_format with
    | Ok response => Ok response
    | Raise e => Raise (HTTPException 500 (str "Conversion error: " ++ exn_str e))
    end.

(** [async def convert_upload(file, output_format)] *)
Definition convert_upload (file : UploadFile) (output_format : pystr)
  : outcome exn StreamingResponse :=
  let allowed_extensions := [str ".md"; str ".markdown"; str ".txt"] in
  let file_ext :=
    match file.(filename) with
    | Some name => if truthy name then fst (splitext name) else []
    | None => []
    end in
  if negb (str_in output_format [str "html"; str "pdf"]) then
    Raise (HTTPException 400 (str "output_format must be 'html' or 'pdf'"))
  else
    let body :=
      let content := file.(read) in
      md_content <- decode_utf8 content ;;
      if negb (truthy (strip md_content)) then
        Raise (HTTPException 400 (str "File is empty"))
      else
        let title :=
          match file.(filename) with
          | Some name => if truthy name then fst (splitext name) else str "Document"
          | None => str "Document"
          end in
        respond md_content (Some title) output_format in
    match body with
    | Ok response => Ok response
    | Raise (UnicodeDecodeError _) =>
        Raise (HTTPException 400 (str "File must be a valid text file with UTF-8 encoding"))
    | Raise e => Raise (HTTPException 500 (str "Conversion error: " ++ exn_str e))
    end.

End Service.

(** Engines that stand in for the real ones when a handler is run on a
    concrete request: the Markdown text is returned as it is, the PDF is
    the bytes of the HTML, the clock is fixed. *)
Definition echo_exn_str (e : exn) : pystr :=
  match e with
  | HTTPException status_code detail => int_repr status_code ++ str ": " ++ detail
  | UnicodeDecodeError _ => str "'utf-8' codec can't decode"
  | UnicodeEncodeError _ => str "'utf-8' codec can't encode"
  | AttributeError => str "'NoneType' object has no attribute 'replace'"
  | LibraryError msg => msg
  end.

#[export] Instance echo_engines : Engines := {|
  markdown2_markdown := fun md_content _ => Ok md_content;
  weasyprint_write_pdf := encode_utf8;
  datetime_now_strftime := fun _ => str "2024-01-01 00:00:00";
  exn_str := echo_exn_str;
  template_head := str "<title>";
  template_style := str "</title><div>";
  template_footer := str "<p>Generated on ";
  template_tail := str "</p></div>"
|}.

End MarkdownConverter.

(* ================================================================== *)
(** * Notions the statements below are written with *)

Module Notions.
Import Json.

(** What a scanning function may return on [rest]: a value and strictly
    less text, a decode error about the document [s], [StopIteration]
    where [stop_ok] allows it, and [RecursionError] only when [fuel] is no
    more than the length of [rest]. *)
Definition consumed {A} (s : pystr) (fuel : nat) (stop_ok : bool) (rest : pystr)
    (res : outcome exn (A * nat * pystr)) : Prop :=
  match res with
  | Ok (_, _, rest') => (length rest' < length rest)%nat
  | Raise (JSONDecodeError _ doc _) => doc = s
  | Raise (StopIteration _) => stop_ok = true
  | Raise RecursionError => (fuel <= length rest)%nat
  | Raise (OtherError _) => False
  end.

(** ** The layout of pretty-printed JSON, line by line *)

(** A line of the output: its nesting depth and its text. *)
Definition line : Type := nat * pystr.

(** [p] written before the first line. *)
Definition prefix_first (p : pystr) (ls : list line) : list line :=
  match ls with
  | [] => []
  | (d, t) :: r => (d, p ++ t) :: r
  end.

(** [sfx] written after the last line. *)
Fixpoint suffix_last (sfx : pystr) (ls : list line) : list line :=
  match ls with
  | [] => []
  | [(d, t)] => [(d, t ++ sfx)]
  | l :: r => l :: suffix_last sfx r
  end.

(** The members of a container, one after the other, a comma at the end
    of each but the last. *)
Fixpoint members (docs : list (list line)) : list line :=
  match docs with
  | [] => []
  | [doc] => doc
  | doc :: r => suffix_last (str ",") doc ++ members r
  end.

Section Layout.
Context {PF : PyFloat}.

(** The lines of a value that starts at nesting depth [depth]: the members
    of an object or array stand one per line, one level deeper, in the
    order the container holds them; the closing bracket stands on a line
    of its own at the depth of the opening one. *)
Fixpoint lines_of (depth : nat) (v : pyvalue) : list line :=
  match v with
  | PyNone => [(depth, str "null")]
  | PyBool true => [(depth, str "true")]
  | PyBool false => [(depth, str "false")]
  | PyInt z => [(depth, int_repr z)]
  | PyFloat_ f => [(depth, floatstr f)]
  | PyStr v => [(depth, encode_basestring v)]
  | PyList [] => [(depth, str "[]")]
  | PyList l =>
      (depth, str "[") :: members (map (lines_of (S depth)) l) ++ [(depth, str "]")]
  | PyDict [] => [(depth, str "{}")]
  | PyDict d =>
      (depth, str "{")
        :: members (map (fun '(key, value) =>
                           prefix_first (encode_basestring key ++ str ": ")
                             (lines_of (S depth) value)) d)
        ++ [(depth, str "}")]
  end.

End Layout.

(** A line written out: [width] spaces per level of depth, then the text. *)
Definition write_line (width : nat) (l : line) : pystr :=
  repeat (ch " ") (width * fst l) ++ snd l.

(** The text of the lines: each on a line of its own. *)
Fixpoint layout (width : nat) (ls : list line) : pystr :=
  match ls with
  | [] => []
  | [l] => write_line width l
  | l :: r => write_line width l ++ NEWLINE :: layout width r
  end.

(** Keys in the order of their first occurrence. *)
Definition add_key (keys : list pystr) (k : pystr) : list pystr :=
  if str_in k keys then keys else keys ++ [k].

Definition first_occurrences (keys : list pystr) : list pystr :=
  fold_left add_key keys [].

(** The text of lines that continue a line already begun: the first is
    written where the text stands, the others on lines of their own. *)
Definition continued (width : nat) (ls : list line) : pystr :=
  match ls with
  | [] => []
  | (_, t) :: r => t ++ flat_map (fun l => NEWLINE :: write_line width l) r
  end.

(** ** Induction on values *)

Section ValueInduction.
Context {PF : PyFloat}.
Variable P : pyvalue -> Prop.
Hypothesis HNone : P PyNone.
Hypothesis HBool : forall b, P (PyBool b).
Hypothesis HInt : forall z, P (PyInt z).
Hypothesis HFloat : forall f, P (PyFloat_ f).
Hypothesis HStr : forall v, P (PyStr v).
Hypothesis HList : forall l, Forall P l -> P (PyList l).
Hypothesis HDict : forall d, Forall (fun kv => P (snd kv)) d -> P (PyDict d).

(** Induction on a value, with the hypothesis for every member of a
    container. *)
Fixpoint pyvalue_induction (v : pyvalue) : P v :=
  match v with
  | PyNone => HNone
  | PyBool b => HBool b
  | PyInt z => HInt z
  | PyFloat_ f => HFloat f
  | PyStr v => HStr v
  | PyList l =>
      HList l ((fix members_ok (l : list pyvalue) : Forall P l :=
                  match l with
                  | [] => Forall_nil P
                  | x :: r => Forall_cons x (pyvalue_induction x) (members_ok r)
                  end) l)
  | PyDict d =>
      HDict d ((fix members_ok (d : list (pystr * pyvalue)) : Forall (fun kv => P (snd kv)) d :=
                  match d with
                  | [] => Forall_nil _
                  | (k, x) :: r =>
                      Forall_cons (k, x) (pyvalue_induction x : P (snd (k, x))) (members_ok r)
                  end) d)
  end.

End ValueInduction.

(** ** Round trip *)

(** A number literal with a fraction or an exponent: what [NUMBER_RE]
    matches whole and [_scan_once] hands to [float()]. *)
Definition is_float_literal (lit : pystr) : bool :=
  match match_number lit with
  | Some (_, frac, exp, []) =>
      match frac, exp with
      | None, None => false
      | _, _ => true
      end
  | _ => false
  end.

(** What follows a value in the text [json.dumps] writes: nothing, a
    comma, a closing bracket, or the newline before one. *)
Definition ends_value (tail : pystr) : bool :=
  match tail with
  | [] => true
  | c :: _ => (c =? ch ",") || (c =? ch "]") || (c =? ch "}") || (c =? NEWLINE)
  end.

(** What may follow a number without being read as part of it. *)
Definition number_stop (x : pystr) : bool :=
  match x with
  | [] => true
  | c :: _ => negb (is_digit c || (c =? ch ".") || (c =? ch "e") || (c =? ch "E"))
  end.

(** The shapes of the three groups of [NUMBER_RE]. *)
Definition int_group (i : pystr) : Prop :=
  exists sign d ds,
    i = sign ++ d :: ds /\ (sign = [] \/ sign = [ch "-"]) /\ is_digit d = true
    /\ (d = ch "0" -> ds = []) /\ forallb is_digit ds = true.

Definition frac_group (f : pystr) : Prop :=
  exists d ds, f = ch "." :: d :: ds /\ forallb is_digit (d :: ds) = true.

Definition exp_group (e : pystr) : Prop :=
  exists c sign d ds,
    e = c :: sign ++ d :: ds /\ (c = ch "e" \/ c = ch "E")
    /\ (sign = [] \/ sign = [ch "-"] \/ sign = [ch "+"]) /\ forallb is_digit (d :: ds) = true.

Definition opt_group (P : pystr -> Prop) (g : option pystr) : Prop :=
  match g with
  | Some v => P v
  | None => True
  end.

(** The first character of the text of a value. *)
Definition starts_value (c : Z) : bool :=
  (c =? DQUOTE) || (c =? ch "[") || (c =? ch "{") || (c =? ch "n") || (c =? ch "t")
  || (c =? ch "f") || (c =? ch "N") || (c =? ch "I") || (c =? ch "-") || is_digit c.

(** What the model of [float] must satisfy for a round trip, each a fact
    of IEEE 754 doubles and of CPython's [repr]: NaN differs from itself,
    the infinities are equal to themselves only, [float()] of a number
    literal is not NaN, and [repr] of a finite float is a number literal
    that [float()] reads back as the same float. *)
Class PyFloatLaws (PF : PyFloat) : Prop := {
  nan_not_eq : float_eqb float_nan float_nan = false;
  inf_eq : float_eqb float_inf float_inf = true;
  neginf_eq : float_eqb float_neginf float_neginf = true;
  neginf_not_inf : float_eqb float_neginf float_inf = false;
  literal_not_nan : forall lit,
    is_float_literal lit = true ->
    float_eqb (float_of_literal lit) (float_of_literal lit) = true;
  literal_inf : forall lit,
    is_float_literal lit = true ->
    float_eqb (float_of_literal lit) float_inf = true -> float_of_literal lit = float_inf;
  literal_neginf : forall lit,
    is_float_literal lit = true ->
    float_eqb (float_of_literal lit) float_neginf = true -> float_of_literal lit = float_neginf;
  repr_literal : forall lit,
    is_float_literal lit = true ->
    float_eqb (float_of_literal lit) float_inf = false ->
    float_eqb (float_of_literal lit) float_neginf = false ->
    is_float_literal (float_repr (float_of_literal lit)) = true
    /\ float_of_literal (float_repr (float_of_literal lit)) = float_of_literal lit
}.

Section WellFormed.
Context {PF : PyFloat}.

(** The floats [json.loads] builds: the three constants and [float()] of
    a number literal. *)
Definition float_ok (f : float) : Prop :=
  f = float_nan \/ f = float_inf \/ f = float_neginf
  \/ exists lit, is_float_literal lit = true /\ f = float_of_literal lit.

(** The values [json.loads] builds: their floats are as above and no
    object holds a key twice. *)
Inductive wf : pyvalue -> Prop :=
| wf_None : wf PyNone
| wf_Bool b : wf (PyBool b)
| wf_Int z : wf (PyInt z)
| wf_Float f : float_ok f -> wf (PyFloat_ f)
| wf_Str v : wf (PyStr v)
| wf_List l : Forall wf l -> wf (PyList l)
| wf_Dict d : NoDup (map fst d) -> Forall (fun kv => wf (snd kv)) d -> wf (PyDict d).

(** Nesting depth of a value. *)
Fixpoint depth (v : pyvalue) : nat :=
  match v with
  | PyList l => S (list_max (map depth l))
  | PyDict d => S (list_max (map (fun '(_, x) => depth x) d))
  | _ => O
  end.

(** The text after a member of an array, as [json.dumps] writes it: the
    members still to come, each after a comma and the white space of the
    separator, then [close]. *)
Fixpoint array_rest (enc : pyvalue -> pystr) (sep_ws : pystr) (items : list pyvalue)
    (close : pystr) : pystr :=
  match items with
  | [] => close
  | y :: r => ch "," :: sep_ws ++ enc y ++ array_rest enc sep_ws r close
  end.

(** The text of a member of an object after the opening quote of its key. *)
Definition member_text (enc : pyvalue -> pystr) (k : pystr) (x : pyvalue) (rest : pystr)
  : pystr :=
  flat_map escape_char k ++ DQUOTE :: ch ":" :: ch " " :: enc x ++ rest.

(** The text after a member of an object. *)
Fixpoint object_rest (enc : pyvalue -> pystr) (sep_ws : pystr)
    (items : list (pystr * pyvalue)) (close : pystr) : pystr :=
  match items with
  | [] => close
  | (k, y) :: r =>
      ch "," :: sep_ws ++ DQUOTE :: member_text enc k y (object_rest enc sep_ws r close)
  end.

(** What a scanning function returns is well formed. *)
Definition wf_result (res : outcome Json.exn (pyvalue * nat * pystr)) : Prop :=
  match res with
  | Ok (v, _, _) => wf v
  | Raise _ => True
  end.

End WellFormed.

(** Whether the text holds a single quote. *)
Definition has_single_quote (text : pystr) : bool := existsb (Z.eqb (ch "'")) text.

(** A value is read back, with [fuel] for the scanner, from the text the
    encoder writes for it at any level, before anything that ends a value
    ([isep_tail] is what the item separator holds after its comma). *)
Definition reads_back {PF : PyFloat} (s : pystr) (_indent : option pystr) (isep_tail : pystr)
    (fuel : nat) (v : pyvalue) : Prop :=
  forall level idx tail,
    ends_value tail = true ->
    exists end_,
      scan_once s fuel idx
        (_iterencode _indent (ch "," :: isep_tail) (str ": ") v level ++ tail)
      = Ok (v, end_, tail).

(** ** Notions of the further properties *)

(** Positions stay inside the document [s]: a scanning function returns
    the position at which the text it leaves starts, and the position of an
    error is no more than the length of [s]. *)
Definition located {A} (s : pystr) (res : outcome exn (A * nat * pystr)) : Prop :=
  match res with
  | Ok (_, idx, rest) => (idx + length rest = length s)%nat
  | Raise (JSONDecodeError _ _ pos) => (pos <= length s)%nat
  | Raise (StopIteration pos) => (pos <= length s)%nat
  | Raise _ => True
  end.

(** A character that is not a control character. *)
Definition visible (c : Z) : bool := negb (is_control c).

(** A character that stands for itself inside a JSON string. *)
Definition string_char (c : Z) : bool :=
  (32 <=? c) && negb (c =? DQUOTE) && negb (c =? BACKSLASH).

(** The code points a Python [str] can hold. *)
Definition code_point (c : Z) : bool := (0 <=? c) && (c <=? 0x10FFFF).

(** A title with every space replaced by an underscore. *)
Definition underscored (t : pystr) : pystr := map (fun c => if c =? ch " " then ch "_" else c) t.

(** A line that holds no control character, hence no newline. *)
Definition one_line (l : line) : Prop := forallb visible (snd l) = true.

Section Containers.
Context {PF : PyFloat}.

(** The number of lines of a value written with an indent: one for a
    scalar or an empty container, two more than its members take for any
    other container. *)
Fixpoint n_lines (v : pyvalue) : nat :=
  match v with
  | PyList [] => 1
  | PyList l => 2 + list_sum (map n_lines l)
  | PyDict [] => 1
  | PyDict d => 2 + list_sum (map (fun '(_, x) => n_lines x) d)
  | _ => 1
  end.



End Containers.

End Notions.

Import Notions.

(* ================================================================== *)
(** * Facts about strings *)

Import Json JsonFormatter.

Lemma startswith_one (a c : Z) (s : pystr) : startswith [a] (c :: s) = (a =? c).
Proof. simpl. now rewrite andb_true_r. Qed.

(** Replacing a one-character string by a one-character string is a map
    over the characters. *)
Lemma replace_char_map (a b : Z) (s : pystr) :
  replace s [a] [b] = map (fun c => if c =? a then b else c) s.
Proof.
  unfold replace.
  induction s as [|c s IH]; [reflexivity|].
  cbn [replace_from map]. rewrite startswith_one, (Z.eqb_sym a c).
  destruct (c =? a); cbn [length Nat.pred app]; now rewrite IH.
Qed.

Lemma replace_quotes_map (s : pystr) :
  replace s (str "'") [DQUOTE] = map (fun c => if c =? ch "'" then DQUOTE else c) s.
Proof. apply replace_char_map. Qed.

Lemma replace_absent (a b : Z) (s : pystr) :
  ~ In a s -> replace s [a] [b] = s.
Proof.
  intros H. rewrite replace_char_map.
  induction s as [|c s IH]; [reflexivity|].
  cbn [map]. destruct (Z.eqb_spec c a) as [->|_].
  - exfalso. apply H. now left.
  - f_equal. apply IH. intros Hin. apply H. now right.
Qed.

(* ================================================================== *)
(** * The handler of /api/format, for any JSON library *)

Section AnyLibrary.
Context {L : JsonLib}.

Lemma format_json_ok (data : JSONInput) (parsed : value) (out : pystr) :
  json_loads (replace data.(text) (str "'") [DQUOTE]) = Ok parsed ->
  json_dumps parsed data.(indent) = Ok out ->
  format_json data = Success out.
Proof. intros H1 H2. unfold format_json. cbv zeta. rewrite H1. cbn [bind]. now rewrite H2. Qed.

Lemma format_json_decode_error (data : JSONInput) (msg doc : pystr) (pos : nat) :
  json_loads (replace data.(text) (str "'") [DQUOTE]) = Raise (JSONDecodeError msg doc pos) ->
  format_json data
  = Failure (str "JSON Error: " ++ msg) (Some (lineno doc pos)) (Some (colno doc pos)).
Proof. intros H. unfold format_json. cbv zeta. now rewrite H. Qed.



(** C9. The handler of /api/format is a total function of the request, and
    for every JSON library behind it (whatever it returns or raises) the
    response has the shape of the model: [success = true] comes with
    [formatted] set and [error], [error_line], [error_column] all null;
    [success = false] comes with [error] set and [formatted] null. *)
Theorem format_json_response_shape :
  forall data : JSONInput, response_shape (format_json data).
Proof.
  intros data. unfold format_json, response_shape. cbn.
  destruct (json_loads _) as [parsed|e]; cbn.
  - destruct (json_dumps _ _) as [out|e]; cbn.
    + split; [intros _|discriminate]. repeat split; eauto.
    + destruct e; cbn; (split; [discriminate|intros _; split; eauto]).
  - destruct e; cbn; (split; [discriminate|intros _; split; eauto]).
Qed.

End AnyLibrary.

(* ================================================================== *)
(** * The converter service: validation *)

Import MarkdownConverter.

Lemma lstrip_nil (s : pystr) : lstrip s = [] <-> blank s = true.
Proof.
  unfold blank. induction s as [|c s IH]; cbn; [tauto|].
  destruct (isspace c); cbn; [exact IH|]. split; discriminate.
Qed.

Lemma blank_app (a b : pystr) : blank (a ++ b) = blank a && blank b.
Proof. apply forallb_app. Qed.

Lemma blank_rev (s : pystr) : blank (rev s) = blank s.
Proof.
  induction s as [|c s IH]; [reflexivity|].
  cbn [rev]. rewrite blank_app, IH. cbn. rewrite andb_true_r. apply andb_comm.
Qed.

Lemma lstrip_blank_iff (s : pystr) : blank (lstrip s) = blank s.
Proof.
  induction s as [|c s IH]; [reflexivity|].
  cbn. destruct (isspace c) eqn:Hc; [exact IH|]. cbn. now rewrite Hc.
Qed.

(** [not s.strip()] holds exactly for the blank strings. *)
Lemma not_strip_blank (s : pystr) : negb (truthy (strip s)) = blank s.
Proof.
  unfold strip, rstrip.
  destruct (blank s) eqn:Hb.
  - assert (H : lstrip s = []) by now apply lstrip_nil. now rewrite H.
  - assert (H : lstrip (rev (lstrip s)) <> []).
    { intros H. apply lstrip_nil in H. rewrite blank_rev, lstrip_blank_iff in H. congruence. }
    destruct (lstrip (rev (lstrip s))) as [|c r] eqn:Hl; [contradiction|].
    cbn [rev]. now destruct (rev r).
Qed.

Lemma utf8_decode_raises (n : nat) :
  forall bs pos e, (length bs <= n)%nat ->
    utf8_decode_from pos bs = Raise e -> exists start, e = UnicodeDecodeError start.
Proof.
  induction n as [|n IH]; intros bs pos e Hn H.
  - destruct bs; [discriminate|cbn in Hn; lia].
  - destruct bs as [|b0 r0]; [discriminate|]. cbn in Hn.
    assert (Hrec : forall p r, (length r <= n)%nat -> forall A (k : pystr -> outcome MarkdownConverter.exn A),
               bind (utf8_decode_from p r) k = Raise e ->
               (forall x, k x <> Raise e) -> exists start, e = UnicodeDecodeError start).
    { intros p r Hr A k Hb Hk. destruct (utf8_decode_from p r) eqn:Hd; cbn in Hb.
      - now destruct (Hk a).
      - injection Hb as <-. eapply IH; eauto. }
    cbn [utf8_decode_from] in H.
    repeat match type of H with
           | (if ?c then _ else _) = _ => destruct c
           | match ?l with [] => _ | _ :: _ => _ end = _ => destruct l; cbn in Hn
           | Raise _ = Raise _ => injection H as <-; eauto
           | bind _ _ = _ => eapply Hrec in H; [exact H|lia|discriminate]
           end.
Qed.

Lemma decode_utf8_raises (content : bytes) (e : MarkdownConverter.exn) :
  decode_utf8 content = Raise e -> exists start, e = UnicodeDecodeError start.
Proof. apply (utf8_decode_raises _ _ _ _ (le_n _)). Qed.

Section Validation.
Context {E : Engines}.

Lemma paste_blank (content fmt : pystr) (title : option pystr) :
  blank content = true ->
  convert_paste content fmt title = Raise (HTTPException 400 (str "Content cannot be empty")).
Proof. intros H. unfold convert_paste. now rewrite not_strip_blank, H. Qed.

Lemma paste_bad_format (content fmt : pystr) (title : option pystr) :
  blank content = false -> str_in fmt formats = false ->
  convert_paste content fmt title
  = Raise (HTTPException 400 (str "output_format must be 'html' or 'pdf'")).
Proof.
  intros H Hf. unfold convert_paste. rewrite not_strip_blank, H.
  fold formats. now rewrite Hf.
Qed.

Lemma upload_bad_format (file : UploadFile) (fmt : pystr) :
  str_in fmt formats = false ->
  convert_upload file fmt
  = Raise (HTTPException 400 (str "output_format must be 'html' or 'pdf'")).
Proof. intros Hf. unfold convert_upload. fold formats. now rewrite Hf. Qed.

Lemma upload_not_utf8 (file : UploadFile) (fmt : pystr) :
  str_in fmt formats = true -> valid_utf8 file.(read) = false ->
  convert_upload file fmt
  = Raise (HTTPException 400 (str "File must be a valid text file with UTF-8 encoding")).
Proof.
  intros Hf Hv. unfold convert_upload. fold formats. rewrite Hf. cbn [negb].
  unfold valid_utf8 in Hv. cbv zeta.
  destruct (decode_utf8 (read file)) as [md|e] eqn:Hd; [discriminate|].
  destruct (decode_utf8_raises _ _ Hd) as [start ->]. reflexivity.
Qed.

Lemma upload_blank (file : UploadFile) (fmt md : pystr) :
  str_in fmt formats = true -> decode_utf8 file.(read) = Ok md -> blank md = true ->
  convert_upload file fmt
  = Raise (HTTPException 500
             (str "Conversion error: " ++ exn_str (HTTPException 400 (str "File is empty")))).
Proof.
  intros Hf Hd Hb. unfold convert_upload. fold formats. rewrite Hf. cbn [negb].
  cbv zeta. rewrite Hd. cbn [bind]. now rewrite not_strip_blank, Hb.
Qed.

Lemma upload_converts (file : UploadFile) (fmt md : pystr) :
  str_in fmt formats = true -> decode_utf8 file.(read) = Ok md -> blank md = false ->
  convert_upload file fmt
  = match respond md (Some (upload_title file)) fmt with
    | Ok response => Ok response
    | Raise (UnicodeDecodeError _) =>
        Raise (HTTPException 400 (str "File must be a valid text file with UTF-8 encoding"))
    | Raise e => Raise (HTTPException 500 (str "Conversion error: " ++ exn_str e))
    end.
Proof.
  intros Hf Hd Hb. unfold convert_upload. fold formats. rewrite Hf. cbn [negb].
  cbv zeta. rewrite Hd. cbn [bind]. now rewrite not_strip_blank, Hb.
Qed.

End Validation.

(** ** [os.path.splitext] on a plain name with an extension *)

Lemma rfind_from_app (c : Z) (a b : pystr) :
  forall i found,
    rfind_from c (a ++ b) i found
    = rfind_from c b (i + Z.of_nat (length a)) (rfind_from c a i found).
Proof.
  induction a as [|x a IH]; intros i found; cbn [app rfind_from length].
  - now rewrite Z.add_0_r.
  - rewrite IH. f_equal. lia.
Qed.

Lemma rfind_from_absent (c : Z) (b : pystr) :
  forall i found, ~ In c b -> rfind_from c b i found = found.
Proof.
  induction b as [|x b IH]; intros i found H; [reflexivity|].
  cbn [rfind_from]. destruct (Z.eqb_spec x c) as [->|_].
  - exfalso. apply H. now left.
  - apply IH. intros Hin. apply H. now right.
Qed.

Lemma plain_not_in (s : pystr) (c : Z) :
  plain s = true -> c = ch "." \/ c = ch "/" -> ~ In c s.
Proof.
  unfold plain. rewrite forallb_forall. intros H Hc Hin.
  apply H in Hin. destruct Hc as [-> | ->]; discriminate.
Qed.

Lemma has_non_dot_plain (s : pystr) : plain s = true -> truthy s = true -> has_non_dot s = true.
Proof.
  destruct s as [|c s]; [discriminate|]. cbn. intros H _.
  apply andb_prop in H as [H _]. apply negb_true_iff, orb_false_elim in H as [H _].
  now rewrite H.
Qed.

Lemma splitext_plain (stem ext : pystr) :
  plain stem = true -> truthy stem = true -> plain ext = true ->
  splitext (stem ++ ch "." :: ext) = (stem, ch "." :: ext).
Proof.
  intros Hs Ht He. unfold splitext, rfind.
  assert (Hdot : rfind_from (ch ".") (stem ++ ch "." :: ext) 0 (-1) = Z.of_nat (length stem)).
  { rewrite rfind_from_app. cbn [rfind_from]. rewrite Z.eqb_refl.
    apply rfind_from_absent. apply plain_not_in; auto. }
  assert (Hsep : rfind_from (ch "/") (stem ++ ch "." :: ext) 0 (-1) = -1).
  { apply rfind_from_absent. intros Hin. apply in_app_or in Hin as [Hin|[Hin|Hin]].
    - revert Hin. apply plain_not_in; auto.
    - discriminate.
    - revert Hin. apply plain_not_in; auto. }
  rewrite Hdot, Hsep.
  replace (-1 <? Z.of_nat (length stem)) with true by (symmetry; apply Z.ltb_lt; lia).
  unfold slice. replace (-1 + 1) with 0 by lia. rewrite Z.sub_0_r, Nat2Z.id. cbn [Z.to_nat skipn].
  rewrite firstn_app, Nat.sub_diag, firstn_all. cbn [firstn]. rewrite app_nil_r.
  rewrite (has_non_dot_plain _ Hs Ht). cbn [andb].
  rewrite skipn_app, Nat.sub_diag, skipn_all. reflexivity.
Qed.

Example splitext_md : splitext (str "My notes.md") = (str "My notes", str ".md").
Proof. reflexivity. Qed.

Example splitext_hidden : splitext (str ".bashrc") = (str ".bashrc", []).
Proof. reflexivity. Qed.

Example splitext_dir : splitext (str "dir.d/file") = (str "dir.d/file", []).
Proof. reflexivity. Qed.

(* ================================================================== *)
(** * The converter service: the claims *)

Section ConverterClaims.
Context {E : Engines}.

(** C4 (at the input where the code departs from it). An upload whose file
    is empty, with a valid output format, is answered with status 500: the
    [HTTPException(400, "File is empty")] raised inside the [try] block is
    caught by [except Exception] and raised again as a conversion error.
    The paste endpoint answers 400 (lemma [paste_blank]). *)
Theorem upload_empty_file_is_500 :
  forall name : option pystr,
    convert_upload {| filename := name; read := [] |} (str "html")
    = Raise (HTTPException 500
               (str "Conversion error: " ++ exn_str (HTTPException 400 (str "File is empty"))))
    /\ status (convert_upload {| filename := name; read := [] |} (str "html")) = 500.
Proof.
  intros name.
  assert (H : convert_upload {| filename := name; read := [] |} (str "html")
              = Raise (HTTPException 500
                  (str "Conversion error: " ++ exn_str (HTTPException 400 (str "File is empty"))))).
  { apply (upload_blank _ _ []); reflexivity. }
  split; [exact H|]. now rewrite H.
Qed.

(** The paste endpoint answers blank content (empty, or white space only)
    with status 400, for every output format and title, before it looks
    at the format. *)
Theorem paste_blank_content_is_400 :
  forall (content fmt : pystr) (title : option pystr),
    blank content = true ->
    convert_paste content fmt title = Raise (HTTPException 400 (str "Content cannot be empty"))
    /\ status (convert_paste content fmt title) = 400.
Proof.
  intros content fmt title Hb.
  rewrite (paste_blank content fmt title Hb). split; reflexivity.
Qed.

(** C7. An upload whose bytes are not valid UTF-8 is answered with status
    400 (the encoding error when the output format is valid, the format
    error otherwise), and that answer differs from the answer to empty
    content: from what an upload of a blank file gets once its format is
    accepted, and from what a paste of blank content gets. *)
Theorem upload_invalid_utf8_is_400 :
  forall (file : UploadFile) (fmt : pystr),
    valid_utf8 file.(read) = false ->
    convert_upload file fmt
    = Raise (HTTPException 400
               (if str_in fmt formats
                then str "File must be a valid text file with UTF-8 encoding"
                else str "output_format must be 'html' or 'pdf'"))
    /\ status (convert_upload file fmt) = 400
    /\ (forall (file' : UploadFile) (fmt' md : pystr),
          str_in fmt' formats = true -> decode_utf8 file'.(read) = Ok md -> blank md = true ->
          convert_upload file fmt <> convert_upload file' fmt')
    /\ (forall (content' fmt' : pystr) (title' : option pystr),
          blank content' = true ->
          convert_upload file fmt <> convert_paste content' fmt' title').
Proof.
  intros file fmt Hv.
  assert (H : convert_upload file fmt
              = Raise (HTTPException 400
                  (if str_in fmt formats
                   then str "File must be a valid text file with UTF-8 encoding"
                   else str "output_format must be 'html' or 'pdf'"))).
  { destruct (str_in fmt formats) eqn:Hf.
    - now apply upload_not_utf8.
    - now apply upload_bad_format. }
  split; [exact H|]. split; [now rewrite H|]. split.
  - intros file' fmt' md Hf' Hd Hb. rewrite H, (upload_blank file' fmt' md Hf' Hd Hb).
    intros Heq. injection Heq as Hs _. discriminate Hs.
  - intros content' fmt' title' Hb. rewrite H, (paste_blank _ _ _ Hb).
    destruct (str_in fmt formats); intros Heq; injection Heq as Heq; discriminate Heq.
Qed.

(** C8. A request whose output format is neither [html] nor [pdf] is
    answered with status 400, by both endpoints, and the answer is fixed
    before the converter is called: it names no engine.  (The paste
    endpoint checks for blank content first, and then answers 400 for
    that.) *)
Theorem bad_output_format_is_400 :
  forall (content fmt : pystr) (title : option pystr) (file : UploadFile),
    str_in fmt formats = false ->
    convert_upload file fmt
    = Raise (HTTPException 400 (str "output_format must be 'html' or 'pdf'"))
    /\ convert_paste content fmt title
       = Raise (HTTPException 400
                  (if blank content then str "Content cannot be empty"
                   else str "output_format must be 'html' or 'pdf'"))
    /\ status (convert_upload file fmt) = 400
    /\ status (convert_paste content fmt title) = 400.
Proof.
  intros content fmt title file Hf.
  assert (Hu := upload_bad_format file fmt Hf).
  assert (Hp : convert_paste content fmt title
               = Raise (HTTPException 400
                   (if blank content then str "Content cannot be empty"
                    else str "output_format must be 'html' or 'pdf'"))).
  { destruct (blank content) eqn:Hb.
    - now apply paste_blank.
    - now apply paste_bad_format. }
  rewrite Hu, Hp. repeat split.
Qed.

(** C10. The upload endpoint never looks at the extension of the file: an
    upload with a valid output format whose bytes decode to text that is
    not blank goes to the converter under the title taken from its name,
    whatever the name is; and two uploads of the same bytes whose names
    differ in the extension only get the same answer. *)
Theorem upload_any_extension :
  forall (file : UploadFile) (fmt md : pystr),
    str_in fmt formats = true ->
    decode_utf8 file.(read) = Ok md ->
    blank md = false ->
    convert_upload file fmt
    = match respond md (Some (upload_title file)) fmt with
      | Ok response => Ok response
      | Raise (UnicodeDecodeError _) =>
          Raise (HTTPException 400 (str "File must be a valid text file with UTF-8 encoding"))
      | Raise e => Raise (HTTPException 500 (str "Conversion error: " ++ exn_str e))
      end
    /\ (forall stem ext ext' : pystr,
          plain stem = true -> truthy stem = true -> plain ext = true -> plain ext' = true ->
          convert_upload {| filename := Some (stem ++ ch "." :: ext); read := file.(read) |} fmt
          = convert_upload {| filename := Some (stem ++ ch "." :: ext'); read := file.(read) |} fmt).
Proof.
  intros file fmt md Hf Hd Hb. split; [now apply upload_converts|].
  intros stem ext ext' Hs Ht He He'.
  rewrite (upload_converts {| filename := Some (stem ++ ch "." :: ext); read := read file |} fmt md),
          (upload_converts {| filename := Some (stem ++ ch "." :: ext'); read := read file |} fmt md)
    by assumption.
  unfold upload_title. cbn [filename].
  assert (Hn : forall x, truthy (stem ++ ch "." :: x) = true) by (intros x; now destruct stem).
  now rewrite !Hn, !splitext_plain.
Qed.

End ConverterClaims.

(** An upload that is not UTF-8, and one with an unknown extension. *)
Lemma upload_invalid_utf8_is_400_witness :
  valid_utf8 [xff; xfe] = false
  /\ status (convert_upload (E := echo_engines)
               {| filename := Some (str "notes.md"); read := [xff; xfe] |} (str "html")) = 400.
Proof.
  split; [reflexivity|].
  apply (upload_invalid_utf8_is_400 (E := echo_engines)
           {| filename := Some (str "notes.md"); read := [xff; xfe] |} (str "html")).
  reflexivity.
Defined.

Lemma paste_blank_content_is_400_witness :
  blank (str "   ") = true
  /\ status (convert_paste (E := echo_engines) (str "   ") (str "pdf") (Some (str "Document")))
     = 400.
Proof.
  split; [reflexivity|].
  apply (paste_blank_content_is_400 (E := echo_engines) (str "   ") (str "pdf")
           (Some (str "Document"))).
  reflexivity.
Defined.

Lemma bad_output_format_is_400_witness :
  str_in (str "xml") formats = false
  /\ status (convert_paste (E := echo_engines) (str "# Title") (str "xml") (Some (str "Document")))
     = 400.
Proof.
  split; [reflexivity|].
  apply (bad_output_format_is_400 (E := echo_engines) (str "# Title") (str "xml")
           (Some (str "Document")) {| filename := None; read := [] |}).
  reflexivity.
Defined.

Lemma upload_any_extension_witness :
  decode_utf8 (ascii_bytes "# Title") = Ok (str "# Title")
  /\ convert_upload (E := echo_engines)
       {| filename := Some (str "notes" ++ ch "." :: str "exe"); read := ascii_bytes "# Title" |}
       (str "html")
     = convert_upload (E := echo_engines)
         {| filename := Some (str "notes" ++ ch "." :: str "md"); read := ascii_bytes "# Title" |}
         (str "html").
Proof.
  split; [reflexivity|].
  apply (upload_any_extension (E := echo_engines)
           {| filename := Some (str "notes.exe"); read := ascii_bytes "# Title" |}
           (str "html") (str "# Title")); reflexivity.
Defined.

(* ================================================================== *)
(** * The decoder always answers *)

Lemma w_end_length (rest : pystr) :
  forall idx idx' rest', w_end idx rest = (idx', rest') -> (length rest' <= length rest)%nat.
Proof.
  induction rest as [|c r IH]; intros idx idx' rest' H; cbn in H.
  - injection H as _ <-. lia.
  - destruct (is_ws c).
    + apply IH in H. cbn. lia.
    + injection H as _ <-. lia.
Qed.

Lemma consumed_weaken {A} (s : pystr) (fuel fuel' : nat) (stop_ok : bool) (rest rest0 : pystr)
    (res : outcome Json.exn (A * nat * pystr)) :
  consumed s fuel stop_ok rest res -> (length rest <= length rest0)%nat -> (fuel' <= fuel)%nat ->
  consumed s fuel' stop_ok rest0 res.
Proof.
  unfold consumed. destruct res as [[[v e] r]|[]]; intros; auto; lia.
Qed.

Section DecoderAnswers.
Context {PF : PyFloat}.
Variable s : pystr.

Lemma scanstring_loop_consumed (n : nat) :
  forall rest begin chunks end_ fuel, (length rest <= n)%nat ->
    consumed s (S fuel + length rest) false rest (scanstring_loop s begin chunks end_ rest).
Proof.
  induction n as [|n IH]; intros rest begin chunks end_ fuel Hn.
  - destruct rest; [reflexivity|cbn in Hn; lia].
  - destruct rest as [|c r]; [reflexivity|]. cbn in Hn.
    assert (Hrec : forall b ch e r', (length r' <= length r)%nat ->
               consumed s (S fuel + length (c :: r)) false (c :: r) (scanstring_loop s b ch e r')).
    { intros b ch0 e r' Hr.
      apply (consumed_weaken s (S (S fuel + length r) + length r') (S fuel + length (c :: r)) false r').
      - apply IH. lia.
      - cbn. lia.
      - cbn. lia. }
    cbn [scanstring_loop].
    repeat match goal with
           | |- consumed s _ _ _ (if ?b then _ else _) => destruct b
           | |- consumed s _ _ _ (match ?l with [] => _ | _ :: _ => _ end) =>
               destruct l; cbn [length] in *
           | |- consumed s _ _ _ (match hex4 ?a ?b ?c ?d with Some _ => _ | None => _ end) =>
               destruct (hex4 a b c d)
           | |- consumed s _ _ _ (match backslash ?a with Some _ => _ | None => _ end) =>
               destruct (backslash a)
           | |- consumed s _ _ _ (let x := _ in _) => cbv zeta
           | |- consumed s _ _ _ (Raise _) => reflexivity
           | |- consumed s _ _ _ (Ok _) => cbn; lia
           | |- consumed s _ _ _ (scanstring_loop _ _ _ _ _) => apply Hrec; cbn; lia
           end.
Qed.

Lemma scanstring_consumed (end_ fuel : nat) (rest : pystr) :
  consumed s (S fuel + length rest) false rest (scanstring s end_ rest).
Proof. apply (scanstring_loop_consumed (length rest)). lia. Qed.

Lemma expecting_value_consumed {A} (fuel : nat) (rest : pystr)
    (res : outcome Json.exn (A * nat * pystr)) :
  consumed s fuel true rest res -> consumed s fuel false rest (expecting_value s res).
Proof. destruct res as [[[v e] r]|[]]; cbn; auto. Qed.

Section Loops.
Variable scan_once : nat -> pystr -> result.
Variable fuel : nat.
Hypothesis scan_once_consumed :
  forall idx rest, consumed s fuel true rest (scan_once idx rest).

Lemma JSONArray_loop_consumed (n : nat) :
  forall values end_ rest, (length rest <= n)%nat -> (1 <= n)%nat ->
    consumed s fuel false rest (JSONArray_loop s scan_once n values end_ rest).
Proof.
  induction n as [|n IH]; intros values end_ rest Hn H1; [lia|].
  cbn [JSONArray_loop].
  pose proof (expecting_value_consumed _ _ _ (scan_once_consumed end_ rest)) as Hv.
  destruct (expecting_value s (scan_once end_ rest)) as [[[value end1] r1]|e]; [|exact Hv].
  cbn in Hv. cbn [bind].
  destruct (w_end end1 r1) as [end2 r2] eqn:Hw2. apply w_end_length in Hw2.
  destruct r2 as [|nextchar r3]; [reflexivity|]. cbn [length] in Hw2.
  destruct (nextchar =? ch "]"); [cbn; lia|].
  destruct (nextchar =? ch ","); [|reflexivity].
  destruct (w_end (S end2) r3) as [end4 r4] eqn:Hw4. apply w_end_length in Hw4.
  apply (consumed_weaken s fuel fuel false r4); [|lia|lia].
  apply IH; lia.
Qed.

Lemma JSONArray_consumed (end_ : nat) (rest : pystr) :
  consumed s fuel false rest (JSONArray s scan_once end_ rest).
Proof.
  unfold JSONArray.
  destruct (w_end end_ rest) as [end1 r1] eqn:Hw. apply w_end_length in Hw.
  destruct r1 as [|nextchar r2].
  - apply (consumed_weaken s fuel fuel false []); [|exact Hw|lia].
    apply JSONArray_loop_consumed; cbn; lia.
  - destruct (nextchar =? ch "]"); [cbn in *; lia|].
    apply (consumed_weaken s fuel fuel false (nextchar :: r2)); [|exact Hw|lia].
    apply JSONArray_loop_consumed; cbn; lia.
Qed.

Lemma JSONObject_loop_consumed (n : nat) :
  forall pairs end_ rest, (length rest < n)%nat ->
    consumed s fuel false rest (JSONObject_loop s scan_once n pairs end_ rest).
Proof.
  induction n as [|n IH]; intros pairs end_ rest Hn; [lia|].
  cbn [JSONObject_loop].
  pose proof (scanstring_consumed end_ fuel rest) as Hk.
  destruct (scanstring s end_ rest) as [[[key end1] r1]|e].
  2:{ destruct e; cbn in *; auto; lia. }
  cbn in Hk. cbn [bind].
  destruct (w_end end1 r1) as [end2 r2] eqn:Hw2. apply w_end_length in Hw2.
  destruct r2 as [|colon r3]; [reflexivity|]. cbn [length] in Hw2.
  destruct (colon =? ch ":"); [|reflexivity].
  destruct (w_end (S end2) r3) as [end4 r4] eqn:Hw4. apply w_end_length in Hw4.
  pose proof (expecting_value_consumed _ _ _ (scan_once_consumed end4 r4)) as Hv.
  destruct (expecting_value s (scan_once end4 r4)) as [[[value end5] r5]|e].
  2:{ destruct e; cbn in *; auto; lia. }
  cbn in Hv. cbn [bind].
  destruct (w_end end5 r5) as [end6 r6] eqn:Hw6. apply w_end_length in Hw6.
  destruct r6 as [|nextchar r7]; [reflexivity|]. cbn [length] in Hw6.
  destruct (nextchar =? ch "}"); [cbn; lia|].
  destruct (nextchar =? ch ","); [|reflexivity].
  destruct (w_end (S end6) r7) as [end8 r8] eqn:Hw8. apply w_end_length in Hw8.
  destruct r8 as [|q r9]; [reflexivity|]. cbn [length] in Hw8.
  destruct (q =? DQUOTE); [|reflexivity].
  apply (consumed_weaken s fuel fuel false r9); [|lia|lia].
  apply IH; lia.
Qed.

Lemma JSONObject_consumed (end_ : nat) (rest : pystr) :
  consumed s fuel false rest (JSONObject s scan_once end_ rest).
Proof.
  unfold JSONObject.
  destruct (w_end end_ rest) as [end1 r1] eqn:Hw. apply w_end_length in Hw.
  destruct r1 as [|nextchar r2]; [reflexivity|]. cbn [length] in Hw.
  destruct (nextchar =? DQUOTE).
  - apply (consumed_weaken s fuel fuel false r2); [|lia|lia].
    apply JSONObject_loop_consumed; cbn; lia.
  - destruct (nextchar =? ch "}"); [cbn; lia|reflexivity].
Qed.

End Loops.

Lemma span_digits_length (rest : pystr) :
  forall ds r, span_digits rest = (ds, r) -> (length ds + length r = length rest)%nat.
Proof.
  induction rest as [|c rest IH]; intros ds r H; cbn in H.
  - injection H as <- <-. reflexivity.
  - destruct (is_digit c).
    + destruct (span_digits rest) as [ds' r'] eqn:Hs. injection H as <- <-.
      cbn. rewrite (IH ds' r' eq_refl). reflexivity.
    + injection H as <- <-. reflexivity.
Qed.

Lemma match_integer_length (rest integer r : pystr) :
  match_integer rest = Some (integer, r) -> (length r < length rest)%nat.
Proof.
  unfold match_integer. intros H.
  assert (Hgen : forall sign r0, (length r0 <= length rest)%nat ->
             match r0 with
             | [] => None
             | c :: r' =>
                 if c =? ch "0" then Some (sign ++ [c], r')
                 else if is_digit c
                      then let '(ds, r'') := span_digits r' in Some (sign ++ c :: ds, r'')
                      else None
             end = Some (integer, r) -> (length r < length rest)%nat).
  { intros sign r0 Hr0 H0. destruct r0 as [|c r']; [discriminate|]. cbn in Hr0.
    destruct (c =? ch "0"); [injection H0 as _ <-; lia|].
    destruct (is_digit c); [|discriminate].
    destruct (span_digits r') as [ds r''] eqn:Hs. apply span_digits_length in Hs.
    injection H0 as _ <-. lia. }
  destruct rest as [|c r']; [discriminate|].
  destruct (c =? ch "-").
  - apply (Hgen [c] r'); [cbn; lia|exact H].
  - apply (Hgen [] (c :: r')); [lia|exact H].
Qed.

Lemma match_frac_length (rest : pystr) :
  forall frac r, match_frac rest = (frac, r) -> (length r <= length rest)%nat.
Proof.
  intros frac r H. unfold match_frac in H.
  destruct rest as [|c rest']; [injection H as _ <-; lia|].
  destruct (c =? ch "."); [|injection H as _ <-; lia].
  destruct (span_digits rest') as [[|d ds] r'] eqn:Hs; injection H as _ <-; [lia|].
  apply span_digits_length in Hs. cbn in *. lia.
Qed.

Lemma match_exp_length (rest : pystr) :
  forall exp r, match_exp rest = (exp, r) -> (length r <= length rest)%nat.
Proof.
  intros exp r H. unfold match_exp in H.
  destruct rest as [|c rest']; [injection H as _ <-; lia|].
  destruct ((c =? ch "e") || (c =? ch "E")); [|injection H as _ <-; lia].
  assert (Hgen : forall sign r1, (length r1 <= length rest')%nat ->
            (let (ds, r2) := span_digits r1 in
             match ds with
             | [] => (None, c :: rest')
             | _ :: _ => (Some (c :: sign ++ ds), r2)
             end) = (exp, r) -> (length r <= length (c :: rest'))%nat).
  { intros sign r1 Hr1 H0.
    destruct (span_digits r1) as [[|d ds] r2] eqn:Hs; injection H0 as _ <-; [lia|].
    apply span_digits_length in Hs. cbn in *. lia. }
  destruct rest' as [|g r']; [apply (Hgen [] []); [lia|exact H]|].
  destruct ((g =? ch "-") || (g =? ch "+")).
  - apply (Hgen [g] r'); [cbn; lia|exact H].
  - apply (Hgen [] (g :: r')); [lia|exact H].
Qed.

Lemma match_number_length (rest integer r : pystr) (frac exp : option pystr) :
  match_number rest = Some (integer, frac, exp, r) -> (length r < length rest)%nat.
Proof.
  unfold match_number. intros H.
  destruct (match_integer rest) as [[i r1]|] eqn:Hi; [|discriminate].
  apply match_integer_length in Hi.
  destruct (match_frac r1) as [f r2] eqn:Hf. apply match_frac_length in Hf.
  destruct (match_exp r2) as [e r3] eqn:He. apply match_exp_length in He.
  injection H as _ _ _ <-. lia.
Qed.

Lemma startswith_length (p rest : pystr) :
  startswith p rest = true -> (length p <= length rest)%nat.
Proof.
  revert rest. induction p as [|a p IH]; intros rest H; cbn; [lia|].
  destruct rest as [|b rest]; [discriminate|]. cbn in H.
  apply andb_prop in H as [_ H]. apply IH in H. cbn. lia.
Qed.

Lemma scan_once_consumed (fuel : nat) :
  forall idx rest, consumed s fuel true rest (scan_once s fuel idx rest).
Proof.
  induction fuel as [|fuel IH]; intros idx rest; [cbn; lia|].
  cbn [scan_once].
  destruct rest as [|nextchar r]; [reflexivity|].
  destruct (nextchar =? DQUOTE).
  { pose proof (scanstring_consumed (S idx) fuel r) as Hs.
    destruct (scanstring s (S idx) r) as [[[v e] r']|e]; cbn in *; [lia|].
    destruct e; auto; lia. }
  destruct (nextchar =? ch "{").
  { pose proof (JSONObject_consumed _ _ IH (S idx) r) as Ho.
    destruct (JSONObject s (scan_once s fuel) (S idx) r) as [[[v e] r']|e]; cbn in *; [lia|].
    destruct e; auto; try discriminate; lia. }
  destruct (nextchar =? ch "[").
  { pose proof (JSONArray_consumed _ _ IH (S idx) r) as Ho.
    destruct (JSONArray s (scan_once s fuel) (S idx) r) as [[[v e] r']|e]; cbn in *; [lia|].
    destruct e; auto; try discriminate; lia. }
  assert (Hskip : forall p k, startswith p (nextchar :: r) = true -> length p = S k ->
             (length (skipn (S k) (nextchar :: r)) < length (nextchar :: r))%nat).
  { intros p k Hp Hk. rewrite length_skipn. cbn. lia. }
  destruct (startswith (str "null") (nextchar :: r)) eqn:H1; [eapply Hskip; eauto|].
  destruct (startswith (str "true") (nextchar :: r)) eqn:H2; [eapply Hskip; eauto|].
  destruct (startswith (str "false") (nextchar :: r)) eqn:H3; [eapply Hskip; eauto|].
  destruct (match_number (nextchar :: r)) as [[[[integer frac] exp] r']|] eqn:Hm.
  { apply match_number_length in Hm. destruct frac, exp; exact Hm. }
  destruct (startswith (str "NaN") (nextchar :: r)) eqn:H4; [eapply Hskip; eauto|].
  destruct (startswith (str "Infinity") (nextchar :: r)) eqn:H5; [eapply Hskip; eauto|].
  destruct (startswith (str "-Infinity") (nextchar :: r)) eqn:H6; [eapply Hskip; eauto|].
  reflexivity.
Qed.

(** [json.loads] raises nothing but [JSONDecodeError]: the bound on the
    recursion is never reached, and [StopIteration] never leaves. *)
(** [json.loads] raises nothing but [JSONDecodeError]: the bound on the
    recursion is never reached, and [StopIteration] never leaves. *)
Lemma decode_raises (e : Json.exn) :
  decode s = Raise e -> exists msg pos, e = JSONDecodeError msg s pos.
Proof.
  unfold decode, raw_decode.
  destruct (w_end 0 s) as [idx rest] eqn:Hw. apply w_end_length in Hw.
  pose proof (expecting_value_consumed _ _ _ (scan_once_consumed (S (length s)) idx rest)) as Hv.
  destruct (expecting_value s (scan_once s (S (length s)) idx rest)) as [[[obj end_] r]|e'].
  - cbn [bind]. destruct (w_end end_ r) as [end' r']. destruct r'; [discriminate|].
    intros H. injection H as <-. eauto.
  - cbn [bind]. intros H. injection H as <-.
    destruct e'; cbn in Hv; try discriminate; try contradiction; [subst; eauto|lia].
Qed.

End DecoderAnswers.

Lemma loads_raises {PF : PyFloat} (s : pystr) (e : Json.exn) :
  loads s = Raise e -> exists msg pos, e = JSONDecodeError msg s pos.
Proof.
  unfold loads. destruct (startswith [65279] s).
  - intros H. injection H as <-. eauto.
  - apply decode_raises.
Qed.

(** ** Line and column of an error are counted from 1 *)

Lemma rfind_from_lt (c : Z) (l : pystr) :
  forall i found, found < i -> rfind_from c l i found < i + Z.of_nat (length l).
Proof.
  induction l as [|x l IH]; intros i found H; cbn [rfind_from length].
  - lia.
  - rewrite Nat2Z.inj_succ.
    assert (Hlt : (if x =? c then i else found) < i + 1) by (destruct (x =? c); lia).
    specialize (IH (i + 1) _ Hlt). lia.
Qed.

Lemma lineno_pos (doc : pystr) (pos : nat) : 1 <= lineno doc pos.
Proof. unfold lineno. lia. Qed.

Lemma colno_pos (doc : pystr) (pos : nat) : 1 <= colno doc pos.
Proof.
  unfold colno, rfind.
  pose proof (rfind_from_lt NEWLINE (firstn pos doc) 0 (-1) ltac:(lia)) as H.
  pose proof (firstn_le_length pos doc). lia.
Qed.

(* ================================================================== *)
(** * The formatter service: substitution, failures, indent *)

Section FormatterClaims.
Context {PF : PyFloat}.

(** C1. The handler replaces every single quote of the text by a double
    quote, whatever surrounds it (the substituted text is the text mapped
    character by character), and its answer is what parsing the substituted
    text gives: the value written out again, or the error of the parser.
    On [{'a': 1}] the answer is a success whose text parses to the object
    with the one key [a] bound to 1. *)
Theorem format_json_substitutes_then_parses :
  forall (text : pystr) (indent : option Z),
    let substituted := map (fun c => if c =? ch "'" then DQUOTE else c) text in
    replace text (str "'") [DQUOTE] = substituted
    /\ format_json {| text := text; indent := indent |}
       = match loads substituted with
         | Ok parsed => Success (dumps parsed indent)
         | Raise (JSONDecodeError msg doc pos) =>
             Failure (str "JSON Error: " ++ msg) (Some (lineno doc pos)) (Some (colno doc pos))
         | Raise e => Failure (str "Error: " ++ Json.exn_str e) None None
         end
    /\ exists out,
         format_json {| text := str "{'a': 1}"; indent := default_indent |} = Success out
         /\ loads out = Ok (PyDict [(str "a", PyInt 1)]).
Proof.
  intros text indent substituted.
  assert (Hs : replace text (str "'") [DQUOTE] = substituted) by apply replace_quotes_map.
  split; [exact Hs|]. split.
  - unfold format_json. cbv zeta. cbn [JsonFormatter.text JsonFormatter.indent].
    rewrite Hs. cbn [json_loads json_dumps cpython_json].
    destruct (loads substituted) as [parsed|e]; [reflexivity|]. now destruct e.
  - eexists. split.
    + vm_compute. reflexivity.
    + vm_compute. reflexivity.
Qed.





End FormatterClaims.

Example format_json_empty_text :
  format_json (L := cpython_json (PF := literal_PyFloat)) {| text := []; indent := default_indent |}
  = Failure (str "JSON Error: Expecting value") (Some 1) (Some 1).
Proof. reflexivity. Qed.

Example format_json_second_line :
  format_json (L := cpython_json (PF := literal_PyFloat))
    {| text := str "{'a': 1,
  b}"; indent := default_indent |}
  = Failure (str "JSON Error: Expecting property name enclosed in double quotes")
      (Some 2) (Some 3).
Proof. reflexivity. Qed.




(* ================================================================== *)
(** * The layout of the formatted text *)

Lemma times_spaces (n : Z) (d : nat) :
  times (spaces n) d = repeat (ch " ") (Z.to_nat n * d).
Proof.
  unfold times, spaces. induction d as [|d IH]; cbn [repeat concat].
  - now rewrite Nat.mul_0_r.
  - rewrite IH, <- repeat_app. f_equal. lia.
Qed.

Lemma layout_cons (width : nat) (l : line) (r : list line) :
  layout width (l :: r) = write_line width l ++ flat_map (fun l => NEWLINE :: write_line width l) r.
Proof.
  revert l. induction r as [|l' r IH]; intros l.
  - cbn. now rewrite app_nil_r.
  - change (layout width (l :: l' :: r))
      with (write_line width l ++ NEWLINE :: layout width (l' :: r)).
    rewrite (IH l'). reflexivity.
Qed.

Lemma written_head (width d : nat) (t : pystr) (r : list line) :
  flat_map (fun l => NEWLINE :: write_line width l) ((d, t) :: r)
  = NEWLINE :: repeat (ch " ") (width * d) ++ continued width ((d, t) :: r).
Proof.
  cbn [flat_map continued]. unfold write_line. cbn [fst snd].
  rewrite <- app_comm_cons, <- app_assoc. reflexivity.
Qed.

Lemma written_suffix_last (width : nat) (sfx : pystr) (ls : list line) :
  ls <> [] ->
  flat_map (fun l => NEWLINE :: write_line width l) (suffix_last sfx ls)
  = flat_map (fun l => NEWLINE :: write_line width l) ls ++ sfx.
Proof.
  induction ls as [|[d t] r IH]; intros H; [contradiction|].
  destruct r as [|l' r'].
  - cbn. unfold write_line. cbn. now rewrite !app_nil_r, <- !app_assoc.
  - change (suffix_last sfx ((d, t) :: l' :: r')) with ((d, t) :: suffix_last sfx (l' :: r')).
    cbn [flat_map]. rewrite IH by discriminate. cbn [flat_map]. now rewrite <- !app_assoc.
Qed.

Lemma continued_prefix_first (width : nat) (p : pystr) (ls : list line) :
  ls <> [] -> continued width (prefix_first p ls) = p ++ continued width ls.
Proof.
  destruct ls as [|[d t] r]; intros H; [contradiction|]. cbn. now rewrite <- app_assoc.
Qed.

Section LayoutFacts.
Context {PF : PyFloat}.

Lemma lines_of_head (v : pyvalue) (depth : nat) :
  exists t r, lines_of depth v = (depth, t) :: r.
Proof.
  destruct v as [| [|] | | | | [|x l] | [|kv d]]; cbn [lines_of]; eauto.
Qed.

(** The members of a container as the encoder writes them, and as lines. *)
Lemma members_written {A} (width depth : nat) (enc : A -> pystr) (doc : A -> list line)
    (items : list A) :
  Forall (fun x => (exists t r, doc x = (depth, t) :: r) /\ enc x = continued width (doc x)) items ->
  items <> [] ->
  let nl := NEWLINE :: repeat (ch " ") (width * depth) in
  nl ++ iter_items enc (str "," ++ nl) true items
  = flat_map (fun l => NEWLINE :: write_line width l) (members (map doc items)).
Proof.
  intros Hall Hne nl.
  assert (Hrest : forall items,
             Forall (fun x => (exists t r, doc x = (depth, t) :: r)
                              /\ enc x = continued width (doc x)) items ->
             forall x, (exists t r, doc x = (depth, t) :: r) -> enc x = continued width (doc x) ->
             nl ++ enc x ++ iter_items enc (str "," ++ nl) false items
             = flat_map (fun l => NEWLINE :: write_line width l) (members (map doc (x :: items)))).
  { clear. intros items Hall. induction Hall as [|y items [Hy Ey] Hall IH]; intros x (t & r & Hx) Ex.
    - cbn [iter_items map members]. rewrite app_nil_r, Hx, written_head, Ex, Hx. reflexivity.
    - change (members (map doc (x :: y :: items)))
        with (suffix_last (str ",") (doc x) ++ members (map doc (y :: items))).
      rewrite flat_map_app, written_suffix_last by (rewrite Hx; discriminate).
      rewrite <- (IH y Hy Ey). cbn [iter_items]. rewrite Hx, written_head, Ex, Hx.
      subst nl. cbn [app]. rewrite <- !app_assoc. reflexivity. }
  destruct items as [|x items]; [contradiction|].
  inversion Hall as [|? ? [Hx Ex] Hall']; subst.
  cbn [iter_items app]. apply Hrest; assumption.
Qed.

Lemma newline_indent_spaces (n : Z) (level : nat) :
  newline_indent (Some (spaces n)) level = NEWLINE :: repeat (ch " ") (Z.to_nat n * level).
Proof. unfold newline_indent. now rewrite times_spaces. Qed.

(** What the encoder writes for a value is the text of its lines. *)
Lemma iterencode_continued (n : Z) (v : pyvalue) :
  forall level,
    _iterencode (Some (spaces n)) (str ",") (str ": ") v level
    = continued (Z.to_nat n) (lines_of level v).
Proof.
  pattern v. apply pyvalue_induction; clear v.
  - intros level. reflexivity.
  - intros [|] level; reflexivity.
  - intros z level. cbn [_iterencode lines_of continued flat_map]. now rewrite app_nil_r.
  - intros f level. cbn [_iterencode lines_of continued flat_map]. now rewrite app_nil_r.
  - intros v level. cbn [_iterencode lines_of continued flat_map]. now rewrite app_nil_r.
  - intros l IH level. destruct l as [|x l]; [reflexivity|].
    cbn [_iterencode lines_of inner_level continued].
    rewrite flat_map_app. cbn [flat_map write_line fst snd]. rewrite app_nil_r.
    rewrite <- (members_written (Z.to_nat n) (S level)
                  (fun value => _iterencode (Some (spaces n)) (str ",") (str ": ") value (S level))
                  (lines_of (S level)) (x :: l)).
    + rewrite !newline_indent_spaces. cbn [app str map list_ascii_of_string].
      rewrite <- !app_assoc. reflexivity.
    + eapply Forall_impl; [|exact IH]. intros y Hy. split; [apply lines_of_head|apply Hy].
    + discriminate.
  - intros d IH level. destruct d as [|kv d]; [reflexivity|].
    cbn [_iterencode lines_of inner_level continued].
    rewrite flat_map_app. cbn [flat_map write_line fst snd]. rewrite app_nil_r.
    rewrite <- (members_written (Z.to_nat n) (S level)
                  (fun '(key, value) =>
                     encode_basestring key ++ str ": "
                       ++ _iterencode (Some (spaces n)) (str ",") (str ": ") value (S level))
                  (fun '(key, value) =>
                     prefix_first (encode_basestring key ++ str ": ") (lines_of (S level) value))
                  (kv :: d)).
    + rewrite !newline_indent_spaces. cbn [app str map list_ascii_of_string].
      rewrite <- !app_assoc. reflexivity.
    + eapply Forall_impl; [|exact IH]. intros [k y] Hy. cbn [snd] in Hy.
      destruct (lines_of_head y (S level)) as (t & r & Hl). split.
      * rewrite Hl. cbn. eauto.
      * rewrite continued_prefix_first by (rewrite Hl; discriminate).
        rewrite Hy, <- app_assoc. reflexivity.
    + discriminate.
Qed.

(** [json.dumps] with an indent writes the lines of the value, each
    indented by the indent width times its depth. *)
Lemma dumps_layout (n : Z) (v : pyvalue) :
  dumps v (Some n) = layout (Z.to_nat n) (lines_of O v).
Proof.
  assert (H : _iterencode (Some (spaces n)) (str ",") (str ": ") v O
              = layout (Z.to_nat n) (lines_of O v)).
  { rewrite iterencode_continued.
    destruct (lines_of_head v O) as (t & r & ->).
    rewrite layout_cons. unfold write_line. cbn [fst snd continued].
    now rewrite Nat.mul_0_r. }
  unfold dumps. cbn [option_map]. destruct v; exact H.
Qed.

Lemma escape_char_literal (c : Z) : 32 <= c -> c <> DQUOTE -> c <> BACKSLASH -> escape_char c = [c].
Proof.
  intros H Hq Hb. unfold escape_char, is_control.
  repeat match goal with
         | |- (if ?x =? ?y then _ else _) = _ => destruct (Z.eqb_spec x y) as [->|_]
         end; try reflexivity; try contradiction; try (cbv in H; now destruct H).
  replace (c <=? 31) with false by (symmetry; apply Z.leb_gt; lia).
  now rewrite andb_false_r.
Qed.

Lemma pystr_eqb_eq (a b : pystr) : pystr_eqb a b = true <-> a = b.
Proof. unfold pystr_eqb. destruct (list_eq_dec Z.eq_dec a b); split; congruence. Qed.

Lemma pystr_eqb_refl (a : pystr) : pystr_eqb a a = true.
Proof. now apply pystr_eqb_eq. Qed.

Lemma pystr_eqb_sym (a b : pystr) : pystr_eqb a b = pystr_eqb b a.
Proof.
  destruct (pystr_eqb a b) eqn:H1, (pystr_eqb b a) eqn:H2; try reflexivity.
  - apply pystr_eqb_eq in H1. subst. now rewrite pystr_eqb_refl in H2.
  - apply pystr_eqb_eq in H2. subst. now rewrite pystr_eqb_refl in H1.
Qed.

Lemma dict_setitem_keys (d : list (pystr * pyvalue)) (k : pystr) (v : pyvalue) :
  map fst (dict_setitem d k v) = add_key (map fst d) k.
Proof.
  unfold add_key. induction d as [|[k' v'] d IH]; [reflexivity|].
  cbn [dict_setitem map fst str_in existsb]. rewrite (pystr_eqb_sym k k').
  destruct (pystr_eqb k' k) eqn:Hk; cbn [orb map fst]; [reflexivity|].
  rewrite IH. unfold str_in. now destruct (existsb (pystr_eqb k) (map fst d)).
Qed.

(** [dict(pairs)] holds the keys in the order of their first occurrence. *)
Lemma dict_keys (pairs : list (pystr * pyvalue)) :
  map fst (dict pairs) = first_occurrences (map fst pairs).
Proof.
  unfold dict, first_occurrences.
  change (@nil pystr) with (map fst (@nil (pystr * pyvalue))) at 1.
  generalize (@nil (pystr * pyvalue)).
  induction pairs as [|[k v] pairs IH]; intros d; [reflexivity|].
  cbn [fold_left map fst snd]. rewrite IH, dict_setitem_keys. reflexivity.
Qed.

End LayoutFacts.

Section LayoutClaim.
Context {PF : PyFloat}.


End LayoutClaim.

Example lines_of_nested :
  lines_of (PF := literal_PyFloat) O
    (PyDict [(str "b", PyDict [(str "c", PyInt 1)]); (str "a", PyList [PyBool true; PyNone])])
  = [(0, str "{");
     (1, replace (str "'b': {") (str "'") [DQUOTE]);
     (2, replace (str "'c': 1") (str "'") [DQUOTE]);
     (1, str "},");
     (1, replace (str "'a': [") (str "'") [DQUOTE]);
     (2, str "true,");
     (2, str "null");
     (1, str "]");
     (0, str "}")]%nat.
Proof. reflexivity. Qed.

Example format_json_non_ascii :
  format_json (L := cpython_json (PF := literal_PyFloat))
    {| text := [DQUOTE; 233; 8364; 128512; DQUOTE]; indent := default_indent |}
  = Success [DQUOTE; 233; 8364; 128512; DQUOTE].
Proof. reflexivity. Qed.



(* ================================================================== *)
(** * Round trip: numbers *)

Lemma span_digits_app (l tail : pystr) :
  ends_value tail = true ->
  span_digits (l ++ tail) = (fst (span_digits l), snd (span_digits l) ++ tail).
Proof.
  intros Ht. induction l as [|c l IH]; cbn [app span_digits].
  - destruct tail as [|c t]; [reflexivity|]. cbn in Ht. cbn [span_digits fst snd app].
    replace (is_digit c) with false; [reflexivity|].
    unfold is_digit. rewrite !orb_true_iff, !Z.eqb_eq in Ht.
    destruct Ht as [[[-> | ->] | ->] | ->]; reflexivity.
  - destruct (is_digit c); [|reflexivity].
    rewrite IH. now destruct (span_digits l).
Qed.

Lemma span_digits_concat (l : pystr) :
  fst (span_digits l) ++ snd (span_digits l) = l.
Proof.
  induction l as [|c l IH]; [reflexivity|]. cbn [span_digits].
  destruct (is_digit c); [|reflexivity].
  destruct (span_digits l). cbn in *. now rewrite IH.
Qed.

Lemma span_digits_all (l : pystr) :
  fst (span_digits l) = l <-> forallb is_digit l = true.
Proof.
  induction l as [|c l IH]; [cbn; tauto|]. cbn [span_digits forallb].
  destruct (is_digit c); cbn [andb].
  - destruct (span_digits l) as [ds r]. cbn [fst] in *. rewrite <- IH. split; congruence.
  - split; discriminate.
Qed.

Lemma span_digits_digits (l : pystr) : forallb is_digit (fst (span_digits l)) = true.
Proof.
  induction l as [|c l IH]; [reflexivity|]. cbn [span_digits].
  destruct (is_digit c) eqn:Hc; [|reflexivity].
  destruct (span_digits l). cbn in *. now rewrite Hc.
Qed.

(** A run of digits followed by something that is no digit is matched whole. *)
Lemma span_digits_exact (ds x : pystr) :
  forallb is_digit ds = true ->
  match x with [] => True | c :: _ => is_digit c = false end ->
  span_digits (ds ++ x) = (ds, x).
Proof.
  intros Hd Hx. induction ds as [|c ds IH]; cbn [app span_digits].
  - destruct x as [|c x]; [reflexivity|]. cbv beta iota in Hx. cbn [span_digits].
    now rewrite Hx.
  - cbn in Hd. apply andb_prop in Hd as [Hc Hd]. now rewrite Hc, IH.
Qed.

Lemma not_digit_head (x : pystr) :
  number_stop x = true -> match x with [] => True | c :: _ => is_digit c = false end.
Proof.
  destruct x as [|c x]; [trivial|]. cbn. intros H.
  apply negb_true_iff in H. now repeat (apply orb_false_elim in H as [H _]).
Qed.

Lemma ends_value_stop (x : pystr) : ends_value x = true -> number_stop x = true.
Proof.
  destruct x as [|c x]; [trivial|]. cbn. intros H.
  rewrite !orb_true_iff, !Z.eqb_eq in H.
  destruct H as [[[-> | ->] | ->] | ->]; reflexivity.
Qed.

(** *** What [NUMBER_RE] matches has the shape of its groups *)

Lemma match_integer_sound (rest i r : pystr) :
  match_integer rest = Some (i, r) -> int_group i /\ rest = i ++ r.
Proof.
  unfold match_integer. intros H.
  assert (Hgen : forall sign r0, (sign = [] \/ sign = [ch "-"]) ->
             match r0 with
             | [] => None
             | c :: r' =>
                 if c =? ch "0" then Some (sign ++ [c], r')
                 else if is_digit c
                      then let '(ds, r'') := span_digits r' in Some (sign ++ c :: ds, r'')
                      else None
             end = Some (i, r) -> int_group i /\ sign ++ r0 = i ++ r).
  { intros sign r0 Hs H0. destruct r0 as [|c r']; [discriminate|].
    destruct (Z.eqb_spec c (ch "0")) as [->|Hc].
    - injection H0 as <- <-. split; [|now rewrite <- app_assoc].
      exists sign, (ch "0"), []. repeat split; auto.
    - destruct (is_digit c) eqn:Hd; [|discriminate].
      pose proof (span_digits_concat r') as Hcat. pose proof (span_digits_digits r') as Hdig.
      destruct (span_digits r') as [ds r'']. cbn [fst snd] in *.
      injection H0 as <- <-. split.
      + exists sign, c, ds. repeat split; auto. intros ->. contradiction.
      + rewrite <- app_assoc. cbn. now rewrite Hcat. }
  destruct rest as [|c r']; [discriminate|].
  destruct (Z.eqb_spec c (ch "-")) as [->|Hc].
  - apply (Hgen [ch "-"] r'); [now right|exact H].
  - apply (Hgen [] (c :: r')); [now left|exact H].
Qed.

Lemma match_frac_sound (rest : pystr) :
  opt_group frac_group (fst (match_frac rest))
  /\ rest = or_empty (fst (match_frac rest)) ++ snd (match_frac rest).
Proof.
  unfold match_frac. destruct rest as [|c rest']; [cbn; auto|].
  destruct (Z.eqb_spec c (ch ".")) as [->|Hc]; [|cbn; auto].
  pose proof (span_digits_concat rest') as Hcat. pose proof (span_digits_digits rest') as Hdig.
  destruct (span_digits rest') as [[|d ds] r]; cbn [fst snd] in *; [cbn; auto|].
  split.
  - exists d, ds. auto.
  - cbn [or_empty app]. now rewrite <- Hcat.
Qed.

Lemma match_exp_sound (rest : pystr) :
  opt_group exp_group (fst (match_exp rest))
  /\ rest = or_empty (fst (match_exp rest)) ++ snd (match_exp rest).
Proof.
  unfold match_exp. destruct rest as [|c rest']; [cbn; auto|].
  destruct ((c =? ch "e") || (c =? ch "E")) eqn:Hc; [|cbn; auto].
  assert (Hc' : c = ch "e" \/ c = ch "E")
    by (apply orb_prop in Hc; rewrite !Z.eqb_eq in Hc; exact Hc).
  assert (Hgen : forall sign r1, (sign = [] \/ sign = [ch "-"] \/ sign = [ch "+"]) ->
             sign ++ r1 = rest' ->
             let res := (let (ds, r2) := span_digits r1 in
                         match ds with
                         | [] => (None, c :: rest')
                         | _ :: _ => (Some (c :: sign ++ ds), r2)
                         end) in
             opt_group exp_group (fst res) /\ c :: rest' = or_empty (fst res) ++ snd res).
  { intros sign r1 Hs Hr.
    pose proof (span_digits_concat r1) as Hcat. pose proof (span_digits_digits r1) as Hdig.
    destruct (span_digits r1) as [[|d ds] r2]; cbn [fst snd] in *; [cbn; auto|].
    cbn zeta. cbn [fst snd]. split.
    - exists c, sign, d, ds. auto.
    - cbn [or_empty app]. rewrite <- Hr, <- Hcat, <- app_assoc. reflexivity. }
  destruct rest' as [|g r']; [apply (Hgen [] []); auto|].
  destruct ((g =? ch "-") || (g =? ch "+")) eqn:Hg.
  - apply orb_prop in Hg. rewrite !Z.eqb_eq in Hg.
    apply (Hgen [g] r'); [destruct Hg as [-> | ->]; auto|reflexivity].
  - apply (Hgen [] (g :: r')); auto.
Qed.

Lemma match_number_sound (rest i r : pystr) (f e : option pystr) :
  match_number rest = Some (i, f, e, r) ->
  int_group i /\ opt_group frac_group f /\ opt_group exp_group e
  /\ rest = i ++ or_empty f ++ or_empty e ++ r.
Proof.
  unfold match_number. intros H.
  destruct (match_integer rest) as [[i' r1]|] eqn:Hi; [|discriminate].
  apply match_integer_sound in Hi as [Hi ->].
  pose proof (match_frac_sound r1) as [Hf Hf'].
  destruct (match_frac r1) as [f' r2]. cbn [fst snd] in *.
  pose proof (match_exp_sound r2) as [He He'].
  destruct (match_exp r2) as [e' r3]. cbn [fst snd] in *.
  injection H as <- <- <- <-. repeat split; auto.
  rewrite Hf' at 1. rewrite He' at 1. reflexivity.
Qed.

(** *** Text of that shape is matched whole *)

Lemma match_integer_complete (i x : pystr) :
  int_group i -> match x with [] => True | c :: _ => is_digit c = false end ->
  match_integer (i ++ x) = Some (i, x).
Proof.
  intros (sign & d & ds & -> & Hs & Hd & H0 & Hds) Hx.
  assert (Hbody : forall sg,
             (if d =? ch "0" then Some (sg ++ [d], ds ++ x)
              else if is_digit d
                   then let '(ds', r'') := span_digits (ds ++ x) in Some (sg ++ d :: ds', r'')
                   else None) = Some (sg ++ d :: ds, x)).
  { intros sg. destruct (Z.eqb_spec d (ch "0")) as [Hz|Hz].
    - now rewrite (H0 Hz).
    - now rewrite Hd, span_digits_exact. }
  assert (Hminus : (d =? ch "-") = false).
  { destruct (Z.eqb_spec d (ch "-")) as [->|]; [discriminate Hd|reflexivity]. }
  unfold match_integer. destruct Hs as [-> | ->]; cbn [app].
  - rewrite Hminus. apply (Hbody []).
  - rewrite Z.eqb_refl. apply (Hbody [ch "-"]).
Qed.

Lemma match_frac_some (f x : pystr) :
  frac_group f -> match x with [] => True | c :: _ => is_digit c = false end ->
  match_frac (f ++ x) = (Some f, x).
Proof.
  intros (d & ds & -> & Hd) Hx. unfold match_frac. cbn [app]. rewrite Z.eqb_refl.
  change (d :: ds ++ x) with ((d :: ds) ++ x). now rewrite span_digits_exact.
Qed.

Lemma match_frac_none (x : pystr) :
  match x with [] => True | c :: _ => c <> ch "." end -> match_frac x = (None, x).
Proof.
  intros Hx. unfold match_frac. destruct x as [|c x]; [reflexivity|].
  destruct (Z.eqb_spec c (ch ".")); [contradiction|reflexivity].
Qed.

Lemma match_exp_some (e x : pystr) :
  exp_group e -> match x with [] => True | c :: _ => is_digit c = false end ->
  match_exp (e ++ x) = (Some e, x).
Proof.
  intros (c & sign & d & ds & -> & Hc & Hs & Hd) Hx. unfold match_exp. cbn [app].
  replace ((c =? ch "e") || (c =? ch "E")) with true
    by (destruct Hc as [-> | ->]; reflexivity).
  assert (Hspan : span_digits ((d :: ds) ++ x) = (d :: ds, x)) by now apply span_digits_exact.
  destruct Hs as [-> | [-> | ->]]; cbn [app].
  - replace ((d =? ch "-") || (d =? ch "+")) with false.
    + change (d :: ds ++ x) with ((d :: ds) ++ x). now rewrite Hspan.
    + cbn in Hd. apply andb_prop in Hd as [Hd _].
      destruct (Z.eqb_spec d (ch "-")) as [->|]; [discriminate Hd|].
      destruct (Z.eqb_spec d (ch "+")) as [->|]; [discriminate Hd|reflexivity].
  - cbn [Z.eqb orb]. change (d :: ds ++ x) with ((d :: ds) ++ x).
    replace ((ch "-" =? ch "-") || (ch "-" =? ch "+")) with true by reflexivity.
    now rewrite Hspan.
  - change (d :: ds ++ x) with ((d :: ds) ++ x).
    replace ((ch "+" =? ch "-") || (ch "+" =? ch "+")) with true by reflexivity.
    now rewrite Hspan.
Qed.

Lemma match_exp_none (x : pystr) :
  match x with [] => True | c :: _ => c <> ch "e" /\ c <> ch "E" end -> match_exp x = (None, x).
Proof.
  intros Hx. unfold match_exp. destruct x as [|c x]; [reflexivity|]. destruct Hx as [H1 H2].
  destruct (Z.eqb_spec c (ch "e")); [contradiction|].
  destruct (Z.eqb_spec c (ch "E")); [contradiction|reflexivity].
Qed.

Lemma group_heads (f e : option pystr) (x : pystr) :
  opt_group frac_group f -> opt_group exp_group e -> number_stop x = true ->
  match or_empty f ++ or_empty e ++ x with [] => True | c :: _ => is_digit c = false end
  /\ match or_empty e ++ x with [] => True | c :: _ => is_digit c = false end
  /\ match or_empty e ++ x with [] => True | c :: _ => c <> ch "." end
  /\ match x with [] => True | c :: _ => is_digit c = false end
  /\ match x with [] => True | c :: _ => c <> ch "e" /\ c <> ch "E" end.
Proof.
  intros Hf He Hx.
  assert (Hx1 : match x with [] => True | c :: _ => is_digit c = false end)
    by now apply not_digit_head.
  assert (Hx2 : match x with [] => True | c :: _ => c <> ch "." end).
  { destruct x as [|c x]; [trivial|]. cbn in Hx. apply negb_true_iff in Hx.
    apply orb_false_elim in Hx as [Hx _]. apply orb_false_elim in Hx as [Hx _].
    apply orb_false_elim in Hx as [_ Hx]. intros ->. discriminate Hx. }
  assert (Hx3 : match x with [] => True | c :: _ => c <> ch "e" /\ c <> ch "E" end).
  { destruct x as [|c x]; [trivial|]. cbn in Hx. apply negb_true_iff in Hx.
    apply orb_false_elim in Hx as [Hx HE]. apply orb_false_elim in Hx as [_ He'].
    split; intros ->; discriminate. }
  assert (He1 : match or_empty e ++ x with [] => True | c :: _ => is_digit c = false end).
  { destruct e as [e|]; [|exact Hx1].
    destruct He as (c & sign & d & ds & -> & [-> | ->] & _); reflexivity. }
  assert (He2 : match or_empty e ++ x with [] => True | c :: _ => c <> ch "." end).
  { destruct e as [e|]; [|exact Hx2].
    destruct He as (c & sign & d & ds & -> & [-> | ->] & _); cbn; discriminate. }
  assert (Hf1 : match or_empty f ++ or_empty e ++ x with
                | [] => True
                | c :: _ => is_digit c = false
                end).
  { destruct f as [f|]; [|exact He1]. destruct Hf as (d & ds & -> & _). reflexivity. }
  repeat split; assumption.
Qed.

Lemma match_number_complete (i x : pystr) (f e : option pystr) :
  int_group i -> opt_group frac_group f -> opt_group exp_group e -> number_stop x = true ->
  match_number (i ++ or_empty f ++ or_empty e ++ x) = Some (i, f, e, x).
Proof.
  intros Hi Hf He Hx.
  destruct (group_heads f e x Hf He Hx) as (H1 & H2 & H3 & H4 & H5).
  unfold match_number. rewrite (match_integer_complete i _ Hi H1).
  assert (Hfrac : match_frac (or_empty f ++ or_empty e ++ x) = (f, or_empty e ++ x)).
  { destruct f as [f|]; [now apply match_frac_some|now apply match_frac_none]. }
  rewrite Hfrac.
  assert (Hexp : match_exp (or_empty e ++ x) = (e, x)).
  { destruct e as [e|]; [now apply match_exp_some|].
    apply match_exp_none. destruct x; [trivial|]. exact H5. }
  now rewrite Hexp.
Qed.

(** A number matched whole is matched the same way before anything that
    ends a value. *)
Lemma match_number_app (l tail i : pystr) (f e : option pystr) :
  match_number l = Some (i, f, e, []) -> ends_value tail = true ->
  match_number (l ++ tail) = Some (i, f, e, tail).
Proof.
  intros H Ht. apply match_number_sound in H as (Hi & Hf & He & ->).
  rewrite app_nil_r, <- !app_assoc.
  apply match_number_complete; auto. now apply ends_value_stop.
Qed.

(** The text [float()] is given is a float literal. *)
Lemma matched_float_literal (rest i r : pystr) (f e : option pystr) :
  match_number rest = Some (i, f, e, r) ->
  (f <> None \/ e <> None) ->
  is_float_literal (i ++ or_empty f ++ or_empty e) = true.
Proof.
  intros H Hfe. apply match_number_sound in H as (Hi & Hf & He & _).
  unfold is_float_literal.
  pose proof (match_number_complete i [] f e Hi Hf He eq_refl) as Hm.
  rewrite !app_nil_r in Hm. rewrite Hm.
  destruct f, e; try reflexivity. destruct Hfe; contradiction.
Qed.

Lemma float_literal_matched (lit : pystr) :
  is_float_literal lit = true ->
  exists i f e, match_number lit = Some (i, f, e, []) /\ lit = i ++ or_empty f ++ or_empty e
                /\ (f <> None \/ e <> None).
Proof.
  unfold is_float_literal. intros H.
  destruct (match_number lit) as [[[[i f] e] [|c r]]|] eqn:Hm; try discriminate.
  exists i, f, e. split; [reflexivity|].
  apply match_number_sound in Hm as (_ & _ & _ & Hl). rewrite !app_nil_r in Hl.
  split; [exact Hl|]. destruct f; [left; discriminate|]. destruct e; [right; discriminate|].
  discriminate H.
Qed.

(** *** Integers *)

Lemma uint_chars_digits (u : uint) : forallb is_digit (uint_chars u) = true.
Proof. induction u; cbn [uint_chars forallb]; try reflexivity; now rewrite IHu. Qed.

Lemma chars_uint_chars (u : uint) : chars_uint (uint_chars u) = u.
Proof. induction u; cbn [uint_chars chars_uint]; try reflexivity; now rewrite IHu. Qed.

Lemma pos_to_uint_head (p : positive) :
  match Pos.to_uint p with
  | Nil | D0 _ => False
  | _ => True
  end.
Proof.
  pose proof (DecimalPos.Unsigned.to_uint_nonzero p) as Hz.
  pose proof (DecimalPos.Unsigned.to_uint_nonnil p) as Hn.
  assert (Hu : unorm (Pos.to_uint p) = Pos.to_uint p).
  { rewrite <- (DecimalPos.Unsigned.to_of (Pos.to_uint p)), DecimalPos.Unsigned.of_to.
    reflexivity. }
  destruct (Pos.to_uint p) as [|u| | | | | | | | | ] eqn:E; try exact I.
  - now apply Hn.
  - rewrite unorm_D0 in Hu. unfold unorm in Hu.
    destruct (nzhead u) as [|u0| | | | | | | | | ] eqn:Hh; try discriminate Hu.
    + apply Hz. injection Hu as <-. reflexivity.
    + exact (nzhead_nonzero u u0 Hh).
Qed.

Lemma uint_chars_group (u : uint) :
  match u with Nil | D0 _ => False | _ => True end -> int_group (uint_chars u).
Proof.
  destruct u; try contradiction; intros _; cbn [uint_chars];
    match goal with
    | |- int_group (?d :: uint_chars ?u') =>
        exists [], d, (uint_chars u'); repeat split; auto using uint_chars_digits; discriminate
    end.
Qed.

Lemma int_repr_group (z : Z) : int_group (int_repr z).
Proof.
  unfold int_repr. destruct z as [|p|p]; cbn [Z.to_int].
  - exists [], (ch "0"), []. repeat split; auto.
  - apply uint_chars_group, pos_to_uint_head.
  - destruct (uint_chars_group _ (pos_to_uint_head p))
      as (sign & d & ds & Hu & _ & Hd & H0 & Hds).
    pose proof (pos_to_uint_head p) as Hh.
    destruct (Pos.to_uint p) eqn:E; try contradiction; cbn [uint_chars] in *;
      match goal with
      | |- int_group (_ :: ?d :: uint_chars ?u') =>
          exists [ch "-"], d, (uint_chars u'); repeat split; auto using uint_chars_digits;
          discriminate
      end.
Qed.

Lemma int_of_str_repr (z : Z) : int_of_str (int_repr z) = z.
Proof.
  rewrite <- (DecimalZ.of_to z) at 2. unfold int_repr, int_of_str.
  destruct z as [|p|p]; cbn [Z.to_int]; [reflexivity| |].
  - pose proof (pos_to_uint_head p) as Hh. rewrite <- (chars_uint_chars (Pos.to_uint p)) at 2.
    destruct (Pos.to_uint p); try contradiction; reflexivity.
  - cbn [Z.eqb]. replace (ch "-" =? ch "-") with true by reflexivity.
    now rewrite chars_uint_chars.
Qed.

(** An integer written by [int.__repr__] is read back by the scanner. *)
Lemma match_number_int (z : Z) (tail : pystr) :
  ends_value tail = true ->
  match_number (int_repr z ++ tail) = Some (int_repr z, None, None, tail).
Proof.
  intros Ht.
  apply (match_number_complete (int_repr z) tail None None);
    auto using int_repr_group, ends_value_stop; exact I.
Qed.

(* ================================================================== *)
(** * Round trip: strings *)

Lemma control_cases (c : Z) :
  is_control c = true ->
  In c [0; 1; 2; 3; 4; 5; 6; 7; 8; 9; 10; 11; 12; 13; 14; 15; 16; 17; 18; 19; 20;
        21; 22; 23; 24; 25; 26; 27; 28; 29; 30; 31].
Proof.
  unfold is_control. intros H. apply andb_prop in H as [H1 H2].
  apply Z.leb_le in H1, H2. cbn [In].
  destruct c as [|p|p]; [auto| |lia].
  do 5 (try destruct p as [p|p|]); try lia; auto 40.
Qed.

Section StringRoundTrip.
Variable s : pystr.

(** One character written by the encoder is read back as that character. *)
Lemma scanstring_escape_char (c : Z) (begin : nat) (chunks : pystr) (end_ : nat) (tail : pystr) :
  exists end', scanstring_loop s begin chunks end_ (escape_char c ++ tail)
               = scanstring_loop s begin (chunks ++ [c]) end' tail.
Proof.
  unfold escape_char.
  destruct (Z.eqb_spec c BACKSLASH) as [->|Hb]; [eexists; reflexivity|].
  destruct (Z.eqb_spec c DQUOTE) as [->|Hq]; [eexists; reflexivity|].
  destruct (Z.eqb_spec c 8) as [->|H8]; [eexists; reflexivity|].
  destruct (Z.eqb_spec c 12) as [->|H12]; [eexists; reflexivity|].
  destruct (Z.eqb_spec c 10) as [->|H10]; [eexists; reflexivity|].
  destruct (Z.eqb_spec c 13) as [->|H13]; [eexists; reflexivity|].
  destruct (Z.eqb_spec c 9) as [->|H9]; [eexists; reflexivity|].
  destruct (is_control c) eqn:Hc.
  - apply control_cases in Hc. cbn [In] in Hc.
    repeat (destruct Hc as [<-|Hc]; [try contradiction; eexists; reflexivity|]).
    contradiction.
  - cbn [app scanstring_loop].
    destruct (Z.eqb_spec c DQUOTE); [contradiction|].
    destruct (Z.eqb_spec c BACKSLASH); [contradiction|].
    rewrite Hc. eexists; reflexivity.
Qed.

(** A string written by [encode_basestring] is read back by [scanstring]. *)
Lemma scanstring_loop_encoded (v : pystr) :
  forall begin chunks end_ rest,
    exists end',
      scanstring_loop s begin chunks end_ (flat_map escape_char v ++ DQUOTE :: rest)
      = Ok (chunks ++ v, end', rest).
Proof.
  induction v as [|c v IH]; intros begin chunks end_ rest.
  - cbn. rewrite app_nil_r. eauto.
  - cbn [flat_map]. rewrite <- app_assoc.
    destruct (scanstring_escape_char c begin chunks end_
                (flat_map escape_char v ++ DQUOTE :: rest)) as [e1 ->].
    destruct (IH begin (chunks ++ [c]) e1 rest) as [e2 ->].
    rewrite <- app_assoc. eauto.
Qed.

Lemma scanstring_encoded (v : pystr) (end_ : nat) (rest : pystr) :
  exists end',
    scanstring s end_ (flat_map escape_char v ++ DQUOTE :: rest) = Ok (v, end', rest).
Proof. apply (scanstring_loop_encoded v (end_ - 1) [] end_ rest). Qed.

End StringRoundTrip.

(* ================================================================== *)
(** * Round trip: values *)

Lemma w_end_ws (ws : pystr) :
  forallb is_ws ws = true ->
  forall idx rest,
    match rest with [] => True | c :: _ => is_ws c = false end ->
    w_end idx (ws ++ rest) = ((idx + length ws)%nat, rest).
Proof.
  intros Hws. induction ws as [|c ws IH]; intros idx rest Hr; cbn [app length].
  - rewrite Nat.add_0_r. destruct rest as [|c r]; [reflexivity|]. cbn. now rewrite Hr.
  - cbn in Hws. apply andb_prop in Hws as [Hc Hws]. cbn [w_end]. rewrite Hc.
    rewrite (IH Hws (S idx) rest Hr). f_equal. lia.
Qed.

Lemma w_end_stay (idx : nat) (rest : pystr) :
  match rest with [] => True | c :: _ => is_ws c = false end ->
  w_end idx rest = (idx, rest).
Proof.
  intros H. pose proof (w_end_ws [] eq_refl idx rest H) as Hw. cbn in Hw.
  now rewrite Nat.add_0_r in Hw.
Qed.

Lemma starts_value_not_ws (c : Z) : starts_value c = true -> is_ws c = false.
Proof.
  unfold starts_value, is_digit, is_ws. intros H.
  repeat match goal with
         | |- context [?x =? ?y] => destruct (Z.eqb_spec x y) as [->|?]; try discriminate H
         end; reflexivity.
Qed.

Lemma starts_value_dispatch (c : Z) :
  starts_value c = true ->
  (c =? ch "]") = false /\ (c =? ch "}") = false /\ (c =? 65279) = false.
Proof.
  unfold starts_value, is_digit. intros H.
  repeat split;
    match goal with
    | |- (?x =? ?y) = false => destruct (Z.eqb_spec x y) as [->|?]; [discriminate H|reflexivity]
    end.
Qed.

Section RoundTripFuel.
Context {PF : PyFloat}.
Variable s : pystr.

Lemma scan_once_string (fuel idx : nat) (rest : pystr) :
  scan_once s (S fuel) idx (DQUOTE :: rest)
  = ('(v, end_, r') <- scanstring s (S idx) rest ;; Ok (PyStr v, end_, r')).
Proof. reflexivity. Qed.

Lemma scan_once_array (fuel idx : nat) (rest : pystr) :
  scan_once s (S fuel) idx (ch "[" :: rest) = JSONArray s (scan_once s fuel) (S idx) rest.
Proof. reflexivity. Qed.

Lemma scan_once_object (fuel idx : nat) (rest : pystr) :
  scan_once s (S fuel) idx (ch "{" :: rest) = JSONObject s (scan_once s fuel) (S idx) rest.
Proof. reflexivity. Qed.

(** A number matched whole, before something that ends a value, is what
    the scanner returns. *)
Lemma scan_once_number (fuel idx : nat) (l tail i : pystr) (f e : option pystr) :
  match_number l = Some (i, f, e, []) -> ends_value tail = true ->
  exists end_,
    scan_once s (S fuel) idx (l ++ tail)
    = Ok (match f, e with
          | None, None => PyInt (int_of_str i)
          | _, _ => PyFloat_ (float_of_literal (i ++ or_empty f ++ or_empty e))
          end, end_, tail).
Proof.
  intros Hm Ht.
  pose proof (match_number_app l tail i f e Hm Ht) as Happ.
  pose proof (match_number_sound _ _ _ _ _ Hm) as ((sign & d & ds & -> & Hs & Hd & _) & _ & _ & Hl).
  assert (Hhead : exists c r, l ++ tail = c :: r /\ (c = ch "-" \/ is_digit c = true)).
  { rewrite Hl. destruct Hs as [-> | ->]; cbn [app]; eauto 6. }
  destruct Hhead as (c & r & Hcr & Hc). rewrite Hcr in *.
  cbn [scan_once].
  assert (Hq : (c =? DQUOTE) = false /\ (c =? ch "{") = false /\ (c =? ch "[") = false
               /\ (110 =? c) = false /\ (116 =? c) = false /\ (102 =? c) = false).
  { repeat split;
      match goal with
      | |- (?x =? ?y) = false =>
          destruct (Z.eqb_spec x y) as [Heq|?]; [|reflexivity];
          first [rewrite Heq in Hc | rewrite <- Heq in Hc];
          cbv in Hc; destruct Hc as [Hc|Hc]; discriminate Hc
      end. }
  destruct Hq as (-> & -> & -> & Hn & Ht' & Hf).
  cbn [startswith str map list_ascii_of_string]. 
  change (ch "n") with 110. change (ch "t") with 116. change (ch "f") with 102.
  rewrite Hn, Ht', Hf. cbn [andb]. rewrite Happ.
  destruct f, e; eauto.
Qed.

End RoundTripFuel.

Lemma is_float_literal_head (l i : pystr) (f e : option pystr) :
  match_number l = Some (i, f, e, []) -> exists c r, l = c :: r /\ starts_value c = true.
Proof.
  intros H. apply match_number_sound in H as ((sign & d & ds & -> & Hs & Hd & _) & _ & _ & ->).
  unfold starts_value. destruct Hs as [-> | ->]; cbn [app]; eexists; eexists; split;
    try reflexivity.
  rewrite Hd. apply orb_true_r.
Qed.

Lemma iter_items_array_rest {PF : PyFloat} (enc : pyvalue -> pystr) (sep_ws : pystr)
    (items : list pyvalue) (close : pystr) :
  iter_items enc (ch "," :: sep_ws) false items ++ close = array_rest enc sep_ws items close.
Proof.
  induction items as [|y r IH]; [reflexivity|].
  cbn [iter_items array_rest]. rewrite <- IH.
  repeat (rewrite <- app_assoc || rewrite <- app_comm_cons). reflexivity.
Qed.

Lemma iter_items_object_rest {PF : PyFloat} (enc : pyvalue -> pystr) (sep_ws : pystr)
    (items : list (pystr * pyvalue)) (close : pystr) :
  iter_items (fun '(key, value) => encode_basestring key ++ str ": " ++ enc value)
    (ch "," :: sep_ws) false items ++ close
  = object_rest enc sep_ws items close.
Proof.
  induction items as [|[k y] r IH]; [reflexivity|].
  cbn [iter_items object_rest]. rewrite <- IH. unfold member_text, encode_basestring.
  cbn [str map list_ascii_of_string].
  repeat (rewrite <- app_assoc || rewrite <- app_comm_cons). reflexivity.
Qed.

Section RoundTrip.
Context {PF : PyFloat} {LAWS : PyFloatLaws PF}.
Variable s : pystr.
Variable _indent : option pystr.
Variable isep_tail : pystr.
Hypothesis indent_ws : forall i, _indent = Some i -> forallb is_ws i = true.
Hypothesis isep_ws : forallb is_ws isep_tail = true.

Local Abbreviation enc := (_iterencode _indent (ch "," :: isep_tail) (str ": ")).

Lemma newline_indent_ws (level : nat) : forallb is_ws (newline_indent _indent level) = true.
Proof.
  unfold newline_indent. destruct _indent as [i|] eqn:E; [|reflexivity].
  cbn [forallb]. change (is_ws NEWLINE) with true. cbn [andb].
  unfold times. induction level as [|level IH]; [reflexivity|].
  cbn [repeat concat]. rewrite forallb_app, IH, (indent_ws i eq_refl). reflexivity.
Qed.

Lemma newline_indent_ends (level : nat) (close : Z) (tail : pystr) :
  close = ch "]" \/ close = ch "}" ->
  ends_value (newline_indent _indent level ++ close :: tail) = true.
Proof.
  intros Hc. unfold newline_indent. destruct _indent; [reflexivity|].
  destruct Hc as [-> | ->]; reflexivity.
Qed.

(** The forms of [floatstr], and what each is read back as. *)
Lemma floatstr_cases (f : float) :
  float_ok f ->
  (floatstr f = str "NaN" /\ f = float_nan)
  \/ (floatstr f = str "Infinity" /\ f = float_inf)
  \/ (floatstr f = str "-Infinity" /\ f = float_neginf)
  \/ exists i fr ex,
       match_number (floatstr f) = Some (i, fr, ex, [])
       /\ (fr <> None \/ ex <> None)
       /\ float_of_literal (i ++ or_empty fr ++ or_empty ex) = f.
Proof.
  intros [-> | [-> | [-> | (lit & Hlit & ->)]]]; unfold floatstr.
  - left. now rewrite nan_not_eq.
  - right; left. now rewrite inf_eq.
  - right; right; left. now rewrite neginf_eq, neginf_not_inf.
  - rewrite (literal_not_nan lit Hlit). cbn [negb].
    destruct (float_eqb (float_of_literal lit) float_inf) eqn:Ei.
    { right; left. split; [reflexivity|]. now apply literal_inf. }
    destruct (float_eqb (float_of_literal lit) float_neginf) eqn:En.
    { right; right; left. split; [reflexivity|]. now apply literal_neginf. }
    right; right; right.
    destruct (repr_literal lit Hlit Ei En) as [Hr Hback].
    destruct (float_literal_matched _ Hr) as (i & fr & ex & Hm & Hl & Hfe).
    exists i, fr, ex. repeat split; auto. now rewrite <- Hl.
Qed.

Lemma floatstr_reads (f : float) (fuel idx : nat) (tail : pystr) :
  float_ok f -> ends_value tail = true ->
  exists end_, scan_once s (S fuel) idx (floatstr f ++ tail) = Ok (PyFloat_ f, end_, tail).
Proof.
  intros Hf Ht.
  destruct (floatstr_cases f Hf)
    as [[-> ->] | [[-> ->] | [[-> ->] | (i & fr & ex & Hm & Hfe & Hback)]]].
  - eexists. reflexivity.
  - eexists. reflexivity.
  - eexists. reflexivity.
  - destruct (scan_once_number s fuel idx _ tail i fr ex Hm Ht) as [e He].
    exists e. rewrite He, Hback.
    destruct fr, ex; try reflexivity. destruct Hfe; contradiction.
Qed.

(** The text of a value starts with a character that starts a value. *)
Lemma enc_head (v : pyvalue) (level : nat) :
  wf v -> exists c r, enc v level = c :: r /\ starts_value c = true.
Proof.
  intros Hv. destruct v as [| [|] | z | f | v | [|x l] | [|kv d]]; cbn [_iterencode];
    try (eexists; eexists; split; reflexivity).
  - destruct (int_repr_group z) as (sign & d & ds & -> & Hs & Hd & _).
    unfold starts_value. destruct Hs as [-> | ->]; cbn [app]; eexists; eexists; split;
      try reflexivity.
    rewrite Hd. apply orb_true_r.
  - inversion Hv as [| | |f' Hf| | |]; subst.
    destruct (floatstr_cases f Hf)
      as [[-> _] | [[-> _] | [[-> _] | (i & fr & ex & Hm & _)]]];
      try (eexists; eexists; split; reflexivity).
    now apply is_float_literal_head in Hm.
Qed.

Lemma enc_head_ws (v : pyvalue) (level : nat) (rest : pystr) :
  wf v -> match enc v level ++ rest with [] => True | c :: _ => is_ws c = false end.
Proof.
  intros Hv. destruct (enc_head v level Hv) as (c & r & -> & Hc).
  cbn [app]. now apply starts_value_not_ws.
Qed.

Local Abbreviation reads_back := (reads_back s _indent isep_tail).

Section Loops.
Variable fuel : nat.
Variable level' level : nat.
Variable tail : pystr.

Local Abbreviation sep_ws := (isep_tail ++ newline_indent _indent level').

Lemma sep_ws_ws : forallb is_ws sep_ws = true.
Proof. now rewrite forallb_app, isep_ws, newline_indent_ws. Qed.

Lemma array_rest_ends (items : list pyvalue) :
  ends_value
    (array_rest (fun v => enc v level') sep_ws items
       (newline_indent _indent level ++ ch "]" :: tail)) = true.
Proof. destruct items; [apply newline_indent_ends; auto|reflexivity]. Qed.

Lemma object_rest_ends (items : list (pystr * pyvalue)) :
  ends_value
    (object_rest (fun v => enc v level') sep_ws items
       (newline_indent _indent level ++ ch "}" :: tail)) = true.
Proof. destruct items as [|[k y] r]; [apply newline_indent_ends; auto|reflexivity]. Qed.

Lemma JSONArray_loop_reads (items : list pyvalue) :
  Forall (fun x => wf x /\ reads_back fuel x) items ->
  forall x, wf x -> reads_back fuel x ->
  forall n values idx, (length items < n)%nat ->
    exists end_,
      JSONArray_loop s (scan_once s fuel) n values idx
        (enc x level'
           ++ array_rest (fun v => enc v level') sep_ws items
                (newline_indent _indent level ++ ch "]" :: tail))
      = Ok (PyList (values ++ x :: items), end_, tail).
Proof.
  intros Hall. induction Hall as [|y items [Hy Ry] Hall IH];
    intros x Hx Rx n values idx Hn; (destruct n as [|n]; [cbn in Hn; lia|]);
    cbn [JSONArray_loop].
  - destruct (Rx level' idx _ (array_rest_ends [])) as [e1 H1].
    rewrite H1. cbn [expecting_value bind array_rest].
    rewrite (w_end_ws _ (newline_indent_ws level) e1 (ch "]" :: tail) eq_refl).
    cbv beta iota. change (ch "]" =? ch "]") with true. cbv beta iota. eauto.
  - destruct (Rx level' idx _ (array_rest_ends (y :: items))) as [e1 H1].
    rewrite H1. cbn [expecting_value bind array_rest].
    rewrite (w_end_stay e1 (ch "," :: _) eq_refl).
    cbv beta iota. change (ch "," =? ch "]") with false. change (ch "," =? ch ",") with true.
    cbv beta iota.
    rewrite (w_end_ws _ sep_ws_ws (S e1) _ (enc_head_ws y level' _ Hy)).
    cbv beta iota.
    destruct (IH y Hy Ry n (values ++ [x]) (S e1 + length sep_ws)%nat ltac:(cbn in Hn; lia))
      as [e2 H2].
    rewrite H2, <- app_assoc. eauto.
Qed.

Lemma JSONObject_loop_reads (items : list (pystr * pyvalue)) :
  Forall (fun kv => wf (snd kv) /\ reads_back fuel (snd kv)) items ->
  forall k x, wf x -> reads_back fuel x ->
  forall n pairs idx, (length items < n)%nat ->
    exists end_,
      JSONObject_loop s (scan_once s fuel) n pairs idx
        (member_text (fun v => enc v level') k x
           (object_rest (fun v => enc v level') sep_ws items
              (newline_indent _indent level ++ ch "}" :: tail)))
      = Ok (PyDict (dict (pairs ++ (k, x) :: items)), end_, tail).
Proof.
  intros Hall. induction Hall as [|[k' y] items [Hy Ry] Hall IH];
    intros k x Hx Rx n pairs idx Hn; (destruct n as [|n]; [cbn in Hn; lia|]);
    cbn [JSONObject_loop]; unfold member_text at 1.
  - destruct (scanstring_encoded s k idx
                (ch ":" :: ch " " :: enc x level'
                   ++ object_rest (fun v => enc v level') sep_ws []
                        (newline_indent _indent level ++ ch "}" :: tail))) as [e1 H1].
    rewrite H1. cbn [bind].
    rewrite (w_end_stay e1 (ch ":" :: _) eq_refl).
    cbv beta iota. change (ch ":" =? ch ":") with true. cbv beta iota.
    cbn [w_end]. change (is_ws (ch " ")) with true. cbv beta iota.
    rewrite (w_end_stay (S (S e1)) _ (enc_head_ws x level' _ Hx)).
    cbv beta iota.
    destruct (Rx level' (S (S e1)) _ (object_rest_ends [])) as [e5 H5].
    rewrite H5. cbn [expecting_value bind object_rest].
    rewrite (w_end_ws _ (newline_indent_ws level) e5 (ch "}" :: tail) eq_refl).
    cbv beta iota. change (ch "}" =? ch "}") with true. cbv beta iota. eauto.
  - destruct (scanstring_encoded s k idx
                (ch ":" :: ch " " :: enc x level'
                   ++ object_rest (fun v => enc v level') sep_ws ((k', y) :: items)
                        (newline_indent _indent level ++ ch "}" :: tail))) as [e1 H1].
    rewrite H1. cbn [bind].
    rewrite (w_end_stay e1 (ch ":" :: _) eq_refl).
    cbv beta iota. change (ch ":" =? ch ":") with true. cbv beta iota.
    cbn [w_end]. change (is_ws (ch " ")) with true. cbv beta iota.
    rewrite (w_end_stay (S (S e1)) _ (enc_head_ws x level' _ Hx)).
    cbv beta iota.
    destruct (Rx level' (S (S e1)) _ (object_rest_ends ((k', y) :: items)))
      as [e5 H5].
    rewrite H5. cbn [expecting_value bind object_rest].
    rewrite (w_end_stay e5 (ch "," :: _) eq_refl).
    cbv beta iota. change (ch "," =? ch "}") with false. change (ch "," =? ch ",") with true.
    cbv beta iota.
    rewrite (w_end_ws _ sep_ws_ws (S e5) (DQUOTE :: _) eq_refl).
    cbv beta iota. change (DQUOTE =? DQUOTE) with true. cbv beta iota.
    cbn [snd] in *.
    destruct (IH k' y Hy Ry n (pairs ++ [(k, x)]) (S (S e5 + length sep_ws))
                ltac:(cbn in Hn; lia)) as [e9 H9].
    rewrite H9, <- app_assoc. eauto.
Qed.

End Loops.

Lemma array_rest_length (f : pyvalue -> pystr) (ws : pystr) (items : list pyvalue)
    (close : pystr) :
  (length items + length close <= length (array_rest f ws items close))%nat.
Proof.
  induction items as [|y r IH]; cbn [array_rest length]; [lia|].
  rewrite !length_app. lia.
Qed.

Lemma object_rest_length (f : pyvalue -> pystr) (ws : pystr) (items : list (pystr * pyvalue))
    (close : pystr) :
  (length items + length close <= length (object_rest f ws items close))%nat.
Proof.
  induction items as [|[k y] r IH]; cbn [object_rest length]; [lia|].
  unfold member_text. repeat (rewrite length_app || cbn [length]). lia.
Qed.

Lemma dict_setitem_new (d : list (pystr * pyvalue)) (k : pystr) (v : pyvalue) :
  ~ In k (map fst d) -> dict_setitem d k v = d ++ [(k, v)].
Proof.
  induction d as [|[k' v'] d IH]; intros H; [reflexivity|].
  cbn [dict_setitem app]. destruct (pystr_eqb k' k) eqn:Hk.
  - apply pystr_eqb_eq in Hk. exfalso. apply H. now left.
  - rewrite IH; [reflexivity|]. intros Hin. apply H. now right.
Qed.

(** [dict(pairs)] is [pairs] when no key occurs twice. *)
Lemma dict_nodup (d : list (pystr * pyvalue)) : NoDup (map fst d) -> dict d = d.
Proof.
  unfold dict.
  assert (Hgen : forall d acc, NoDup (map fst (acc ++ d)) ->
             fold_left (fun d kv => dict_setitem d (fst kv) (snd kv)) d acc = acc ++ d).
  { clear d. induction d as [|[k v] d IH]; intros acc H; cbn [fold_left fst snd].
    - now rewrite app_nil_r.
    - rewrite dict_setitem_new.
      + rewrite IH; rewrite <- app_assoc; [reflexivity|exact H].
      + rewrite map_app in H. apply NoDup_remove_2 in H.
        intros Hin. apply H. apply in_or_app. now left. }
  intros H. apply (Hgen d []). exact H.
Qed.

Lemma depth_members (l : list pyvalue) (fuel : nat) :
  (depth (PyList l) < S fuel)%nat -> Forall (fun x => (depth x < S fuel)%nat /\ (depth x < fuel)%nat) l.
Proof.
  cbn [depth]. intros H. apply Forall_forall. intros x Hx.
  assert (Hle : (list_max (map depth l) <= list_max (map depth l))%nat) by lia.
  apply list_max_le in Hle. rewrite Forall_forall in Hle.
  specialize (Hle (depth x) (in_map depth l x Hx)). lia.
Qed.

Lemma depth_items (d : list (pystr * pyvalue)) (fuel : nat) :
  (depth (PyDict d) < S fuel)%nat -> Forall (fun kv => (depth (snd kv) < fuel)%nat) d.
Proof.
  cbn [depth]. intros H. apply Forall_forall. intros [k x] Hx.
  assert (Hle : (list_max (map (fun '(_, x) => depth x) d)
                 <= list_max (map (fun '(_, x) => depth x) d))%nat) by lia.
  apply list_max_le in Hle. rewrite Forall_forall in Hle.
  specialize (Hle (depth x) (in_map (fun '(_, x) => depth x) d (k, x) Hx)). cbn [snd]. lia.
Qed.

(** Every well-formed value is read back from the text [json.dumps]
    writes for it. *)
Lemma value_reads_back (v : pyvalue) :
  wf v -> forall fuel, (depth v < fuel)%nat -> reads_back fuel v.
Proof.
  pattern v. apply pyvalue_induction; clear v.
  - intros _ [|fuel] Hd level idx tail Ht; [lia|]. eexists. reflexivity.
  - intros [|] _ [|fuel] Hd level idx tail Ht; try lia; eexists; reflexivity.
  - intros z _ [|fuel] Hd level idx tail Ht; [lia|]. cbn [_iterencode].
    pose proof (match_number_int z [] eq_refl) as Hm. rewrite app_nil_r in Hm.
    destruct (scan_once_number s fuel idx _ tail _ _ _ Hm Ht) as [e He].
    exists e. now rewrite He, int_of_str_repr.
  - intros f Hf [|fuel] Hd level idx tail Ht; [lia|]. cbn [_iterencode].
    inversion Hf; subst. now apply floatstr_reads.
  - intros v _ [|fuel] Hd level idx tail Ht; [lia|]. cbn [_iterencode].
    unfold encode_basestring. rewrite <- app_comm_cons, <- app_assoc. cbn [app].
    rewrite scan_once_string.
    destruct (scanstring_encoded s v (S idx) tail) as [e ->]. cbn [bind]. eauto.
  - intros l IH Hwf [|fuel] Hd level idx tail Ht; [lia|].
    inversion Hwf as [| | | | |l' Hl|]; subst.
    destruct l as [|x items]; [eexists; reflexivity|].
    assert (Hall : Forall (fun x => wf x /\ reads_back fuel x) (x :: items)).
    { apply depth_members in Hd. rewrite Forall_forall in *.
      intros y Hy. split; [now apply Hl|]. apply IH; auto. now apply Hd. }
    inversion Hall as [|? ? [Hx Rx] Hitems]; subst.
    cbn [_iterencode iter_items app].
    rewrite <- ?app_comm_cons, scan_once_array.
    repeat (rewrite <- app_assoc || rewrite <- app_comm_cons).
    rewrite (iter_items_array_rest
               (fun value => enc value (inner_level _indent level))
               (isep_tail ++ newline_indent _indent (inner_level _indent level)) items).
    unfold JSONArray.
    rewrite (w_end_ws _ (newline_indent_ws _) (S idx) _ (enc_head_ws x _ _ Hx)).
    cbv beta iota.
    destruct (JSONArray_loop_reads fuel (inner_level _indent level) level tail items Hitems
                x Hx Rx
                (length (enc x (inner_level _indent level)
                           ++ array_rest (fun v => enc v (inner_level _indent level))
                                (isep_tail ++ newline_indent _indent (inner_level _indent level))
                                items (newline_indent _indent level ++ ch "]" :: tail)))
                [] (S idx + length (newline_indent _indent (inner_level _indent level)))%nat)
      as [e He].
    { rewrite length_app.
      pose proof (array_rest_length (fun v => enc v (inner_level _indent level))
                    (isep_tail ++ newline_indent _indent (inner_level _indent level)) items
                    (newline_indent _indent level ++ ch "]" :: tail)) as Hlen.
      rewrite length_app in Hlen. cbn [length] in Hlen. lia. }
    destruct (enc_head x (inner_level _indent level) Hx) as (c & r & Hc & Hs).
    apply starts_value_dispatch in Hs as (Hs & _ & _).
    revert He. rewrite Hc. cbn [app]. intros He. rewrite Hs. cbn [length] in *.
    rewrite He. eauto.
  - intros d IH Hwf [|fuel] Hd level idx tail Ht; [lia|].
    inversion Hwf as [| | | | | |d' Hnd Hl]; subst.
    destruct d as [|[k x] items]; [eexists; reflexivity|].
    assert (Hall : Forall (fun kv => wf (snd kv) /\ reads_back fuel (snd kv)) ((k, x) :: items)).
    { apply depth_items in Hd. rewrite Forall_forall in *.
      intros y Hy. split; [now apply Hl|]. apply IH; auto; now apply Hd. }
    inversion Hall as [|? ? [Hx Rx] Hitems]; subst. cbn [snd] in Hx, Rx.
    cbn [_iterencode iter_items app].
    rewrite <- ?app_comm_cons, scan_once_object.
    repeat (rewrite <- app_assoc || rewrite <- app_comm_cons).
    rewrite (iter_items_object_rest
               (fun value => enc value (inner_level _indent level))
               (isep_tail ++ newline_indent _indent (inner_level _indent level)) items).
    unfold JSONObject.
    unfold encode_basestring. cbn [str map list_ascii_of_string].
    repeat (rewrite <- app_assoc || rewrite <- app_comm_cons). cbn [app].
    rewrite (w_end_ws _ (newline_indent_ws _) (S idx) (DQUOTE :: _) eq_refl).
    cbv beta iota. change (DQUOTE =? DQUOTE) with true. cbv beta iota.
    destruct (JSONObject_loop_reads fuel (inner_level _indent level) level tail items Hitems
                k x Hx Rx
                (length (DQUOTE :: member_text (fun v => enc v (inner_level _indent level)) k x
                           (object_rest (fun v => enc v (inner_level _indent level))
                              (isep_tail ++ newline_indent _indent (inner_level _indent level))
                              items (newline_indent _indent level ++ ch "}" :: tail))))
                [] (S (S idx + length (newline_indent _indent (inner_level _indent level)))))
      as [e He].
    { cbn [length]. unfold member_text. rewrite length_app. cbn [length]. rewrite length_app.
      pose proof (object_rest_length (fun v => enc v (inner_level _indent level))
                    (isep_tail ++ newline_indent _indent (inner_level _indent level)) items
                    (newline_indent _indent level ++ ch "}" :: tail)) as Hlen.
      rewrite length_app in Hlen. cbn [length] in Hlen. lia. }
    unfold member_text in He. unfold member_text.
    cbn [app] in He. rewrite (dict_nodup _ Hnd) in He. exists e. exact He.
Qed.

End RoundTrip.

(* ================================================================== *)
(** * Round trip: [json.loads] after [json.dumps] *)

Lemma iter_items_length {A} (enc : A -> pystr) (sep : pystr) (l : list A) :
  forall first x, In x l -> (length (enc x) <= length (iter_items enc sep first l))%nat.
Proof.
  induction l as [|y l IH]; intros first x Hx; [contradiction|].
  cbn [iter_items]. rewrite !length_app. destruct Hx as [->|Hx]; [lia|].
  specialize (IH false x Hx). lia.
Qed.

Section DepthOfText.
Context {PF : PyFloat}.
Variable _indent : option pystr.
Variable _item_separator _key_separator : pystr.

Local Abbreviation enc := (_iterencode _indent _item_separator _key_separator).

(** The text of a value is at least as long as the value is deep. *)
Lemma depth_length (v : pyvalue) : forall level, (depth v <= length (enc v level))%nat.
Proof.
  pattern v. apply pyvalue_induction; clear v; try (intros; cbn [depth]; lia).
  - intros l IH level. destruct l as [|x items]; [cbn; lia|].
    cbn [depth _iterencode length]. apply le_n_S. rewrite !length_app.
    apply Nat.le_trans
      with (length (iter_items (fun value => enc value (inner_level _indent level))
                      (_item_separator ++ newline_indent _indent (inner_level _indent level))
                      true (x :: items))); [|lia].
    apply list_max_le, Forall_forall. intros n Hn.
    apply in_map_iff in Hn as (y & <- & Hy). rewrite Forall_forall in IH.
    apply Nat.le_trans with (length (enc y (inner_level _indent level))); [now apply IH|].
    now apply (iter_items_length (fun value => enc value (inner_level _indent level))).
  - intros d IH level. destruct d as [|kv items]; [cbn; lia|].
    cbn [depth _iterencode length]. apply le_n_S. rewrite !length_app.
    apply Nat.le_trans
      with (length (iter_items
                      (fun '(key, value) =>
                         encode_basestring key ++ _key_separator
                           ++ enc value (inner_level _indent level))
                      (_item_separator ++ newline_indent _indent (inner_level _indent level))
                      true (kv :: items))); [|lia].
    apply list_max_le, Forall_forall. intros n Hn.
    apply in_map_iff in Hn as ([k y] & <- & Hy). rewrite Forall_forall in IH.
    apply Nat.le_trans with (length (enc y (inner_level _indent level)));
      [now apply (IH (k, y))|].
    pose proof (iter_items_length
                  (fun '(key, value) =>
                     encode_basestring key ++ _key_separator
                       ++ enc value (inner_level _indent level))
                  (_item_separator ++ newline_indent _indent (inner_level _indent level))
                  (kv :: items) true (k, y) Hy) as Hlen.
    cbv beta iota in Hlen. rewrite !length_app in Hlen. lia.
Qed.

End DepthOfText.

Lemma spaces_ws (n : Z) : forallb is_ws (spaces n) = true.
Proof. unfold spaces. induction (Z.to_nat n) as [|k IH]; [reflexivity|]. cbn. exact IH. Qed.

(** [json.loads] reads back what [json.dumps] wrote for a well-formed
    value, whatever the indent. *)
Lemma loads_dumps {PF : PyFloat} {LAWS : PyFloatLaws PF} (v : pyvalue) (indent : option Z) :
  wf v -> loads (dumps v indent) = Ok v.
Proof.
  intros Hv.
  set (isep_tail := match indent with Some _ => [] | None => [ch " "] end).
  assert (Hd : dumps v indent
               = _iterencode (option_map spaces indent) (ch "," :: isep_tail) (str ": ") v O).
  { unfold dumps, isep_tail. destruct v, indent; reflexivity. }
  rewrite Hd.
  assert (Hi : forall i, option_map spaces indent = Some i -> forallb is_ws i = true).
  { intros i Hi. destruct indent as [n|]; [|discriminate]. injection Hi as <-. apply spaces_ws. }
  assert (Ht : forallb is_ws isep_tail = true) by (unfold isep_tail; now destruct indent).
  set (txt := _iterencode (option_map spaces indent) (ch "," :: isep_tail) (str ": ") v O).
  destruct (enc_head (option_map spaces indent) isep_tail v O Hv) as (c & r & Hc & Hs).
  fold txt in Hc.
  pose proof (starts_value_not_ws c Hs) as Hws.
  apply starts_value_dispatch in Hs as (_ & _ & Hbom).
  assert (Hdepth : (depth v < S (length txt))%nat).
  { pose proof (depth_length (option_map spaces indent) (ch "," :: isep_tail) (str ": ") v O).
    fold txt in H. lia. }
  destruct (value_reads_back txt (option_map spaces indent) isep_tail Hi Ht v Hv
              (S (length txt)) Hdepth O O [] eq_refl) as [e He].
  fold txt in He. rewrite app_nil_r in He.
  unfold loads.
  replace (startswith [65279] txt) with false
    by (rewrite Hc; cbn [startswith]; now rewrite (Z.eqb_sym 65279 c), Hbom).
  unfold decode, raw_decode.
  rewrite (w_end_stay O txt) by (rewrite Hc; exact Hws).
  cbv beta iota. rewrite He. reflexivity.
Qed.

(* ================================================================== *)
(** * What [json.loads] returns is well formed *)

Section LoadsWellFormed.
Context {PF : PyFloat}.

Lemma str_in_false (k : pystr) (keys : list pystr) : str_in k keys = false -> ~ In k keys.
Proof.
  unfold str_in. intros H Hin.
  assert (Ht : existsb (pystr_eqb k) keys = true).
  { apply existsb_exists. exists k. split; [exact Hin|apply pystr_eqb_refl]. }
  congruence.
Qed.

Lemma add_key_nodup (keys : list pystr) (k : pystr) : NoDup keys -> NoDup (add_key keys k).
Proof.
  intros H. unfold add_key. destruct (str_in k keys) eqn:Hk; [exact H|].
  apply str_in_false in Hk.
  induction H as [|x l Hx Hl IH]; cbn [app].
  - constructor; [intros []|constructor].
  - constructor.
    + intros Hin. apply in_app_or in Hin as [Hin|[->|[]]]; [contradiction|].
      apply Hk. now left.
    + apply IH. intros Hin. apply Hk. now right.
Qed.

Lemma first_occurrences_nodup (keys : list pystr) : NoDup (first_occurrences keys).
Proof.
  unfold first_occurrences.
  assert (Hgen : forall acc, NoDup acc -> NoDup (fold_left add_key keys acc)).
  { induction keys as [|k keys IH]; intros acc H; [exact H|].
    cbn [fold_left]. apply IH. now apply add_key_nodup. }
  apply Hgen. constructor.
Qed.

Lemma dict_setitem_forall (P : pyvalue -> Prop) (d : list (pystr * pyvalue)) (k : pystr)
    (v : pyvalue) :
  Forall (fun kv => P (snd kv)) d -> P v -> Forall (fun kv => P (snd kv)) (dict_setitem d k v).
Proof.
  intros Hd Hv. induction Hd as [|[k' v'] d Hx Hd IH]; cbn [dict_setitem].
  - constructor; [exact Hv|constructor].
  - destruct (pystr_eqb k' k); constructor; auto.
Qed.

Lemma dict_forall (P : pyvalue -> Prop) (pairs : list (pystr * pyvalue)) :
  Forall (fun kv => P (snd kv)) pairs -> Forall (fun kv => P (snd kv)) (dict pairs).
Proof.
  unfold dict.
  assert (Hgen : forall acc, Forall (fun kv => P (snd kv)) acc ->
             Forall (fun kv => P (snd kv)) pairs ->
             Forall (fun kv => P (snd kv))
               (fold_left (fun d kv => dict_setitem d (fst kv) (snd kv)) pairs acc)).
  { induction pairs as [|[k v] pairs IH]; intros acc Ha Hp; [exact Ha|].
    inversion Hp; subst. cbn [fold_left fst snd]. apply IH; [|assumption].
    now apply dict_setitem_forall. }
  intros H. apply Hgen; [constructor|exact H].
Qed.

Lemma dict_wf (pairs : list (pystr * pyvalue)) :
  Forall (fun kv => wf (snd kv)) pairs -> wf (PyDict (dict pairs)).
Proof.
  intros H. constructor.
  - rewrite dict_keys. apply first_occurrences_nodup.
  - now apply dict_forall.
Qed.

Variable s : pystr.

Section Loops.
Variable scan_once : nat -> pystr -> result.
Hypothesis scan_once_wf : forall idx rest, wf_result (scan_once idx rest).

Lemma expecting_value_wf (idx : nat) (rest : pystr) :
  wf_result (expecting_value s (scan_once idx rest)).
Proof.
  pose proof (scan_once_wf idx rest) as H.
  destruct (scan_once idx rest) as [[[v e] r]|[]]; exact H || exact I.
Qed.

Lemma JSONArray_loop_wf (n : nat) :
  forall values end_ rest,
    Forall wf values -> wf_result (JSONArray_loop s scan_once n values end_ rest).
Proof.
  induction n as [|n IH]; intros values end_ rest Hv; [exact I|].
  cbn [JSONArray_loop].
  pose proof (expecting_value_wf end_ rest) as Hx.
  destruct (expecting_value s (scan_once end_ rest)) as [[[value end1] r1]|e]; [|exact I].
  cbn in Hx. cbn [bind].
  assert (Hv' : Forall wf (values ++ [value])) by (apply Forall_app; auto).
  destruct (w_end end1 r1) as [end2 r2].
  destruct r2 as [|nextchar r3]; [exact I|].
  destruct (nextchar =? ch "]"); [now constructor|].
  destruct (nextchar =? ch ","); [|exact I].
  destruct (w_end (S end2) r3) as [end4 r4]. now apply IH.
Qed.

Lemma JSONArray_wf (end_ : nat) (rest : pystr) :
  wf_result (JSONArray s scan_once end_ rest).
Proof.
  unfold JSONArray. destruct (w_end end_ rest) as [end1 r1].
  destruct r1 as [|nextchar r2]; [now apply JSONArray_loop_wf|].
  destruct (nextchar =? ch "]"); [repeat constructor|now apply JSONArray_loop_wf].
Qed.

Lemma JSONObject_loop_wf (n : nat) :
  forall pairs end_ rest,
    Forall (fun kv => wf (snd kv)) pairs ->
    wf_result (JSONObject_loop s scan_once n pairs end_ rest).
Proof.
  induction n as [|n IH]; intros pairs end_ rest Hp; [exact I|].
  cbn [JSONObject_loop].
  destruct (scanstring s end_ rest) as [[[key end1] r1]|e]; [|exact I]. cbn [bind].
  destruct (w_end end1 r1) as [end2 r2].
  destruct r2 as [|colon r3]; [exact I|].
  destruct (colon =? ch ":"); [|exact I].
  destruct (w_end (S end2) r3) as [end4 r4].
  pose proof (expecting_value_wf end4 r4) as Hx.
  destruct (expecting_value s (scan_once end4 r4)) as [[[value end5] r5]|e]; [|exact I].
  cbn in Hx. cbn [bind].
  assert (Hp' : Forall (fun kv => wf (snd kv)) (pairs ++ [(key, value)]))
    by (apply Forall_app; auto).
  destruct (w_end end5 r5) as [end6 r6].
  destruct r6 as [|nextchar r7]; [exact I|].
  destruct (nextchar =? ch "}"); [now apply dict_wf|].
  destruct (nextchar =? ch ","); [|exact I].
  destruct (w_end (S end6) r7) as [end8 r8].
  destruct r8 as [|q r9]; [exact I|].
  destruct (q =? DQUOTE); [|exact I]. now apply IH.
Qed.

Lemma JSONObject_wf (end_ : nat) (rest : pystr) :
  wf_result (JSONObject s scan_once end_ rest).
Proof.
  unfold JSONObject. destruct (w_end end_ rest) as [end1 r1].
  destruct r1 as [|nextchar r2]; [exact I|].
  destruct (nextchar =? DQUOTE); [now apply JSONObject_loop_wf|].
  destruct (nextchar =? ch "}"); [|exact I].
  constructor; constructor.
Qed.

End Loops.

Lemma scan_once_wf (fuel : nat) : forall idx rest, wf_result (scan_once s fuel idx rest).
Proof.
  induction fuel as [|fuel IH]; intros idx rest; [exact I|].
  cbn [scan_once].
  destruct rest as [|nextchar r]; [exact I|].
  destruct (nextchar =? DQUOTE).
  { destruct (scanstring s (S idx) r) as [[[v e] r']|e]; [constructor|exact I]. }
  destruct (nextchar =? ch "{"); [now apply JSONObject_wf|].
  destruct (nextchar =? ch "["); [now apply JSONArray_wf|].
  destruct (startswith (str "null") (nextchar :: r)); [constructor|].
  destruct (startswith (str "true") (nextchar :: r)); [constructor|].
  destruct (startswith (str "false") (nextchar :: r)); [constructor|].
  destruct (match_number (nextchar :: r)) as [[[[integer frac] exp] r']|] eqn:Hm.
  { assert (Hf : (frac <> None \/ exp <> None) ->
                 wf (PyFloat_ (float_of_literal (integer ++ or_empty frac ++ or_empty exp)))).
    { intros Hfe. constructor. right; right; right. eexists. split; [|reflexivity].
      eapply matched_float_literal; eauto. }
    destruct frac, exp; try (apply Hf; auto; left + right; discriminate).
    constructor. }
  destruct (startswith (str "NaN") (nextchar :: r)).
  { constructor. now left. }
  destruct (startswith (str "Infinity") (nextchar :: r)).
  { constructor. right. now left. }
  destruct (startswith (str "-Infinity") (nextchar :: r)).
  { constructor. right. right. now left. }
  exact I.
Qed.

End LoadsWellFormed.

Lemma loads_wf {PF : PyFloat} (s : pystr) (v : pyvalue) : loads s = Ok v -> wf v.
Proof.
  unfold loads. destruct (startswith [65279] s); [discriminate|].
  unfold decode, raw_decode. destruct (w_end 0 s) as [idx rest].
  pose proof (scan_once_wf s (S (length s)) idx rest) as H.
  destruct (scan_once s (S (length s)) idx rest) as [[[obj e] r]|e]; cbn [expecting_value bind].
  - destruct (w_end e r) as [e' r']. destruct r'; [|discriminate].
    intros Heq. injection Heq as <-. exact H.
  - destruct e; discriminate.
Qed.

(** The stand-in for [float] satisfies the laws. *)
Lemma literal_float_laws : PyFloatLaws literal_PyFloat.
Proof.
  constructor; try reflexivity; cbn; intros lit H; try discriminate.
  - apply pystr_eqb_refl.
  - intros _ _. split; [exact H|reflexivity].
Qed.

Section RoundTripClaim.
Context {PF : PyFloat} {LAWS : PyFloatLaws PF}.


End RoundTripClaim.

Example round_trip_compact :
  loads (PF := literal_PyFloat)
    (dumps (PyDict [(str "a", PyList [PyInt (-12); PyFloat_ (LFinite (str "2.5e-3")); PyNone]);
                    (str "b", PyStr [233; DQUOTE; 10])]) None)
  = Ok (PyDict [(str "a", PyList [PyInt (-12); PyFloat_ (LFinite (str "2.5e-3")); PyNone]);
                (str "b", PyStr [233; DQUOTE; 10])]).
Proof. reflexivity. Qed.


(* ================================================================== *)
(** * The converter service: every answer of the two endpoints *)

Lemma str_in_formats (fmt : pystr) :
  str_in fmt formats = true -> fmt = str "html" \/ fmt = str "pdf".
Proof.
  unfold str_in, formats. cbn [existsb]. rewrite orb_false_r.
  intros H. apply orb_prop in H as [H|H]; apply pystr_eqb_eq in H; auto.
Qed.

Section ConverterAnswers.
Context {E : Engines}.

(** What a response that was built says about the request. *)
Lemma respond_ok (md : pystr) (title : option pystr) (fmt : pystr) (r : StreamingResponse) :
  str_in fmt formats = true ->
  respond md title fmt = Ok r ->
  exists t html,
    title = Some t
    /\ convert_to_html md (Some t) = Ok html
    /\ (fmt = str "html" ->
        encode_utf8 html = Ok r.(MarkdownConverter.content) /\ r.(media_type) = str "text/html")
    /\ (fmt = str "pdf" ->
        convert_to_pdf html = Ok r.(MarkdownConverter.content)
        /\ r.(media_type) = str "application/pdf")
    /\ r.(headers)
       = [(str "Content-Disposition",
           str "attachment; filename=" ++ underscored t ++ ch "." :: fmt)].
Proof.
  intros Hf H. unfold respond in H.
  destruct (convert_to_html md title) as [html|e] eqn:Hh; [|discriminate]. cbn [bind] in H.
  apply str_in_formats in Hf.
  destruct Hf as [-> | ->].
  - change (pystr_eqb (str "html") (str "html")) with true in H. cbv iota in H.
    destruct (encode_utf8 html) as [body|e] eqn:He; [|discriminate]. cbn [bind] in H.
    destruct title as [t|]; [|discriminate]. cbn [title_replace bind] in H.
    injection H as <-. exists t, html. cbn [MarkdownConverter.content media_type headers].
    repeat split; auto; try discriminate.
    unfold underscored. rewrite <- replace_char_map. reflexivity.
  - change (pystr_eqb (str "pdf") (str "html")) with false in H. cbv iota in H.
    destruct (convert_to_pdf html) as [body|e] eqn:He; [|discriminate]. cbn [bind] in H.
    destruct title as [t|]; [|discriminate]. cbn [title_replace bind] in H.
    injection H as <-. exists t, html. cbn [MarkdownConverter.content media_type headers].
    repeat split; auto; try discriminate.
    unfold underscored. rewrite <- replace_char_map. reflexivity.
Qed.

(** What a successful upload says about the file and the format. *)
Lemma upload_ok (file : UploadFile) (fmt : pystr) (r : StreamingResponse) :
  convert_upload file fmt = Ok r ->
  str_in fmt formats = true
  /\ exists md_content,
       decode_utf8 file.(read) = Ok md_content /\ blank md_content = false
       /\ respond md_content (Some (upload_title file)) fmt = Ok r.
Proof.
  intros H.
  destruct (str_in fmt formats) eqn:Hf.
  2:{ now rewrite upload_bad_format in H. }
  split; [reflexivity|].
  destruct (decode_utf8 (read file)) as [md|e] eqn:Hd.
  2:{ rewrite upload_not_utf8 in H; [discriminate|assumption|]. unfold valid_utf8. now rewrite Hd. }
  destruct (blank md) eqn:Hb.
  { now rewrite (upload_blank file fmt md) in H. }
  rewrite (upload_converts file fmt md) in H by assumption.
  destruct (respond md (Some (upload_title file)) fmt) as [r'|e] eqn:Hr.
  2:{ destruct e; discriminate. }
  injection H as ->. exists md. auto.
Qed.



(** A successful answer of the paste endpoint: the content was not blank
    and went to the converter as it was (not stripped), the format is
    [html] or [pdf], the body is the UTF-8 encoding of the page for [html]
    and the rendered PDF of the page for [pdf], with the matching media
    type, and the download is named after the title, every space of it an
    underscore, with the format as extension. *)
Theorem paste_success_shape :
  forall (content fmt : pystr) (title : option pystr) (r : StreamingResponse),
    convert_paste content fmt title = Ok r ->
    blank content = false
    /\ (fmt = str "html" \/ fmt = str "pdf")
    /\ exists t html,
         title = Some t
         /\ convert_to_html content (Some t) = Ok html
         /\ (fmt = str "html" ->
             encode_utf8 html = Ok r.(MarkdownConverter.content) /\ r.(media_type) = str "text/html")
         /\ (fmt = str "pdf" ->
             convert_to_pdf html = Ok r.(MarkdownConverter.content)
             /\ r.(media_type) = str "application/pdf")
         /\ r.(headers)
            = [(str "Content-Disposition",
                str "attachment; filename=" ++ underscored t ++ ch "." :: fmt)].
Proof.
  intros content fmt title r H. unfold convert_paste in H.
  rewrite not_strip_blank in H. fold formats in H.
  destruct (blank content); [discriminate|].
  destruct (str_in fmt formats) eqn:Hf; [|discriminate]. cbn [negb] in H.
  destruct (respond content title fmt) as [r'|e] eqn:Hr; [|discriminate].
  injection H as ->.
  split; [reflexivity|]. split; [now apply str_in_formats|].
  now apply respond_ok.
Qed.

(** A successful answer of the upload endpoint: the format is [html] or
    [pdf], the bytes of the file are UTF-8 for text that is not blank, that
    text went to the converter under the title taken from the file name,
    and body, media type and download name are as for a paste. *)
Theorem upload_success_shape :
  forall (file : UploadFile) (fmt : pystr) (r : StreamingResponse),
    convert_upload file fmt = Ok r ->
    (fmt = str "html" \/ fmt = str "pdf")
    /\ exists md_content html,
         decode_utf8 file.(read) = Ok md_content
         /\ blank md_content = false
         /\ convert_to_html md_content (Some (upload_title file)) = Ok html
         /\ (fmt = str "html" ->
             encode_utf8 html = Ok r.(MarkdownConverter.content) /\ r.(media_type) = str "text/html")
         /\ (fmt = str "pdf" ->
             convert_to_pdf html = Ok r.(MarkdownConverter.content)
             /\ r.(media_type) = str "application/pdf")
         /\ r.(headers)
            = [(str "Content-Disposition",
                str "attachment; filename=" ++ underscored (upload_title file) ++ ch "." :: fmt)].
Proof.
  intros file fmt r H.
  destruct (upload_ok file fmt r H) as (Hf & md & Hd & Hb & Hr).
  split; [now apply str_in_formats|].
  destruct (respond_ok _ _ _ _ Hf Hr) as (t & html & Ht & Hh & H1 & H2 & H3).
  injection Ht as <-. exists md, html. repeat split; auto; try apply H1; try apply H2; auto.
Qed.

(** The name under which a converted upload is downloaded: for a file
    named [stem.ext] (no dot or slash in either part) it is the stem, its
    spaces turned into underscores, with the output format as extension,
    whatever [ext] was; for a file without a name it is [Document]. *)
Theorem upload_download_name :
  forall (file : UploadFile) (fmt : pystr) (r : StreamingResponse),
    convert_upload file fmt = Ok r ->
    (forall stem ext : pystr,
       file.(filename) = Some (stem ++ ch "." :: ext) ->
       plain stem = true -> truthy stem = true -> plain ext = true ->
       r.(headers)
       = [(str "Content-Disposition",
           str "attachment; filename=" ++ underscored stem ++ ch "." :: fmt)])
    /\ (file.(filename) = None \/ file.(filename) = Some [] ->
        r.(headers) = [(str "Content-Disposition", str "attachment; filename=Document." ++ fmt)]).
Proof.
  intros file fmt r H.
  destruct (upload_ok file fmt r H) as (Hf & md & _ & _ & Hr).
  destruct (respond_ok _ _ _ _ Hf Hr) as (t & html & Ht & _ & _ & _ & Hh).
  injection Ht as <-.
  split.
  - intros stem ext Hn Hs Ht He. rewrite Hh. unfold upload_title. rewrite Hn.
    replace (truthy (stem ++ ch "." :: ext)) with true by (now destruct stem).
    now rewrite splitext_plain.
  - intros Hn. rewrite Hh. unfold upload_title.
    destruct Hn as [-> | ->]; reflexivity.
Qed.

(** An upload is a paste of the decoded text under the title taken from
    the file name: when the bytes decode to text that is not blank, and the
    conversion raises no [UnicodeDecodeError], both endpoints give the same
    answer, for every output format (a valid one or not). *)
Theorem upload_is_paste_of_decoded_text :
  forall (file : UploadFile) (fmt md_content : pystr),
    decode_utf8 file.(read) = Ok md_content ->
    blank md_content = false ->
    (forall start, respond md_content (Some (upload_title file)) fmt
                   <> Raise (UnicodeDecodeError start)) ->
    convert_upload file fmt = convert_paste md_content fmt (Some (upload_title file)).
Proof.
  intros file fmt md Hd Hb Hne.
  destruct (str_in fmt formats) eqn:Hf.
  - rewrite (upload_converts file fmt md) by assumption.
    unfold convert_paste. rewrite not_strip_blank, Hb. fold formats. rewrite Hf. cbn [negb].
    destruct (respond md (Some (upload_title file)) fmt) as [r|e]; [reflexivity|].
    destruct e; try reflexivity. now destruct (Hne start).
  - rewrite upload_bad_format, paste_bad_format; auto.
Qed.

End ConverterAnswers.

Lemma paste_success_shape_witness :
  convert_paste (E := echo_engines) (str "# Title") (str "html") (Some (str "My notes"))
  = Ok {| MarkdownConverter.content :=
            ascii_bytes "<title>My notes</title><div># Title<p>Generated on 2024-01-01 00:00:00</p></div>";
          media_type := str "text/html";
          headers := [(str "Content-Disposition", str "attachment; filename=My_notes.html")] |}
  /\ blank (str "# Title") = false.
Proof.
  split; [reflexivity|].
  apply (paste_success_shape (E := echo_engines) (str "# Title") (str "html")
           (Some (str "My notes"))
           {| MarkdownConverter.content :=
                ascii_bytes "<title>My notes</title><div># Title<p>Generated on 2024-01-01 00:00:00</p></div>";
              media_type := str "text/html";
              headers := [(str "Content-Disposition", str "attachment; filename=My_notes.html")] |}).
  reflexivity.
Defined.

Lemma upload_success_shape_witness :
  convert_upload (E := echo_engines)
    {| filename := Some (str "My notes.md"); read := ascii_bytes "# Title" |} (str "pdf")
  = Ok {| MarkdownConverter.content :=
            ascii_bytes "<title>My notes</title><div># Title<p>Generated on 2024-01-01 00:00:00</p></div>";
          media_type := str "application/pdf";
          headers := [(str "Content-Disposition", str "attachment; filename=My_notes.pdf")] |}
  /\ (str "pdf" = str "html" \/ str "pdf" = str "pdf").
Proof.
  split; [reflexivity|].
  apply (upload_success_shape (E := echo_engines)
           {| filename := Some (str "My notes.md"); read := ascii_bytes "# Title" |} (str "pdf")
           {| MarkdownConverter.content :=
                ascii_bytes "<title>My notes</title><div># Title<p>Generated on 2024-01-01 00:00:00</p></div>";
              media_type := str "application/pdf";
              headers := [(str "Content-Disposition", str "attachment; filename=My_notes.pdf")] |}).
  reflexivity.
Defined.

Lemma upload_download_name_witness :
  plain (str "My notes") = true /\ plain (str "markdown") = true
  /\ headers
       {| MarkdownConverter.content :=
            ascii_bytes "<title>My notes</title><div># Title<p>Generated on 2024-01-01 00:00:00</p></div>";
          media_type := str "text/html";
          headers := [(str "Content-Disposition", str "attachment; filename=My_notes.html")] |}
     = [(str "Content-Disposition",
         str "attachment; filename=" ++ underscored (str "My notes") ++ ch "." :: str "html")].
Proof.
  split; [reflexivity|]. split; [reflexivity|].
  apply (proj1 (upload_download_name (E := echo_engines)
                  {| filename := Some (str "My notes" ++ ch "." :: str "markdown");
                     read := ascii_bytes "# Title" |} (str "html")
                  {| MarkdownConverter.content :=
                       ascii_bytes "<title>My notes</title><div># Title<p>Generated on 2024-01-01 00:00:00</p></div>";
                     media_type := str "text/html";
                     headers := [(str "Content-Disposition",
                                  str "attachment; filename=My_notes.html")] |}
                  eq_refl) (str "My notes") (str "markdown")); reflexivity.
Defined.

Lemma upload_is_paste_of_decoded_text_witness :
  decode_utf8 (ascii_bytes "# Title") = Ok (str "# Title")
  /\ blank (str "# Title") = false
  /\ convert_upload (E := echo_engines)
       {| filename := Some (str "notes.md"); read := ascii_bytes "# Title" |} (str "html")
     = convert_paste (E := echo_engines) (str "# Title") (str "html") (Some (str "notes")).
Proof.
  split; [reflexivity|]. split; [reflexivity|].
  apply (upload_is_paste_of_decoded_text (E := echo_engines)
           {| filename := Some (str "notes.md"); read := ascii_bytes "# Title" |}
           (str "html") (str "# Title")); [reflexivity|reflexivity|].
  intros start. discriminate.
Defined.

(* ================================================================== *)
(** * The [utf-8] codec: decoding and encoding undo each other *)

Lemma byte_of_val (b : byte) : byte_of (byte_val b) = b.
Proof. unfold byte_of, byte_val. rewrite N2Z.id, Byte.of_to_N. reflexivity. Qed.

Lemma byte_val_of (z : Z) : 0 <= z < 256 -> byte_val (byte_of z) = z.
Proof.
  intros H. unfold byte_of, byte_val.
  destruct (Byte.of_N (Z.to_N z)) as [b|] eqn:Hb.
  - apply Byte.to_of_N in Hb. rewrite Hb. lia.
  - apply Byte.of_N_None_iff in Hb. lia.
Qed.

Lemma map_byte_of_val (content : bytes) : map byte_of (map byte_val content) = content.
Proof. rewrite map_map. rewrite <- (map_id content) at 2. apply map_ext, byte_of_val. Qed.

Lemma map_byte_val_of (bs : list Z) :
  Forall (fun b => 0 <= b < 256) bs -> map byte_val (map byte_of bs) = bs.
Proof.
  intros H. rewrite map_map. rewrite <- (map_id bs) at 2.
  apply map_ext_in. intros b Hb. rewrite Forall_forall in H. now apply byte_val_of, H.
Qed.

(** Comparisons in [bool] as facts of [Z]. *)
Ltac bools :=
  repeat match goal with
         | H : _ && _ = true |- _ => apply andb_prop in H as [? ?]
         | H : (_ <=? _) = true |- _ => apply Z.leb_le in H
         | H : (_ <? _) = true |- _ => apply Z.ltb_lt in H
         | H : (_ =? _) = true |- _ => apply Z.eqb_eq in H
         | H : (_ <=? _) = false |- _ => apply Z.leb_gt in H
         | H : (_ <? _) = false |- _ => apply Z.ltb_ge in H
         | H : (_ =? _) = false |- _ => apply Z.eqb_neq in H
         end.

(** ** The encoder on what the decoder built from one, two, three and
    four bytes *)

Lemma encode_char_1 (b0 : Z) :
  (0 <=? b0) && (b0 <? 0x80) = true -> utf8_encode_char b0 = Some [b0].
Proof. intros H. unfold utf8_encode_char. bools. destruct (Z.ltb_spec b0 0x80); [reflexivity|lia]. Qed.

Lemma encode_char_2 (b0 b1 : Z) :
  (0xC2 <=? b0) && (b0 <=? 0xDF) = true -> cont b1 = true ->
  utf8_encode_char ((b0 - 0xC0) * 64 + (b1 - 0x80)) = Some [b0; b1].
Proof.
  unfold cont, utf8_encode_char. intros H0 H1. bools.
  set (c := (b0 - 0xC0) * 64 + (b1 - 0x80)).
  assert (Hc : 0x80 <= c < 0x800) by (subst c; lia).
  destruct (Z.ltb_spec c 0x80); [lia|].
  destruct (Z.ltb_spec c 0x800); [|lia].
  assert (Hd : c / 64 = b0 - 0xC0 /\ c mod 64 = b1 - 0x80).
  { subst c. split.
    - rewrite Z.div_add_l by lia. rewrite Z.div_small by lia. lia.
    - rewrite Z.add_comm, Z.mod_add by lia. apply Z.mod_small. lia. }
  destruct Hd as [-> ->]. repeat f_equal; lia.
Qed.

Lemma encode_char_3 (b0 b1 b2 : Z) :
  (0xE0 <=? b0) && (b0 <=? 0xEF) = true -> second_of_3 b0 b1 = true -> cont b2 = true ->
  utf8_encode_char (((b0 - 0xE0) * 64 + (b1 - 0x80)) * 64 + (b2 - 0x80)) = Some [b0; b1; b2].
Proof.
  unfold second_of_3, cont, utf8_encode_char. intros H0 H1 H2.
  set (c := ((b0 - 0xE0) * 64 + (b1 - 0x80)) * 64 + (b2 - 0x80)).
  assert (Hb1 : 0x80 <= b1 <= 0xBF /\ (b0 = 0xE0 -> 0xA0 <= b1) /\ (b0 = 0xED -> b1 <= 0x9F)).
  { revert H1. destruct (Z.eqb_spec b0 0xE0); [intros; bools; lia|].
    destruct (Z.eqb_spec b0 0xED); intros; bools; lia. }
  clear H1. bools.
  assert (Hc : 0x800 <= c < 0x10000 /\ (c < 0xD800 \/ 0xDFFF < c)) by (subst c; lia).
  destruct (Z.ltb_spec c 0x80); [lia|].
  destruct (Z.ltb_spec c 0x800); [lia|].
  replace ((0xD800 <=? c) && (c <=? 0xDFFF)) with false.
  2:{ symmetry. apply andb_false_iff. rewrite Z.leb_gt, Z.leb_gt. lia. }
  destruct (Z.ltb_spec c 0x10000); [|lia].
  assert (Hd : c / 4096 = b0 - 0xE0 /\ (c / 64) mod 64 = b1 - 0x80 /\ c mod 64 = b2 - 0x80).
  { assert (H64 : c / 64 = (b0 - 0xE0) * 64 + (b1 - 0x80)).
    { subst c. rewrite Z.div_add_l by lia. rewrite (Z.div_small (b2 - 128)) by lia. lia. }
    split; [|split].
    - change 4096 with (64 * 64). rewrite <- Z.div_div by lia. rewrite H64.
      rewrite Z.div_add_l by lia. rewrite Z.div_small by lia. lia.
    - rewrite H64. rewrite Z.add_comm, Z.mod_add by lia. apply Z.mod_small. lia.
    - subst c. rewrite Z.add_comm, Z.mod_add by lia. apply Z.mod_small. lia. }
  destruct Hd as (-> & -> & ->). repeat f_equal; lia.
Qed.

Lemma encode_char_4 (b0 b1 b2 b3 : Z) :
  (0xF0 <=? b0) && (b0 <=? 0xF4) = true -> second_of_4 b0 b1 = true -> cont b2 = true ->
  cont b3 = true ->
  utf8_encode_char ((((b0 - 0xF0) * 64 + (b1 - 0x80)) * 64 + (b2 - 0x80)) * 64 + (b3 - 0x80))
  = Some [b0; b1; b2; b3].
Proof.
  unfold second_of_4, cont, utf8_encode_char. intros H0 H1 H2 H3.
  set (c := (((b0 - 0xF0) * 64 + (b1 - 0x80)) * 64 + (b2 - 0x80)) * 64 + (b3 - 0x80)).
  assert (Hb1 : 0x80 <= b1 <= 0xBF /\ (b0 = 0xF0 -> 0x90 <= b1) /\ (b0 = 0xF4 -> b1 <= 0x8F)).
  { revert H1. destruct (Z.eqb_spec b0 0xF0); [intros; bools; lia|].
    destruct (Z.eqb_spec b0 0xF4); intros; bools; lia. }
  clear H1. bools.
  assert (Hc : 0x10000 <= c <= 0x10FFFF) by (subst c; lia).
  destruct (Z.ltb_spec c 0x80); [lia|].
  destruct (Z.ltb_spec c 0x800); [lia|].
  replace ((0xD800 <=? c) && (c <=? 0xDFFF)) with false.
  2:{ symmetry. apply andb_false_iff. rewrite Z.leb_gt, Z.leb_gt. lia. }
  destruct (Z.ltb_spec c 0x10000); [lia|].
  assert (H64 : c / 64 = ((b0 - 0xF0) * 64 + (b1 - 0x80)) * 64 + (b2 - 0x80)).
  { subst c. rewrite Z.div_add_l by lia. rewrite (Z.div_small (b3 - 128)) by lia. lia. }
  assert (H4096 : c / 4096 = (b0 - 0xF0) * 64 + (b1 - 0x80)).
  { change 4096 with (64 * 64). rewrite <- Z.div_div by lia. rewrite H64.
    rewrite Z.div_add_l by lia. rewrite (Z.div_small (b2 - 128)) by lia. lia. }
  assert (Hd : c / 262144 = b0 - 0xF0 /\ (c / 4096) mod 64 = b1 - 0x80
               /\ (c / 64) mod 64 = b2 - 0x80 /\ c mod 64 = b3 - 0x80).
  { split; [|split; [|split]].
    - change 262144 with (4096 * 64). rewrite <- Z.div_div by lia. rewrite H4096.
      rewrite Z.div_add_l by lia. rewrite Z.div_small by lia. lia.
    - rewrite H4096. rewrite Z.add_comm, Z.mod_add by lia. apply Z.mod_small. lia.
    - rewrite H64. rewrite Z.add_comm, Z.mod_add by lia. apply Z.mod_small. lia.
    - subst c. rewrite Z.add_comm, Z.mod_add by lia. apply Z.mod_small. lia. }
  destruct Hd as (-> & -> & -> & ->). repeat f_equal; lia.
Qed.

(** Encoding what the decoder returned gives the bytes back. *)
Lemma utf8_encode_decoded (n : nat) :
  forall bs pos pos' s, (length bs <= n)%nat ->
    utf8_decode_from pos bs = Ok s -> utf8_encode_from pos' s = Ok bs.
Proof.
  induction n as [|n IH]; intros bs pos pos' s Hn H.
  - destruct bs; [|cbn in Hn; lia]. injection H as <-. reflexivity.
  - destruct bs as [|b0 r0]; [injection H as <-; reflexivity|]. cbn [length] in Hn.
    cbn [utf8_decode_from] in H.
    assert (Hstep : forall p r c enc tl,
               (length r <= n)%nat -> utf8_encode_char c = Some enc ->
               bind (utf8_decode_from p r) (fun s0 => Ok (c :: s0)) = Ok tl ->
               utf8_encode_from pos' tl = Ok (enc ++ r)).
    { intros p r c enc tl Hr Hc Hb.
      destruct (utf8_decode_from p r) as [s0|e] eqn:Hd; [|discriminate].
      cbn [bind] in Hb. injection Hb as <-.
      cbn [utf8_encode_from]. rewrite Hc.
      now rewrite (IH r p (S pos') s0 Hr Hd). }
    destruct ((0 <=? b0) && (b0 <? 0x80)) eqn:H1.
    { apply (Hstep _ _ _ [b0]) in H; [exact H|lia|now apply encode_char_1]. }
    destruct ((0xC2 <=? b0) && (b0 <=? 0xDF)) eqn:H2.
    { destruct r0 as [|b1 r1]; [discriminate|]. cbn [length] in Hn.
      destruct (cont b1) eqn:Hc1; [|discriminate].
      apply (Hstep _ _ _ [b0; b1]) in H; [exact H|lia|now apply encode_char_2]. }
    destruct ((0xE0 <=? b0) && (b0 <=? 0xEF)) eqn:H3.
    { destruct r0 as [|b1 [|b2 r2]]; try discriminate. cbn [length] in Hn.
      destruct (second_of_3 b0 b1 && cont b2) eqn:Hc; [|discriminate].
      apply andb_prop in Hc as [Hc1 Hc2].
      apply (Hstep _ _ _ [b0; b1; b2]) in H; [exact H|lia|now apply encode_char_3]. }
    destruct ((0xF0 <=? b0) && (b0 <=? 0xF4)) eqn:H4; [|discriminate].
    destruct r0 as [|b1 [|b2 [|b3 r3]]]; try discriminate. cbn [length] in Hn.
    destruct (second_of_4 b0 b1 && cont b2 && cont b3) eqn:Hc; [|discriminate].
    apply andb_prop in Hc as [Hc Hc3]. apply andb_prop in Hc as [Hc1 Hc2].
    apply (Hstep _ _ _ [b0; b1; b2; b3]) in H; [exact H|lia|now apply encode_char_4].
Qed.

Lemma some_eq {A} (x y : A) : Some x = Some y -> y = x.
Proof. congruence. Qed.

(** What the encoder writes for one code point is read back as it. *)
Lemma decode_encoded_char (c : Z) (enc : list Z) :
  code_point c = true -> utf8_encode_char c = Some enc ->
  forall pos r, exists pos',
    utf8_decode_from pos (enc ++ r) = (s <- utf8_decode_from pos' r ;; Ok (c :: s))
    /\ Forall (fun b => 0 <= b < 256) enc.
Proof.
  unfold code_point, utf8_encode_char. intros Hc He pos r. bools.
  destruct (Z.ltb_spec c 0x80).
  { apply some_eq in He; subst enc. exists (S pos).
    split; [|repeat (apply Forall_cons; [lia|]); apply Forall_nil].
    cbn [app utf8_decode_from].
    replace ((0 <=? c) && (c <? 128)) with true; [reflexivity|].
    symmetry. apply andb_true_iff. rewrite Z.leb_le, Z.ltb_lt. lia. }
  destruct (Z.ltb_spec c 0x800).
  { apply some_eq in He; subst enc. exists (pos + 2)%nat.
    pose proof (Z.div_mod c 64 ltac:(lia)) as Hdm.
    pose proof (Z.mod_pos_bound c 64 ltac:(lia)) as Hm.
    assert (Hq : 2 <= c / 64 <= 31).
    { split; [apply Z.div_le_lower_bound; lia|]. apply Z.lt_succ_r, Z.div_lt_upper_bound; lia. }
    split; [|repeat (apply Forall_cons; [lia|]); apply Forall_nil].
    cbn [app utf8_decode_from].
    replace ((0 <=? 192 + c / 64) && (192 + c / 64 <? 128)) with false.
    2:{ symmetry. apply andb_false_iff. right. apply Z.ltb_ge. lia. }
    replace ((194 <=? 192 + c / 64) && (192 + c / 64 <=? 223)) with true.
    2:{ symmetry. apply andb_true_iff. rewrite !Z.leb_le. lia. }
    replace (cont (128 + c mod 64)) with true.
    2:{ symmetry. unfold cont. apply andb_true_iff. rewrite !Z.leb_le. lia. }
    replace ((192 + c / 64 - 192) * 64 + (128 + c mod 64 - 128)) with c by lia.
    reflexivity. }
  destruct ((0xD800 <=? c) && (c <=? 0xDFFF)) eqn:Hs; [discriminate|].
  assert (Hsur : c < 0xD800 \/ 0xDFFF < c).
  { apply andb_false_iff in Hs as [Hs|Hs]; apply Z.leb_gt in Hs; lia. }
  clear Hs.
  destruct (Z.ltb_spec c 0x10000).
  { apply some_eq in He; subst enc. exists (pos + 3)%nat.
    pose proof (Z.div_mod c 64 ltac:(lia)) as Hdm.
    pose proof (Z.mod_pos_bound c 64 ltac:(lia)) as Hm.
    pose proof (Z.div_mod (c / 64) 64 ltac:(lia)) as Hdm2.
    pose proof (Z.mod_pos_bound (c / 64) 64 ltac:(lia)) as Hm2.
    assert (H4096 : c / 4096 = c / 64 / 64) by (rewrite Z.div_div by lia; reflexivity).
    set (q := c / 64) in *. set (q2 := q / 64) in *. set (m := c mod 64) in *.
    set (m2 := q mod 64) in *.
    rewrite H4096. fold m2.
    split; [|repeat (apply Forall_cons; [lia|]); apply Forall_nil].
    cbn [app utf8_decode_from].
    replace ((0 <=? 224 + q2) && (224 + q2 <? 128)) with false.
    2:{ symmetry. apply andb_false_iff. right. apply Z.ltb_ge. lia. }
    replace ((194 <=? 224 + q2) && (224 + q2 <=? 223)) with false.
    2:{ symmetry. apply andb_false_iff. right. apply Z.leb_gt. lia. }
    replace ((224 <=? 224 + q2) && (224 + q2 <=? 239)) with true.
    2:{ symmetry. apply andb_true_iff. rewrite !Z.leb_le. lia. }
    replace (second_of_3 (224 + q2) (128 + m2)) with true.
    2:{ symmetry. unfold second_of_3, cont.
        destruct (Z.eqb_spec (224 + q2) 224).
        { apply andb_true_iff. rewrite !Z.leb_le. lia. }
        destruct (Z.eqb_spec (224 + q2) 237).
        { apply andb_true_iff. rewrite !Z.leb_le. lia. }
        apply andb_true_iff. rewrite !Z.leb_le. lia. }
    replace (cont (128 + m)) with true.
    2:{ symmetry. unfold cont. apply andb_true_iff. rewrite !Z.leb_le. lia. }
    cbn [andb].
    replace (((224 + q2 - 224) * 64 + (128 + m2 - 128)) * 64 + (128 + m - 128)) with c by lia.
    reflexivity. }
  apply some_eq in He; subst enc. exists (pos + 4)%nat.
  pose proof (Z.div_mod c 64 ltac:(lia)) as Hdm.
  pose proof (Z.mod_pos_bound c 64 ltac:(lia)) as Hm.
  pose proof (Z.div_mod (c / 64) 64 ltac:(lia)) as Hdm2.
  pose proof (Z.mod_pos_bound (c / 64) 64 ltac:(lia)) as Hm2.
  pose proof (Z.div_mod (c / 64 / 64) 64 ltac:(lia)) as Hdm3.
  pose proof (Z.mod_pos_bound (c / 64 / 64) 64 ltac:(lia)) as Hm3.
  assert (H4096 : c / 4096 = c / 64 / 64) by (rewrite Z.div_div by lia; reflexivity).
  assert (H262144 : c / 262144 = c / 64 / 64 / 64) by (rewrite !Z.div_div by lia; reflexivity).
  set (q := c / 64) in *. set (q2 := q / 64) in *. set (q3 := q2 / 64) in *.
  set (m := c mod 64) in *. set (m2 := q mod 64) in *. set (m3 := q2 mod 64) in *.
  rewrite H4096, H262144. fold m3.
  split; [|repeat (apply Forall_cons; [lia|]); apply Forall_nil].
  cbn [app utf8_decode_from].
  replace ((0 <=? 240 + q3) && (240 + q3 <? 128)) with false.
  2:{ symmetry. apply andb_false_iff. right. apply Z.ltb_ge. lia. }
  replace ((194 <=? 240 + q3) && (240 + q3 <=? 223)) with false.
  2:{ symmetry. apply andb_false_iff. right. apply Z.leb_gt. lia. }
  replace ((224 <=? 240 + q3) && (240 + q3 <=? 239)) with false.
  2:{ symmetry. apply andb_false_iff. right. apply Z.leb_gt. lia. }
  replace ((240 <=? 240 + q3) && (240 + q3 <=? 244)) with true.
  2:{ symmetry. apply andb_true_iff. rewrite !Z.leb_le. lia. }
  replace (second_of_4 (240 + q3) (128 + m3)) with true.
  2:{ symmetry. unfold second_of_4, cont.
      destruct (Z.eqb_spec (240 + q3) 240).
      { apply andb_true_iff. rewrite !Z.leb_le. lia. }
      destruct (Z.eqb_spec (240 + q3) 244).
      { apply andb_true_iff. rewrite !Z.leb_le. lia. }
      apply andb_true_iff. rewrite !Z.leb_le. lia. }
  replace (cont (128 + m2)) with true.
  2:{ symmetry. unfold cont. apply andb_true_iff. rewrite !Z.leb_le. lia. }
  replace (cont (128 + m)) with true.
  2:{ symmetry. unfold cont. apply andb_true_iff. rewrite !Z.leb_le. lia. }
  cbn [andb].
  replace ((((240 + q3 - 240) * 64 + (128 + m3 - 128)) * 64 + (128 + m2 - 128)) * 64
           + (128 + m - 128)) with c by lia.
  reflexivity.
Qed.

Lemma utf8_decode_encoded (s : pystr) :
  forallb code_point s = true ->
  forall pos bs, utf8_encode_from pos s = Ok bs ->
    (forall pos', utf8_decode_from pos' bs = Ok s) /\ Forall (fun b => 0 <= b < 256) bs.
Proof.
  induction s as [|c s IH]; intros Hs pos bs H.
  - injection H as <-. split; [reflexivity|constructor].
  - cbn [forallb] in Hs. apply andb_prop in Hs as [Hc Hs].
    cbn [utf8_encode_from] in H.
    destruct (utf8_encode_char c) as [enc|] eqn:He; [|discriminate].
    destruct (utf8_encode_from (S pos) s) as [r|e] eqn:Hr; [|discriminate].
    cbn [bind] in H. injection H as <-.
    destruct (IH Hs _ _ Hr) as [Hd Hb].
    split.
    + intros pos'. destruct (decode_encoded_char c enc Hc He pos' r) as (p & -> & _).
      now rewrite Hd.
    + apply Forall_app. split; [|exact Hb].
      now destruct (decode_encoded_char c enc Hc He O r) as (p & _ & Hr').
Qed.

(** Text that was decoded from UTF-8 bytes is encoded to the same bytes:
    what [content.decode('utf-8')] accepts of an upload,
    [.encode('utf-8')] writes back byte for byte and never refuses (the
    decoder builds no surrogate and accepts no overlong form). *)
Theorem utf8_decode_then_encode :
  forall (content : bytes) (text : pystr),
    decode_utf8 content = Ok text -> encode_utf8 text = Ok content.
Proof.
  intros content text H. unfold decode_utf8 in H. unfold encode_utf8.
  rewrite (utf8_encode_decoded _ _ _ O _ (le_n _) H). cbn [bind].
  now rewrite map_byte_of_val.
Qed.

(** The bytes [.encode('utf-8')] writes for a string decode to the
    string: the body of an HTML answer, read as UTF-8, is the page. *)
Theorem utf8_encode_then_decode :
  forall (text : pystr) (content : bytes),
    forallb code_point text = true ->
    encode_utf8 text = Ok content -> decode_utf8 content = Ok text.
Proof.
  intros text content Hc H. unfold encode_utf8 in H.
  destruct (utf8_encode_from 0 text) as [r|e] eqn:Hr; [|discriminate].
  cbn [bind] in H. injection H as <-.
  destruct (utf8_decode_encoded text Hc _ _ Hr) as [Hd Hb].
  unfold decode_utf8. rewrite map_byte_val_of by exact Hb. apply Hd.
Qed.

Lemma utf8_decode_then_encode_witness :
  decode_utf8 [x63; xc3; xa9; xe2; x82; xac; xf0; x9f; x98; x80] = Ok [99; 233; 8364; 128512]
  /\ encode_utf8 [99; 233; 8364; 128512]
     = Ok [x63; xc3; xa9; xe2; x82; xac; xf0; x9f; x98; x80].
Proof.
  split; [reflexivity|].
  apply (utf8_decode_then_encode [x63; xc3; xa9; xe2; x82; xac; xf0; x9f; x98; x80]
           [99; 233; 8364; 128512]).
  reflexivity.
Defined.

Lemma utf8_encode_then_decode_witness :
  forallb code_point [99; 233; 8364; 128512] = true
  /\ decode_utf8 [x63; xc3; xa9; xe2; x82; xac; xf0; x9f; x98; x80] = Ok [99; 233; 8364; 128512].
Proof.
  split; [reflexivity|].
  apply (utf8_encode_then_decode [99; 233; 8364; 128512]
           [x63; xc3; xa9; xe2; x82; xac; xf0; x9f; x98; x80]); reflexivity.
Defined.

(* ================================================================== *)
(** * [os.path.splitext]: root and extension *)

(** [rfind]: either the character is absent and the answer is [found], or
    the text splits at its last occurrence. *)
Lemma rfind_from_spec (c : Z) (s : pystr) :
  forall i found,
    (~ In c s /\ rfind_from c s i found = found)
    \/ exists a b, s = a ++ c :: b /\ ~ In c b
                   /\ rfind_from c s i found = i + Z.of_nat (length a).
Proof.
  induction s as [|x s IH]; intros i found.
  - left. split; [intros []|reflexivity].
  - cbn [rfind_from].
    destruct (IH (i + 1) (if x =? c then i else found)) as [[Hn Hr] | (a & b & -> & Hb & Hr)].
    + destruct (Z.eqb_spec x c) as [->|Hx].
      * right. exists [], s. cbn [app length]. rewrite Hr. repeat split; auto. lia.
      * left. split; [|exact Hr]. intros [Hin|Hin]; auto.
    + right. exists (x :: a), b. cbn [app length]. rewrite Hr. repeat split; auto. lia.
Qed.

Lemma in_skipn {A} (x : A) (n : nat) (l : list A) : In x (skipn n l) -> In x l.
Proof. intros H. rewrite <- (firstn_skipn n l). apply in_or_app. now right. Qed.

Lemma not_in_plain (e : pystr) : ~ In (ch ".") e -> ~ In (ch "/") e -> plain e = true.
Proof.
  intros Hd Hs. unfold plain. apply forallb_forall. intros c Hc.
  apply negb_true_iff, orb_false_iff. split; apply Z.eqb_neq; intros ->; auto.
Qed.

(** [os.path.splitext] cuts a path in two without losing a character:
    root and extension joined give the path back.  The extension is empty,
    or a dot followed by characters that are neither dots nor slashes, and
    then the root holds a character that is not a dot (a name made of
    leading dots only has no extension). *)
Theorem splitext_root_and_extension :
  forall p : pystr,
    fst (splitext p) ++ snd (splitext p) = p
    /\ (snd (splitext p) = []
        \/ exists e, snd (splitext p) = ch "." :: e /\ plain e = true
                     /\ has_non_dot (fst (splitext p)) = true).
Proof.
  intros p. unfold splitext, rfind.
  destruct ((rfind_from (ch "/") p 0 (-1) <? rfind_from (ch ".") p 0 (-1))
            && has_non_dot (slice p (rfind_from (ch "/") p 0 (-1) + 1)
                              (rfind_from (ch ".") p 0 (-1)))) eqn:Hc;
    cbn [fst snd]; [|split; [apply app_nil_r|now left]].
  apply andb_prop in Hc as [Hlt Hnd]. apply Z.ltb_lt in Hlt.
  split; [apply firstn_skipn|]. right.
  destruct (rfind_from_spec (ch ".") p 0 (-1)) as [[_ Hr] | (a & b & Hp & Hb & Hr)].
  { rewrite Hr in Hlt.
    destruct (rfind_from_spec (ch "/") p 0 (-1)) as [[_ Hr'] | (a' & b' & _ & _ & Hr')]; lia. }
  rewrite Hr in *. cbn [Z.add] in *. rewrite Nat2Z.id.
  assert (Hskip : skipn (length a) p = ch "." :: b).
  { rewrite Hp, skipn_app, Nat.sub_diag, skipn_all. reflexivity. }
  assert (Hfirst : firstn (length a) p = a).
  { rewrite Hp, firstn_app, Nat.sub_diag, firstn_all. cbn [firstn]. apply app_nil_r. }
  rewrite Hskip, Hfirst. exists b. split; [reflexivity|]. split.
  - apply not_in_plain; [exact Hb|].
    destruct (rfind_from_spec (ch "/") p 0 (-1)) as [[Hn _] | (a' & b' & Hp' & Hb' & Hr')].
    + intros Hin. apply Hn. rewrite Hp. apply in_or_app. right. now right.
    + rewrite Hr' in Hlt. cbn [Z.add] in Hlt.
      assert (Hb'' : b' = skipn (S (length a')) p).
      { rewrite Hp', skipn_app.
        replace (S (length a') - length a')%nat with 1%nat by lia.
        rewrite skipn_all2 by lia. reflexivity. }
      assert (Hbb : b = skipn (S (length a)) p).
      { rewrite Hp, skipn_app.
        replace (S (length a) - length a)%nat with 1%nat by lia.
        rewrite skipn_all2 by lia. reflexivity. }
      intros Hin. apply Hb'. rewrite Hb''. rewrite Hbb in Hin.
      replace (S (length a)) with ((length a - length a') + S (length a'))%nat in Hin by lia.
      rewrite <- skipn_skipn in Hin. now apply in_skipn in Hin.
  - unfold slice in Hnd.
    assert (Hgen : forall (l : pystr) n k, has_non_dot (firstn n (skipn k l)) = true ->
               has_non_dot (firstn (k + n) l) = true).
    { clear. intros l n k. revert l. induction k as [|k IH]; intros l H; [exact H|].
      destruct l as [|x l]; [now destruct n|].
      cbn [skipn] in H. cbn [Nat.add firstn has_non_dot].
      destruct (negb (x =? ch ".")); [reflexivity|]. now apply IH. }
    apply Hgen in Hnd.
    assert (Hmono : forall (l : pystr) n m, (n <= m)%nat -> has_non_dot (firstn n l) = true ->
                has_non_dot (firstn m l) = true).
    { clear. intros l n. revert l. induction n as [|n IH]; intros l m Hm H; [discriminate|].
      destruct l as [|x l]; [discriminate|]. destruct m as [|m]; [lia|].
      cbn [firstn has_non_dot] in *. destruct (negb (x =? ch ".")); [reflexivity|].
      apply (IH l m); [lia|exact H]. }
    rewrite <- Hfirst. eapply Hmono; [|exact Hnd].
    destruct (rfind_from_spec (ch "/") p 0 (-1)) as [[_ Hr'] | (a' & b' & _ & _ & Hr')];
      rewrite Hr' in *; lia.
Qed.

Example splitext_two_dots : splitext (str "archive.tar.gz") = (str "archive.tar", str ".gz").
Proof. reflexivity. Qed.

Example splitext_dots_only : splitext (str "...") = (str "...", []).
Proof. reflexivity. Qed.

(* ================================================================== *)
(** * The formatter service: where an error is located *)

Lemma w_end_located (rest : pystr) :
  forall idx idx' rest',
    w_end idx rest = (idx', rest') -> (idx' + length rest' = idx + length rest)%nat.
Proof.
  induction rest as [|c r IH]; intros idx idx' rest' H; cbn [w_end] in H.
  - now injection H as <- <-.
  - destruct (is_ws c).
    + apply IH in H. cbn [length]. lia.
    + now injection H as <- <-.
Qed.

Lemma w_end_bounds (rest : pystr) (idx idx' : nat) (rest' : pystr) :
  w_end idx rest = (idx', rest') -> (idx <= idx' /\ idx' + length rest' = idx + length rest)%nat.
Proof.
  intros H. pose proof (w_end_length _ _ _ _ H). pose proof (w_end_located _ _ _ _ H). lia.
Qed.

Lemma w_end_nonempty (rest : pystr) :
  forall idx, forallb is_ws rest = false ->
  exists idx' c r, w_end idx rest = (idx', c :: r).
Proof.
  induction rest as [|c r IH]; intros idx Hws; [discriminate|].
  cbn [w_end]. cbn [forallb] in Hws.
  destruct (is_ws c) eqn:Hc; [|eauto].
  cbn [andb] in Hws. now apply IH.
Qed.

Section Located.
Context {PF : PyFloat}.
Variable s : pystr.

Lemma scanstring_loop_located (n : nat) :
  forall rest begin chunks end_, (length rest <= n)%nat ->
    (begin <= end_)%nat -> (end_ + length rest = length s)%nat ->
    located s (scanstring_loop s begin chunks end_ rest).
Proof.
  induction n as [|n IH]; intros rest begin chunks end_ Hn Hb He.
  - destruct rest; [cbn; lia|cbn in Hn; lia].
  - destruct rest as [|c r]; [cbn; lia|]. cbn [length] in Hn, He.
    cbn [scanstring_loop].
    repeat match goal with
           | |- located s (if ?b then _ else _) => destruct b
           | |- located s (match ?l with [] => _ | _ :: _ => _ end) =>
               destruct l; cbn [length] in *
           | |- located s (match hex4 ?a ?b ?c ?d with Some _ => _ | None => _ end) =>
               destruct (hex4 a b c d)
           | |- located s (match backslash ?a with Some _ => _ | None => _ end) =>
               destruct (backslash a)
           | |- located s (let x := _ in _) => cbv zeta
           | |- located s (Raise _) => cbn; lia
           | |- located s (Ok _) => cbn; lia
           | |- located s (scanstring_loop _ _ _ _ _) => apply IH; cbn [length]; lia
           end.
Qed.

Lemma scanstring_located (end_ : nat) (rest : pystr) :
  (end_ + length rest = length s)%nat -> located s (scanstring s end_ rest).
Proof. intros H. apply (scanstring_loop_located (length rest)); lia. Qed.

Lemma expecting_value_located {A} (res : outcome Json.exn (A * nat * pystr)) :
  located s res -> located s (expecting_value s res).
Proof. destruct res as [[[v e] r]|[]]; cbn; auto. Qed.

Section Loops.
Variable scan_once : nat -> pystr -> result.
Hypothesis scan_once_located :
  forall idx rest, (idx + length rest = length s)%nat -> located s (scan_once idx rest).

Lemma JSONArray_loop_located (n : nat) :
  forall values end_ rest, (end_ + length rest = length s)%nat ->
    located s (JSONArray_loop s scan_once n values end_ rest).
Proof.
  induction n as [|n IH]; intros values end_ rest He; [exact I|].
  cbn [JSONArray_loop].
  pose proof (expecting_value_located _ (scan_once_located end_ rest He)) as Hv.
  destruct (expecting_value s (scan_once end_ rest)) as [[[value end1] r1]|e]; [|exact Hv].
  cbn in Hv. cbn [bind].
  destruct (w_end end1 r1) as [end2 r2] eqn:Hw2. apply w_end_located in Hw2.
  destruct r2 as [|nextchar r3]; [cbn in *; lia|]. cbn [length] in Hw2.
  destruct (nextchar =? ch "]"); [cbn; lia|].
  destruct (nextchar =? ch ","); [|cbn; lia].
  destruct (w_end (S end2) r3) as [end4 r4] eqn:Hw4. apply w_end_located in Hw4.
  apply IH. lia.
Qed.

Lemma JSONArray_located (end_ : nat) (rest : pystr) :
  (end_ + length rest = length s)%nat -> located s (JSONArray s scan_once end_ rest).
Proof.
  intros He. unfold JSONArray.
  destruct (w_end end_ rest) as [end1 r1] eqn:Hw. apply w_end_located in Hw.
  destruct r1 as [|nextchar r2].
  - apply JSONArray_loop_located. lia.
  - destruct (nextchar =? ch "]"); [cbn in *; lia|].
    apply JSONArray_loop_located. lia.
Qed.

Lemma JSONObject_loop_located (n : nat) :
  forall pairs end_ rest, (end_ + length rest = length s)%nat ->
    located s (JSONObject_loop s scan_once n pairs end_ rest).
Proof.
  induction n as [|n IH]; intros pairs end_ rest He; [exact I|].
  cbn [JSONObject_loop].
  pose proof (scanstring_located end_ rest He) as Hk.
  destruct (scanstring s end_ rest) as [[[key end1] r1]|e]; [|exact Hk].
  cbn in Hk. cbn [bind].
  destruct (w_end end1 r1) as [end2 r2] eqn:Hw2. apply w_end_located in Hw2.
  destruct r2 as [|colon r3]; [cbn in *; lia|]. cbn [length] in Hw2.
  destruct (colon =? ch ":"); [|cbn; lia].
  destruct (w_end (S end2) r3) as [end4 r4] eqn:Hw4. apply w_end_located in Hw4.
  pose proof (expecting_value_located _ (scan_once_located end4 r4 ltac:(lia))) as Hv.
  destruct (expecting_value s (scan_once end4 r4)) as [[[value end5] r5]|e]; [|exact Hv].
  cbn in Hv. cbn [bind].
  destruct (w_end end5 r5) as [end6 r6] eqn:Hw6. apply w_end_located in Hw6.
  destruct r6 as [|nextchar r7]; [cbn in *; lia|]. cbn [length] in Hw6.
  destruct (nextchar =? ch "}"); [cbn; lia|].
  destruct (nextchar =? ch ","); [|cbn; lia].
  destruct (w_end (S end6) r7) as [end8 r8] eqn:Hw8. apply w_end_located in Hw8.
  destruct r8 as [|q r9]; [cbn in *; lia|]. cbn [length] in Hw8.
  destruct (q =? DQUOTE); [|cbn; lia].
  apply IH. lia.
Qed.

Lemma JSONObject_located (end_ : nat) (rest : pystr) :
  (end_ + length rest = length s)%nat -> located s (JSONObject s scan_once end_ rest).
Proof.
  intros He. unfold JSONObject.
  destruct (w_end end_ rest) as [end1 r1] eqn:Hw. apply w_end_located in Hw.
  destruct r1 as [|nextchar r2]; [cbn in *; lia|]. cbn [length] in Hw.
  destruct (nextchar =? DQUOTE).
  - apply JSONObject_loop_located. lia.
  - destruct (nextchar =? ch "}"); cbn; lia.
Qed.

End Loops.

Lemma scan_once_located (fuel : nat) :
  forall idx rest, (idx + length rest = length s)%nat -> located s (scan_once s fuel idx rest).
Proof.
  induction fuel as [|fuel IH]; intros idx rest He; [exact I|].
  cbn [scan_once].
  destruct rest as [|nextchar r]; [cbn in *; lia|]. cbn [length] in He.
  destruct (nextchar =? DQUOTE).
  { pose proof (scanstring_located (S idx) r ltac:(lia)) as Hs.
    destruct (scanstring s (S idx) r) as [[[v e] r']|e]; exact Hs. }
  destruct (nextchar =? ch "{"); [apply (JSONObject_located _ IH); lia|].
  destruct (nextchar =? ch "["); [apply (JSONArray_located _ IH); lia|].
  assert (Hskip : forall p k, startswith p (nextchar :: r) = true -> length p = k ->
             (idx + k + length (skipn k (nextchar :: r)) = length s)%nat).
  { intros p k Hp Hk. apply startswith_length in Hp. rewrite length_skipn. cbn [length] in *. lia. }
  destruct (startswith (str "null") (nextchar :: r)) eqn:H1; [eapply Hskip; eauto|].
  destruct (startswith (str "true") (nextchar :: r)) eqn:H2; [eapply Hskip; eauto|].
  destruct (startswith (str "false") (nextchar :: r)) eqn:H3; [eapply Hskip; eauto|].
  destruct (match_number (nextchar :: r)) as [[[[integer frac] exp] r']|] eqn:Hm.
  { apply match_number_length in Hm. cbn [length] in Hm.
    destruct frac, exp; cbn [located length]; lia. }
  destruct (startswith (str "NaN") (nextchar :: r)) eqn:H4; [eapply Hskip; eauto|].
  destruct (startswith (str "Infinity") (nextchar :: r)) eqn:H5; [eapply Hskip; eauto|].
  destruct (startswith (str "-Infinity") (nextchar :: r)) eqn:H6; [eapply Hskip; eauto|].
  cbn. lia.
Qed.

(** The position of an error of [decode] is inside the document. *)
Lemma decode_error_position (msg doc : pystr) (pos : nat) :
  decode s = Raise (JSONDecodeError msg doc pos) -> (pos <= length s)%nat.
Proof.
  unfold decode, raw_decode.
  destruct (w_end 0 s) as [idx rest] eqn:Hw. apply w_end_located in Hw.
  pose proof (expecting_value_located _ (scan_once_located (S (length s)) idx rest ltac:(lia)))
    as Hv.
  destruct (expecting_value s (scan_once s (S (length s)) idx rest)) as [[[obj end_] r]|e'].
  - cbn in Hv. cbn [bind]. destruct (w_end end_ r) as [end' r'] eqn:Hw'.
    apply w_end_located in Hw'. destruct r'; [discriminate|].
    intros H. injection H as _ _ <-. lia.
  - cbn [bind]. intros H. injection H as ->. exact Hv.
Qed.

End Located.

Lemma loads_error_position {PF : PyFloat} (s msg doc : pystr) (pos : nat) :
  loads s = Raise (JSONDecodeError msg doc pos) -> (pos <= length s)%nat.
Proof.
  unfold loads. destruct (startswith [65279] s).
  - intros H. injection H as _ _ <-. lia.
  - apply decode_error_position.
Qed.

Lemma count_app (c : Z) (a b : pystr) : count c (a ++ b) = (count c a + count c b)%nat.
Proof. unfold count. now rewrite filter_app, length_app. Qed.

Lemma count_firstn (c : Z) (n : nat) (l : pystr) : (count c (firstn n l) <= count c l)%nat.
Proof. rewrite <- (firstn_skipn n l) at 2. rewrite count_app. lia. Qed.

Lemma count_newline_replace (text : pystr) :
  count NEWLINE (replace text (str "'") [DQUOTE]) = count NEWLINE text.
Proof.
  rewrite replace_quotes_map. unfold count.
  induction text as [|c t IH]; [reflexivity|].
  cbn [map filter].
  destruct (Z.eqb_spec c (ch "'")) as [->|Hc]; [cbn; exact IH|].
  destruct (NEWLINE =? c); cbn [length]; now rewrite IH.
Qed.

Lemma length_replace (text : pystr) :
  length (replace text (str "'") [DQUOTE]) = length text.
Proof. rewrite replace_quotes_map. apply length_map. Qed.

Lemma rfind_from_ge (c : Z) (l : pystr) :
  forall i found, found <= rfind_from c l i found \/ i <= rfind_from c l i found.
Proof.
  induction l as [|x l IH]; intros i found; cbn [rfind_from]; [lia|].
  destruct (IH (i + 1) (if x =? c then i else found)) as [H|H]; destruct (x =? c); lia.
Qed.

Lemma no_single_quote_replace (t : pystr) :
  has_single_quote t = false -> replace t (str "'") [DQUOTE] = t.
Proof.
  intros Hq. apply replace_absent. intros Hin.
  assert (Ht : has_single_quote t = true).
  { apply existsb_exists. exists (ch "'"). split; [exact Hin|reflexivity]. }
  congruence.
Qed.

Lemma ws_no_single_quote (t : pystr) : forallb is_ws t = true -> has_single_quote t = false.
Proof.
  intros H. unfold has_single_quote.
  induction t as [|c t IH]; [reflexivity|].
  cbn [existsb forallb] in *. apply andb_prop in H as [Hc Ht]. rewrite (IH Ht), orb_false_r.
  destruct (Z.eqb_spec (ch "'") c) as [<-|]; [discriminate Hc|reflexivity].
Qed.

Lemma lineno_end (doc : pystr) : lineno doc (length doc) = Z.of_nat (count NEWLINE doc) + 1.
Proof. unfold lineno. now rewrite firstn_all. Qed.

Lemma colno_end (doc : pystr) : colno doc (length doc) = Z.of_nat (length doc) - rfind NEWLINE doc.
Proof. unfold colno. now rewrite firstn_all. Qed.

(** ** Characters that are not control characters *)

Lemma visible_count (l : pystr) : forallb visible l = true -> count NEWLINE l = O.
Proof.
  unfold count. induction l as [|c l IH]; [reflexivity|].
  cbn [forallb filter]. intros H. apply andb_prop in H as [Hc Hl].
  destruct (Z.eqb_spec NEWLINE c) as [<-|]; [discriminate Hc|]. now apply IH.
Qed.

Lemma visible_not_in (l : pystr) : forallb visible l = true -> ~ In NEWLINE l.
Proof.
  intros H Hin. rewrite forallb_forall in H. apply H in Hin. discriminate Hin.
Qed.

Lemma visible_firstn (n : nat) (l : pystr) :
  forallb visible l = true -> forallb visible (firstn n l) = true.
Proof.
  intros H. rewrite forallb_forall in *. intros c Hc. apply H.
  rewrite <- (firstn_skipn n l). apply in_or_app. now left.
Qed.

(** In a text of one line the line is 1 and the column is the position
    counted from 1. *)
Lemma one_line_location (doc : pystr) (pos : nat) :
  forallb visible doc = true -> lineno doc pos = 1 /\ colno doc pos = Z.of_nat pos + 1.
Proof.
  intros H. pose proof (visible_firstn pos doc H) as Hf. split.
  - unfold lineno. now rewrite (visible_count _ Hf).
  - unfold colno, rfind. rewrite rfind_from_absent by now apply visible_not_in. lia.
Qed.

Lemma string_char_cases (c : Z) :
  string_char c = true ->
  (c =? DQUOTE) = false /\ (c =? BACKSLASH) = false /\ is_control c = false /\ visible c = true.
Proof.
  unfold string_char, visible, is_control. intros H.
  apply andb_prop in H as [H Hb]. apply andb_prop in H as [H Hq].
  apply negb_true_iff in Hb, Hq. apply Z.leb_le in H.
  assert (Hc : (0 <=? c) && (c <=? 31) = false).
  { apply andb_false_iff. right. apply Z.leb_gt. lia. }
  now rewrite Hc.
Qed.

Lemma string_chars_visible (a : pystr) : forallb string_char a = true -> forallb visible a = true.
Proof.
  induction a as [|c a IH]; [reflexivity|]. cbn [forallb]. intros H.
  apply andb_prop in H as [Hc Ha]. apply string_char_cases in Hc as (_ & _ & _ & ->).
  now rewrite IH.
Qed.

Lemma control_not_quote (c : Z) :
  is_control c = true -> (c =? DQUOTE) = false /\ (c =? BACKSLASH) = false /\ (c =? ch "'") = false.
Proof.
  unfold is_control. intros H. apply andb_prop in H as [_ H]. apply Z.leb_le in H.
  repeat split; apply Z.eqb_neq; intros ->; cbv in H; now apply H.
Qed.

(** The scanner of strings passes over characters that stand for
    themselves. *)
Lemma scanstring_loop_plain (s a : pystr) :
  forallb string_char a = true ->
  forall begin chunks end_ rest,
    scanstring_loop s begin chunks end_ (a ++ rest)
    = scanstring_loop s begin (chunks ++ a) (end_ + length a) rest.
Proof.
  induction a as [|c a IH]; intros Ha begin chunks end_ rest.
  - cbn [app length]. now rewrite app_nil_r, Nat.add_0_r.
  - cbn [forallb] in Ha. apply andb_prop in Ha as [Hc Ha].
    apply string_char_cases in Hc as (Hq & Hb & Hc & _).
    cbn [app scanstring_loop]. rewrite Hq, Hb, Hc, (IH Ha).
    rewrite <- app_assoc. cbn [app length]. f_equal. lia.
Qed.

Section FormatterErrors.
Context {PF : PyFloat}.

(** What a success of the handler says about the text. *)
Lemma format_json_success (text : pystr) (indent : option Z) (out : pystr) :
  format_json {| text := text; indent := indent |} = Success out ->
  exists parsed,
    loads (replace text (str "'") [DQUOTE]) = Ok parsed /\ out = dumps parsed indent.
Proof.
  unfold format_json. cbv zeta. cbn [JsonFormatter.text JsonFormatter.indent json_loads
                                     json_dumps cpython_json].
  destruct (loads (replace text (str "'") [DQUOTE])) as [parsed|e]; cbn [bind].
  - intros H. injection H as <-. eauto.
  - destruct e; discriminate.
Qed.

(** The line and column of a failure point into the text that was sent:
    the line is no more than the number of its lines, the column no more
    than one past its length. *)
Theorem error_location_is_inside_the_text :
  forall (text : pystr) (indent : option Z) (msg : pystr) (line column : Z),
    format_json {| text := text; indent := indent |} = Failure msg (Some line) (Some column) ->
    1 <= line <= Z.of_nat (count NEWLINE text) + 1
    /\ 1 <= column <= Z.of_nat (length text) + 1.
Proof.
  intros text indent msg line column H.
  unfold format_json in H. cbv zeta in H.
  cbn [JsonFormatter.text JsonFormatter.indent json_loads json_dumps cpython_json] in H.
  destruct (loads (replace text (str "'") [DQUOTE])) as [parsed|e] eqn:Hl; cbn [bind] in H;
    [discriminate|].
  destruct (loads_raises _ _ Hl) as (m & pos & ->).
  apply loads_error_position in Hl. rewrite length_replace in Hl.
  injection H as _ <- <-.
  split; split; try apply lineno_pos; try apply colno_pos.
  - unfold lineno. apply Z.add_le_mono_r, Nat2Z.inj_le.
    rewrite <- (count_newline_replace text). apply count_firstn.
  - unfold colno, rfind.
    match goal with
    | |- _ - rfind_from ?c ?l 0 (-1) <= _ => destruct (rfind_from_ge c l 0 (-1)); lia
    end.
Qed.

(** Text that is empty, or holds nothing but JSON white space (space,
    tab, newline, carriage return), is answered with the failure
    [Expecting value], located at the end of the text: on its last line,
    one column past its last character. *)
Theorem blank_text_expects_value_at_end :
  forall (text : pystr) (indent : option Z),
    forallb is_ws text = true ->
    format_json {| text := text; indent := indent |}
    = Failure (str "JSON Error: Expecting value")
        (Some (Z.of_nat (count NEWLINE text) + 1))
        (Some (Z.of_nat (length text) - rfind NEWLINE text)).
Proof.
  intros text indent Hws.
  rewrite <- lineno_end, <- colno_end.
  apply (format_json_decode_error (L := cpython_json) {| text := text; indent := indent |}
           (str "Expecting value") text (length text)).
  cbn [JsonFormatter.text json_loads cpython_json].
  rewrite (no_single_quote_replace text (ws_no_single_quote text Hws)).
  unfold loads.
  replace (startswith [65279] text) with false.
  2:{ destruct text as [|c t]; [reflexivity|]. cbn [forallb startswith] in *.
      apply andb_prop in Hws as [Hc _]. rewrite andb_true_r.
      destruct (Z.eqb_spec 65279 c) as [<-|]; [discriminate Hc|reflexivity]. }
  unfold decode, raw_decode.
  pose proof (w_end_ws text Hws O [] I) as Hw. rewrite app_nil_r in Hw. rewrite Hw.
  reflexivity.
Qed.

(** Text that starts with a byte order mark (U+FEFF) is answered with a
    failure of its own, at line 1, column 1, whatever follows the mark. *)
Theorem byte_order_mark_is_rejected :
  forall (text : pystr) (indent : option Z),
    format_json {| text := 0xFEFF :: text; indent := indent |}
    = Failure (str "JSON Error: Unexpected UTF-8 BOM (decode using utf-8-sig)") (Some 1) (Some 1).
Proof.
  intros text indent.
  set (doc := replace (0xFEFF :: text) (str "'") [DQUOTE]).
  assert (Hd : loads doc
               = Raise (JSONDecodeError (str "Unexpected UTF-8 BOM (decode using utf-8-sig)") doc O)).
  { unfold loads, doc. rewrite replace_quotes_map. reflexivity. }
  now rewrite (format_json_decode_error (L := cpython_json)
                 {| text := 0xFEFF :: text; indent := indent |} _ doc O Hd).
Qed.

(** A control character written as itself inside a string (a line break,
    a tab) makes the text a failure: [Invalid control character at], at
    line 1 and the column of that character, whatever follows it. *)
Theorem control_character_in_string_is_rejected :
  forall (a : pystr) (c : Z) (tail : pystr) (indent : option Z),
    forallb string_char a = true -> has_single_quote a = false -> is_control c = true ->
    format_json {| text := DQUOTE :: a ++ c :: tail; indent := indent |}
    = Failure (str "JSON Error: Invalid control character at")
        (Some 1) (Some (Z.of_nat (length a) + 2)).
Proof.
  intros a c tail indent Ha Hqa Hc.
  destruct (control_not_quote c Hc) as (Hq & Hb & Hs).
  set (tail' := replace tail (str "'") [DQUOTE]).
  assert (Hdoc : replace (DQUOTE :: a ++ c :: tail) (str "'") [DQUOTE]
                 = DQUOTE :: a ++ c :: tail').
  { unfold tail'. rewrite !replace_quotes_map. cbn [map]. f_equal.
    rewrite map_app. cbn [map]. rewrite Hs.
    f_equal. rewrite <- replace_quotes_map. now apply no_single_quote_replace. }
  set (doc := DQUOTE :: a ++ c :: tail') in *.
  assert (Hl : loads doc
               = Raise (JSONDecodeError (str "Invalid control character at") doc (S (length a)))).
  { assert (Hs1 : forall fuel,
               scan_once doc (S fuel) O doc
               = Raise (JSONDecodeError (str "Invalid control character at") doc (S (length a)))).
    { intros fuel. unfold doc at 2. rewrite scan_once_string. unfold scanstring.
      rewrite (scanstring_loop_plain doc a Ha). cbn [scanstring_loop]. rewrite Hq, Hb, Hc.
      reflexivity. }
    unfold loads. change (startswith [65279] doc) with false. cbv iota.
    unfold decode, raw_decode. change (w_end O doc) with (O, doc). cbv beta iota.
    rewrite Hs1. reflexivity. }
  rewrite (format_json_decode_error (L := cpython_json)
             {| text := DQUOTE :: a ++ c :: tail; indent := indent |}
             (str "Invalid control character at") doc (S (length a))).
  2:{ cbn [JsonFormatter.text json_loads cpython_json]. now rewrite Hdoc. }
  assert (Hfirst : firstn (S (length a)) doc = DQUOTE :: a).
  { unfold doc. cbn [firstn]. f_equal. rewrite firstn_app, Nat.sub_diag, firstn_all. cbn [firstn].
    apply app_nil_r. }
  assert (Hv : forallb visible (DQUOTE :: a) = true).
  { cbn [forallb]. now rewrite (string_chars_visible a Ha). }
  unfold lineno, colno, rfind. rewrite Hfirst.
  rewrite (visible_count _ Hv), (rfind_from_absent _ _ _ _ (visible_not_in _ Hv)).
  replace (Z.of_nat 0 + 1) with 1 by lia.
  replace (Z.of_nat (S (length a)) - -1) with (Z.of_nat (length a) + 2) by lia.
  reflexivity.
Qed.

(** The scanner on a string literal of plain characters. *)
Lemma scan_once_string_literal (doc a tail : pystr) (fuel : nat) :
  forallb string_char a = true ->
  scan_once doc (S fuel) O (DQUOTE :: a ++ DQUOTE :: tail) = Ok (PyStr a, (length a + 2)%nat, tail).
Proof.
  intros Ha. rewrite scan_once_string. unfold scanstring.
  rewrite (scanstring_loop_plain doc a Ha). cbn [scanstring_loop bind app].
  change (DQUOTE =? DQUOTE) with true. cbv iota.
  replace (S (1 + length a)) with (length a + 2)%nat by lia. reflexivity.
Qed.

Lemma loads_string_alone (a : pystr) :
  forallb string_char a = true -> loads (DQUOTE :: a ++ [DQUOTE]) = Ok (PyStr a).
Proof.
  intros Ha. set (txt := DQUOTE :: a ++ [DQUOTE]).
  pose proof (scan_once_string_literal txt a [] (length txt) Ha) as He. fold txt in He.
  unfold loads. change (startswith [65279] txt) with false. cbv iota.
  unfold decode, raw_decode. change (w_end O txt) with (O, txt). cbv beta iota.
  rewrite He. reflexivity.
Qed.

(** A string that holds an apostrophe is valid JSON, and the handler
    rejects it: the substitution turns the apostrophe into the quote that
    ends the string, and what follows is [Extra data], on line 1, at a
    column after that quote. *)
Theorem apostrophe_in_string_is_rejected :
  forall (a b : pystr) (indent : option Z),
    forallb string_char a = true -> has_single_quote a = false ->
    forallb string_char b = true ->
    loads (DQUOTE :: a ++ ch "'" :: b ++ [DQUOTE]) = Ok (PyStr (a ++ ch "'" :: b))
    /\ exists column,
         format_json {| text := DQUOTE :: a ++ ch "'" :: b ++ [DQUOTE]; indent := indent |}
         = Failure (str "JSON Error: Extra data") (Some 1) (Some column)
         /\ Z.of_nat (length a) + 3 <= column <= Z.of_nat (length a + length b) + 3.
Proof.
  intros a b indent Ha Hqa Hb. split.
  - replace (DQUOTE :: a ++ ch "'" :: b ++ [DQUOTE])
      with (DQUOTE :: (a ++ ch "'" :: b) ++ [DQUOTE])
      by (now rewrite <- app_assoc).
    apply loads_string_alone. rewrite forallb_app, Ha. cbn [forallb]. now rewrite Hb.
  - set (text := DQUOTE :: a ++ ch "'" :: b ++ [DQUOTE]).
    set (b' := map (fun c => if c =? ch "'" then DQUOTE else c) b).
    assert (Hdoc : replace text (str "'") [DQUOTE] = DQUOTE :: a ++ DQUOTE :: b' ++ [DQUOTE]).
    { unfold text. rewrite replace_quotes_map. cbn [map]. f_equal.
      rewrite map_app. cbn [map]. rewrite map_app. cbn [map].
      change (if ch "'" =? ch "'" then DQUOTE else ch "'") with DQUOTE.
      change (if DQUOTE =? ch "'" then DQUOTE else DQUOTE) with DQUOTE.
      f_equal. rewrite <- replace_quotes_map. now apply no_single_quote_replace. }
    set (doc := DQUOTE :: a ++ DQUOTE :: b' ++ [DQUOTE]) in *.
    assert (Hb' : forallb visible b' = true).
    { unfold b'. pose proof (string_chars_visible b Hb) as Hvb.
      rewrite forallb_forall in *. intros x Hx. apply in_map_iff in Hx as (y & <- & Hy).
      destruct (y =? ch "'"); [reflexivity|now apply Hvb]. }
    assert (Hv : forallb visible doc = true).
    { unfold doc. cbn [forallb]. rewrite forallb_app, (string_chars_visible a Ha).
      cbn [forallb]. rewrite forallb_app, Hb'. reflexivity. }
    assert (Hl : exists pos,
               loads doc = Raise (JSONDecodeError (str "Extra data") doc pos)
               /\ (length a + 2 <= pos <= length a + length b + 2)%nat).
    { pose proof (scan_once_string_literal doc a (b' ++ [DQUOTE]) (length doc) Ha) as Hs1.
      fold doc in Hs1.
      unfold loads. change (startswith [65279] doc) with false. cbv iota.
      unfold decode, raw_decode. change (w_end O doc) with (O, doc). cbv beta iota.
      rewrite Hs1. cbn [bind expecting_value].
      destruct (w_end (length a + 2) (b' ++ [DQUOTE])) as [idx' r] eqn:Hw.
      pose proof (w_end_bounds _ _ _ _ Hw) as [Hge Hlen].
      destruct (w_end_nonempty (b' ++ [DQUOTE]) (length a + 2)) as (i & x & r' & Hw').
      { rewrite forallb_app. cbn. apply andb_false_r. }
      rewrite Hw in Hw'. injection Hw' as -> ->.
      exists i. split; [reflexivity|].
      rewrite length_app in Hlen. unfold b' in Hlen. rewrite length_map in Hlen.
      cbn [length] in Hlen. lia. }
    destruct Hl as (pos & Hl & Hpos).
    destruct (one_line_location doc pos Hv) as [Hline Hcol].
    exists (Z.of_nat pos + 1). split; [|lia].
    rewrite (format_json_decode_error (L := cpython_json) {| text := text; indent := indent |}
               (str "Extra data") doc pos).
    + now rewrite Hline, Hcol.
    + cbn [JsonFormatter.text json_loads cpython_json]. now rewrite Hdoc.
Qed.

(* ================================================================== *)
(** * The formatter service: integers *)





End FormatterErrors.

Example format_json_big_integer :
  format_json (L := cpython_json (PF := literal_PyFloat))
    {| text := str "-123456789012345678901234567890"; indent := default_indent |}
  = Success (str "-123456789012345678901234567890").
Proof. reflexivity. Qed.

Lemma error_location_is_inside_the_text_witness :
  format_json (L := cpython_json (PF := literal_PyFloat))
    {| text := [ch "["; ch "1"; ch ","; NEWLINE; ch "x"; ch "]"]; indent := default_indent |}
  = Failure (str "JSON Error: Expecting value") (Some 2) (Some 1)
  /\ 1 <= 2 <= Z.of_nat (count NEWLINE [ch "["; ch "1"; ch ","; NEWLINE; ch "x"; ch "]"]) + 1.
Proof.
  split; [reflexivity|].
  apply (error_location_is_inside_the_text (PF := literal_PyFloat)
           [ch "["; ch "1"; ch ","; NEWLINE; ch "x"; ch "]"] default_indent
           (str "JSON Error: Expecting value") 2 1).
  reflexivity.
Defined.

Lemma blank_text_expects_value_at_end_witness :
  forallb is_ws [ch " "; NEWLINE; ch " "; ch " "] = true
  /\ format_json (L := cpython_json (PF := literal_PyFloat))
       {| text := [ch " "; NEWLINE; ch " "; ch " "]; indent := default_indent |}
     = Failure (str "JSON Error: Expecting value") (Some 2) (Some 3).
Proof.
  split; [reflexivity|].
  apply (blank_text_expects_value_at_end (PF := literal_PyFloat)
           [ch " "; NEWLINE; ch " "; ch " "] default_indent).
  reflexivity.
Defined.

Lemma control_character_in_string_is_rejected_witness :
  forallb string_char (str "ab") = true /\ is_control NEWLINE = true
  /\ format_json (L := cpython_json (PF := literal_PyFloat))
       {| text := DQUOTE :: str "ab" ++ NEWLINE :: str "cd" ++ [DQUOTE];
          indent := default_indent |}
     = Failure (str "JSON Error: Invalid control character at") (Some 1) (Some 4).
Proof.
  split; [reflexivity|]. split; [reflexivity|].
  apply (control_character_in_string_is_rejected (PF := literal_PyFloat)
           (str "ab") NEWLINE (str "cd" ++ [DQUOTE]) default_indent); reflexivity.
Defined.

Lemma apostrophe_in_string_is_rejected_witness :
  forallb string_char (str "it") = true /\ forallb string_char (str "s") = true
  /\ loads (PF := literal_PyFloat) (DQUOTE :: str "it" ++ ch "'" :: str "s" ++ [DQUOTE])
     = Ok (PyStr (str "it" ++ ch "'" :: str "s")).
Proof.
  split; [reflexivity|]. split; [reflexivity|].
  apply (apostrophe_in_string_is_rejected (PF := literal_PyFloat) (str "it") (str "s")
           default_indent); reflexivity.
Defined.

Example format_json_apostrophe :
  format_json (L := cpython_json (PF := literal_PyFloat))
    {| text := DQUOTE :: str "it" ++ ch "'" :: str "s" ++ [DQUOTE]; indent := default_indent |}
  = Failure (str "JSON Error: Extra data") (Some 1) (Some 5).
Proof. reflexivity. Qed.

(* ================================================================== *)
(** * The formatter service: a key written twice *)

Section DictFacts.
Context {PF : PyFloat}.





End DictFacts.

Example format_json_duplicate_key :
  format_json (L := cpython_json (PF := literal_PyFloat))
    {| text := str "{'a': 1, 'b': 2, 'a': 3}"; indent := None |}
  = Success (replace (str "{'a': 3, 'b': 2}") (str "'") [DQUOTE]).
Proof. reflexivity. Qed.

(* ================================================================== *)
(** * The formatter service: lines of the formatted text *)

Lemma escape_char_visible (c : Z) : forallb visible (escape_char c) = true.
Proof.
  unfold escape_char.
  destruct (c =? BACKSLASH); [reflexivity|].
  destruct (c =? DQUOTE); [reflexivity|].
  destruct (c =? 8); [reflexivity|].
  destruct (c =? 12); [reflexivity|].
  destruct (c =? 10); [reflexivity|].
  destruct (c =? 13); [reflexivity|].
  destruct (c =? 9); [reflexivity|].
  destruct (is_control c) eqn:Hc.
  - unfold u_escape. cbn [forallb map].
    assert (Hh : forall n, 0 <= n < 16 -> visible (to_hex_digit n) = true).
    { intros n Hn. unfold to_hex_digit, visible, is_control.
      destruct (Z.ltb_spec n 10); apply negb_true_iff, andb_false_iff; right; apply Z.leb_gt; lia. }
    rewrite !Hh by (apply Z.mod_pos_bound; lia). reflexivity.
  - cbn [forallb]. unfold visible. now rewrite Hc.
Qed.

Lemma basestring_visible (v : pystr) : forallb visible (encode_basestring v) = true.
Proof.
  unfold encode_basestring. cbn [forallb]. change (visible DQUOTE) with true. cbn [andb].
  rewrite forallb_app. cbn [forallb]. change (visible DQUOTE) with true. rewrite andb_true_r.
  induction v as [|c v IH]; [reflexivity|].
  cbn [flat_map]. now rewrite forallb_app, escape_char_visible, IH.
Qed.

Lemma digit_visible (c : Z) : is_digit c = true -> visible c = true.
Proof.
  unfold is_digit, visible, is_control. intros H. apply andb_prop in H as [H _].
  apply Z.leb_le in H. apply negb_true_iff, andb_false_iff. right. apply Z.leb_gt. lia.
Qed.

Lemma digits_visible (l : pystr) : forallb is_digit l = true -> forallb visible l = true.
Proof.
  induction l as [|c l IH]; [reflexivity|]. cbn [forallb]. intros H.
  apply andb_prop in H as [Hc Hl]. now rewrite (digit_visible c Hc), IH.
Qed.

Lemma int_group_visible (i : pystr) : int_group i -> forallb visible i = true.
Proof.
  intros (sign & d & ds & -> & Hs & Hd & _ & Hds).
  rewrite forallb_app. cbn [forallb]. rewrite (digit_visible d Hd), (digits_visible ds Hds).
  destruct Hs as [-> | ->]; reflexivity.
Qed.

Lemma frac_group_visible (f : option pystr) :
  opt_group frac_group f -> forallb visible (or_empty f) = true.
Proof.
  destruct f as [f|]; [|reflexivity]. intros (d & ds & -> & H). cbn [or_empty forallb].
  change (visible (ch ".")) with true. cbn [andb]. now apply (digits_visible (d :: ds)).
Qed.

Lemma exp_group_visible (e : option pystr) :
  opt_group exp_group e -> forallb visible (or_empty e) = true.
Proof.
  destruct e as [e|]; [|reflexivity]. intros (c & sign & d & ds & -> & Hc & Hs & H).
  cbn [or_empty forallb]. rewrite forallb_app, (digits_visible (d :: ds) H), andb_true_r.
  destruct Hc as [-> | ->]; destruct Hs as [-> | [-> | ->]]; reflexivity.
Qed.

Lemma int_repr_visible (z : Z) : forallb visible (int_repr z) = true.
Proof. apply int_group_visible, int_repr_group. Qed.

Lemma prefix_first_lines (p : pystr) (ls : list line) :
  forallb visible p = true -> Forall one_line ls -> Forall one_line (prefix_first p ls).
Proof.
  intros Hp Hl. destruct Hl as [|[d t] r Hx Hl]; [constructor|].
  cbn [prefix_first]. constructor; [|exact Hl].
  unfold one_line in *. cbn [snd] in *. now rewrite forallb_app, Hp, Hx.
Qed.

Lemma suffix_last_lines (sfx : pystr) (ls : list line) :
  forallb visible sfx = true -> Forall one_line ls -> Forall one_line (suffix_last sfx ls).
Proof.
  intros Hp Hl. induction Hl as [|[d t] r Hx Hl IH]; [constructor|].
  destruct r as [|l' r'].
  - cbn [suffix_last]. constructor; [|constructor].
    unfold one_line in *. cbn [snd] in *. now rewrite forallb_app, Hp, Hx.
  - change (suffix_last sfx ((d, t) :: l' :: r')) with ((d, t) :: suffix_last sfx (l' :: r')).
    constructor; assumption.
Qed.

Lemma members_lines (docs : list (list line)) :
  Forall (Forall one_line) docs -> Forall one_line (members docs).
Proof.
  intros H. induction H as [|doc r Hd Hr IH]; [constructor|].
  destruct r as [|doc' r'].
  - exact Hd.
  - change (members (doc :: doc' :: r')) with (suffix_last (str ",") doc ++ members (doc' :: r')).
    apply Forall_app. split; [now apply suffix_last_lines|exact IH].
Qed.

Lemma length_prefix_first (p : pystr) (ls : list line) :
  length (prefix_first p ls) = length ls.
Proof. now destruct ls as [|[d t] r]. Qed.

Lemma length_suffix_last (sfx : pystr) (ls : list line) :
  length (suffix_last sfx ls) = length ls.
Proof.
  induction ls as [|[d t] r IH]; [reflexivity|]. destruct r as [|l' r']; [reflexivity|].
  change (suffix_last sfx ((d, t) :: l' :: r')) with ((d, t) :: suffix_last sfx (l' :: r')).
  cbn [length]. now rewrite IH.
Qed.

Lemma length_members (docs : list (list line)) :
  length (members docs) = list_sum (map (@length line) docs).
Proof.
  induction docs as [|doc r IH]; [reflexivity|]. destruct r as [|doc' r'].
  - cbn. lia.
  - change (members (doc :: doc' :: r')) with (suffix_last (str ",") doc ++ members (doc' :: r')).
    rewrite length_app, length_suffix_last, IH. reflexivity.
Qed.

Lemma count_repeat_space (n : nat) : count NEWLINE (repeat (ch " ") n) = O.
Proof. induction n; [reflexivity|exact IHn]. Qed.

Lemma count_written (width : nat) (ls : list line) :
  Forall one_line ls ->
  count NEWLINE (flat_map (fun l => NEWLINE :: write_line width l) ls) = length ls.
Proof.
  intros H. induction H as [|l r Hl Hr IH]; [reflexivity|].
  cbn [flat_map length]. rewrite (count_app NEWLINE (NEWLINE :: write_line width l)), IH.
  unfold write_line.
  change (count NEWLINE (NEWLINE :: repeat (ch " ") (width * fst l) ++ snd l))
    with (S (count NEWLINE (repeat (ch " ") (width * fst l) ++ snd l))).
  rewrite count_app, count_repeat_space, (visible_count _ Hl). reflexivity.
Qed.

Lemma count_layout (width : nat) (ls : list line) :
  Forall one_line ls -> ls <> [] -> (count NEWLINE (layout width ls) + 1 = length ls)%nat.
Proof.
  intros H Hne. destruct H as [|l r Hl Hr]; [contradiction|].
  rewrite layout_cons, count_app, (count_written width r Hr). unfold write_line.
  rewrite count_app, count_repeat_space, (visible_count _ Hl). cbn [length]. lia.
Qed.

Section FormattedLines.
Context {PF : PyFloat} {LAWS : PyFloatLaws PF}.

Lemma floatstr_visible (f : float) : float_ok f -> forallb visible (floatstr f) = true.
Proof.
  intros Hf.
  destruct (floatstr_cases f Hf)
    as [[-> _] | [[-> _] | [[-> _] | (i & fr & ex & Hm & _)]]]; try reflexivity.
  apply match_number_sound in Hm as (Hi & Hfr & Hex & ->).
  rewrite !forallb_app, (int_group_visible i Hi), (frac_group_visible fr Hfr),
    (exp_group_visible ex Hex). reflexivity.
Qed.

Lemma iter_items_visible {A} (enc : A -> pystr) (sep : pystr) (l : list A) :
  forallb visible sep = true -> Forall (fun x => forallb visible (enc x) = true) l ->
  forall first, forallb visible (iter_items enc sep first l) = true.
Proof.
  intros Hs Hl. induction Hl as [|x l Hx Hl IH]; intros first; [reflexivity|].
  cbn [iter_items]. rewrite !forallb_app, Hx, IH, andb_true_r.
  destruct first; [reflexivity|exact Hs].
Qed.

(** Written without an indent, a value holds no control character. *)
Lemma iterencode_visible (v : pyvalue) :
  wf v -> forall level, forallb visible (_iterencode None (str ", ") (str ": ") v level) = true.
Proof.
  pattern v. apply pyvalue_induction; clear v.
  - reflexivity.
  - intros [|]; reflexivity.
  - intros z _ level. apply int_repr_visible.
  - intros f Hf level. inversion Hf; subst. now apply floatstr_visible.
  - intros v _ level. apply basestring_visible.
  - intros l IH Hl level. inversion Hl as [| | | | |l' Hall|]; subst.
    destruct l as [|x l]; [reflexivity|].
    cbn [_iterencode inner_level newline_indent app]. cbn [forallb].
    change (visible (ch "[")) with true. cbn [andb].
    rewrite !forallb_app. cbn [forallb]. change (visible (ch "]")) with true.
    rewrite andb_true_r. apply iter_items_visible; [reflexivity|].
    rewrite Forall_forall in *. intros y Hy. apply IH; auto.
  - intros d IH Hd level. inversion Hd as [| | | | | |d' Hnd Hall]; subst.
    destruct d as [|kv d]; [reflexivity|].
    cbn [_iterencode inner_level newline_indent app]. cbn [forallb].
    change (visible (ch "{")) with true. cbn [andb].
    rewrite !forallb_app. cbn [forallb]. change (visible (ch "}")) with true.
    rewrite andb_true_r. apply iter_items_visible; [reflexivity|].
    rewrite Forall_forall in *. intros [k y] Hy.
    rewrite !forallb_app, basestring_visible. cbn [andb forallb str map list_ascii_of_string].
    change (visible (ch ":")) with true. change (visible (ch " ")) with true. cbn [andb].
    apply (IH (k, y)); auto.
Qed.

Lemma dumps_compact_visible (v : pyvalue) : wf v -> forallb visible (dumps v None) = true.
Proof.
  intros Hv. unfold dumps. cbn [option_map].
  destruct v; apply (iterencode_visible _ Hv O).
Qed.

Lemma lines_of_one_line (v : pyvalue) :
  wf v -> forall depth, Forall one_line (lines_of depth v).
Proof.
  pattern v. apply pyvalue_induction; clear v.
  - intros _ depth. repeat constructor.
  - intros [|] _ depth; repeat constructor.
  - intros z _ depth. constructor; [apply int_repr_visible|constructor].
  - intros f Hf depth. inversion Hf; subst.
    constructor; [now apply floatstr_visible|constructor].
  - intros v _ depth. constructor; [apply basestring_visible|constructor].
  - intros l IH Hl depth. inversion Hl as [| | | | |l' Hall|]; subst.
    destruct l as [|x l]; [repeat constructor|].
    cbn [lines_of]. constructor; [reflexivity|]. apply Forall_app. split; [|repeat constructor].
    apply members_lines. apply Forall_map. rewrite Forall_forall in *. intros y Hy.
    apply IH; auto.
  - intros d IH Hd depth. inversion Hd as [| | | | | |d' Hnd Hall]; subst.
    destruct d as [|kv d]; [repeat constructor|].
    cbn [lines_of]. constructor; [reflexivity|]. apply Forall_app. split; [|repeat constructor].
    apply members_lines. apply Forall_map. rewrite Forall_forall in *. intros [k y] Hy.
    apply prefix_first_lines.
    + rewrite forallb_app, basestring_visible. reflexivity.
    + apply (IH (k, y)); auto.
Qed.

Lemma length_lines_of (v : pyvalue) : forall depth, length (lines_of depth v) = n_lines v.
Proof.
  pattern v. apply pyvalue_induction; clear v; try reflexivity.
  - intros [|]; reflexivity.
  - intros l IH depth. destruct l as [|x l]; [reflexivity|].
    cbn [lines_of n_lines length]. rewrite length_app, length_members, map_map. cbn [length].
    replace (map (fun y => length (lines_of (S depth) y)) (x :: l)) with (map n_lines (x :: l)).
    { lia. }
    apply map_ext_in. intros y Hy. rewrite Forall_forall in IH. symmetry. now apply IH.
  - intros d IH depth. destruct d as [|kv d]; [reflexivity|].
    cbn [lines_of n_lines length]. rewrite length_app, length_members, map_map. cbn [length].
    replace (map (fun kv0 => length (let '(key, value) := kv0 in
                                      prefix_first (encode_basestring key ++ str ": ")
                                        (lines_of (S depth) value))) (kv :: d))
      with (map (fun '(_, y) => n_lines y) (kv :: d)).
    { lia. }
    apply map_ext_in. intros [k y] Hy. rewrite Forall_forall in IH.
    rewrite length_prefix_first. symmetry. now apply (IH (k, y)).
Qed.

(** With [indent] null the formatted text is one line: it holds no
    control character, so no line break (those of the strings are written
    as escapes). *)
Theorem compact_output_is_one_line :
  forall (text out : pystr),
    format_json {| text := text; indent := None |} = Success out ->
    forallb visible out = true /\ count NEWLINE out = O.
Proof.
  intros text out H.
  apply format_json_success in H as (parsed & Hl & ->).
  apply loads_wf in Hl.
  pose proof (dumps_compact_visible parsed Hl) as Hv.
  split; [exact Hv|now apply visible_count].
Qed.

(** With an indent the formatted text has as many lines as the value
    takes ([n_lines]): one for a scalar or an empty container, two more
    than its members for any other container.  No string adds a line, and
    the count does not depend on the width of the indent (0 and negative
    widths included). *)
Theorem formatted_text_line_count :
  forall (text out : pystr) (n : Z),
    format_json {| text := text; indent := Some n |} = Success out ->
    exists parsed,
      loads (replace text (str "'") [DQUOTE]) = Ok parsed
      /\ (count NEWLINE out + 1 = n_lines parsed)%nat.
Proof.
  intros text out n H.
  apply format_json_success in H as (parsed & Hl & ->).
  exists parsed. split; [exact Hl|].
  apply loads_wf in Hl.
  rewrite dumps_layout, <- (length_lines_of parsed O).
  apply count_layout; [now apply lines_of_one_line|].
  destruct (lines_of_head parsed O) as (t & r & ->). discriminate.
Qed.

(** Formatting is idempotent: text the handler has formatted, sent again
    with the same indent, comes back unchanged, and sent again with another
    indent it gives what the first text gives with that indent, provided
    the formatted text holds no single quote (the substitution would
    rewrite it). *)
Theorem formatted_text_is_a_fixed_point :
  forall (text out : pystr) (indent indent' : option Z),
    format_json {| text := text; indent := indent |} = Success out ->
    has_single_quote out = false ->
    format_json {| text := out; indent := indent |} = Success out
    /\ format_json {| text := out; indent := indent' |}
       = format_json {| text := text; indent := indent' |}.
Proof.
  intros text out indent indent' H Hq.
  apply format_json_success in H as (parsed & Hl & ->).
  assert (Hagain : forall i,
             format_json {| text := dumps parsed indent; indent := i |}
             = Success (dumps parsed i)).
  { intros i.
    apply (format_json_ok (L := cpython_json)
             {| text := dumps parsed indent; indent := i |} parsed); [|reflexivity].
    cbn [JsonFormatter.text json_loads cpython_json].
    rewrite (no_single_quote_replace _ Hq). apply loads_dumps. now apply loads_wf in Hl. }
  split; [apply Hagain|].
  rewrite Hagain. symmetry.
  now apply (format_json_ok (L := cpython_json) {| text := text; indent := indent' |} parsed).
Qed.

End FormattedLines.

Lemma compact_output_is_one_line_witness :
  format_json (L := cpython_json (PF := literal_PyFloat))
    {| text := [ch "["; DQUOTE; ch "a"; BACKSLASH; ch "n"; ch "b"; DQUOTE; ch ","; NEWLINE;
                ch "2"; ch "."; ch "5"; ch "]"];
       indent := None |}
  = Success [ch "["; DQUOTE; ch "a"; BACKSLASH; ch "n"; ch "b"; DQUOTE; ch ","; ch " ";
             ch "2"; ch "."; ch "5"; ch "]"]
  /\ count NEWLINE [ch "["; DQUOTE; ch "a"; BACKSLASH; ch "n"; ch "b"; DQUOTE; ch ","; ch " ";
                    ch "2"; ch "."; ch "5"; ch "]"] = O.
Proof.
  split; [reflexivity|].
  apply (compact_output_is_one_line (PF := literal_PyFloat) (LAWS := literal_float_laws)
           [ch "["; DQUOTE; ch "a"; BACKSLASH; ch "n"; ch "b"; DQUOTE; ch ","; NEWLINE;
            ch "2"; ch "."; ch "5"; ch "]"]).
  reflexivity.
Defined.

Lemma formatted_text_line_count_witness :
  format_json (L := cpython_json (PF := literal_PyFloat))
    {| text := str "{'a': [1, {}], 'b': []}"; indent := Some 2 |}
  = Success (dumps (PF := literal_PyFloat)
               (PyDict [(str "a", PyList [PyInt 1; PyDict []]); (str "b", PyList [])]) (Some 2))
  /\ exists parsed,
       loads (PF := literal_PyFloat) (replace (str "{'a': [1, {}], 'b': []}") (str "'") [DQUOTE])
       = Ok parsed
       /\ (count NEWLINE
             (dumps (PF := literal_PyFloat)
                (PyDict [(str "a", PyList [PyInt 1%Z; PyDict []]); (str "b", PyList [])])
                (Some 2%Z))
           + 1 = n_lines parsed)%nat.
Proof.
  split; [reflexivity|].
  apply (formatted_text_line_count (PF := literal_PyFloat) (LAWS := literal_float_laws)
           (str "{'a': [1, {}], 'b': []}")
           (dumps (PF := literal_PyFloat)
              (PyDict [(str "a", PyList [PyInt 1; PyDict []]); (str "b", PyList [])]) (Some 2))
           2).
  reflexivity.
Defined.

Example n_lines_nested :
  n_lines (PF := literal_PyFloat)
    (PyDict [(str "a", PyList [PyInt 1; PyDict []]); (str "b", PyList [])]) = 7%nat.
Proof. reflexivity. Qed.

Lemma formatted_text_is_a_fixed_point_witness :
  format_json (L := cpython_json (PF := literal_PyFloat))
    {| text := str "{'b':[1,true,null],'a':{}}"; indent := Some 2 |}
  = Success (dumps (PF := literal_PyFloat)
               (PyDict [(str "b", PyList [PyInt 1; PyBool true; PyNone]);
                        (str "a", PyDict [])]) (Some 2))
  /\ format_json (L := cpython_json (PF := literal_PyFloat))
       {| text := dumps (PF := literal_PyFloat)
                    (PyDict [(str "b", PyList [PyInt 1; PyBool true; PyNone]);
                             (str "a", PyDict [])]) (Some 2);
          indent := Some 2 |}
     = Success (dumps (PF := literal_PyFloat)
                  (PyDict [(str "b", PyList [PyInt 1; PyBool true; PyNone]);
                           (str "a", PyDict [])]) (Some 2)).
Proof.
  split; [reflexivity|].
  apply (formatted_text_is_a_fixed_point (PF := literal_PyFloat) (LAWS := literal_float_laws)
           (str "{'b':[1,true,null],'a':{}}")
           (dumps (PF := literal_PyFloat)
              (PyDict [(str "b", PyList [PyInt 1; PyBool true; PyNone]);
                       (str "a", PyDict [])]) (Some 2))
           (Some 2) None); reflexivity.
Defined.

(* ================================================================== *)
(** * [str.strip] *)

Lemma lstrip_split (s : pystr) :
  exists a, s = a ++ lstrip s /\ blank a = true
            /\ match lstrip s with [] => True | c :: _ => isspace c = false end.
Proof.
  induction s as [|c s (a & Hs & Ha & Hh)].
  - exists []. repeat split.
  - cbn [lstrip]. destruct (isspace c) eqn:Hc.
    + exists (c :: a). cbn [app blank forallb]. rewrite Hc. repeat split; auto. now f_equal.
    + exists []. repeat split. exact Hc.
Qed.

Lemma lstrip_keeps_last (x : pystr) (c : Z) :
  isspace c = false -> exists y, lstrip (x ++ [c]) = y ++ [c].
Proof.
  intros Hc. induction x as [|d x [y Hy]].
  - exists []. cbn. now rewrite Hc.
  - cbn [app lstrip]. destruct (isspace d).
    + exists y. exact Hy.
    + exists (d :: x). reflexivity.
Qed.

(** [s.strip()] removes white space at both ends and nothing else: the
    string is what was stripped between two blank strings, what was
    stripped neither starts nor ends with white space, and it is empty
    (so that [not s.strip()] holds, the test both endpoints make) exactly
    when the string is blank. *)
Theorem strip_removes_surrounding_white_space :
  forall s : pystr,
    (exists a b, s = a ++ strip s ++ b /\ blank a = true /\ blank b = true)
    /\ match strip s with [] => True | c :: _ => isspace c = false end
    /\ match rev (strip s) with [] => True | c :: _ => isspace c = false end
    /\ negb (truthy (strip s)) = blank s.
Proof.
  intros s. unfold strip, rstrip.
  destruct (lstrip_split s) as (a & Hs & Ha & Hh).
  destruct (lstrip_split (rev (lstrip s))) as (b & Hr & Hb & Hl).
  assert (Hmid : lstrip s = rev (lstrip (rev (lstrip s))) ++ rev b).
  { rewrite <- rev_app_distr, <- Hr. now rewrite rev_involutive. }
  split; [|split; [|split]].
  - exists a, (rev b). split; [|split; [exact Ha|now rewrite blank_rev]].
    rewrite <- Hmid. exact Hs.
  - destruct (lstrip s) as [|c r] eqn:El; [exact I|].
    cbn [rev]. destruct (lstrip_keeps_last (rev r) c Hh) as [y ->].
    rewrite rev_app_distr. exact Hh.
  - rewrite rev_involutive. exact Hl.
  - apply not_strip_blank.
Qed.

Example strip_no_break_space : strip [160; ch "a"; ch " "; ch "b"; 12288; NEWLINE] = str "a b".
Proof. reflexivity. Qed.

(* ================================================================== *)
(** * The formatter service: escapes of the form \uXXXX *)

Lemma hexval_to_hex_digit (n : Z) : 0 <= n < 16 -> hexval (to_hex_digit n) = Some n.
Proof.
  intros H.
  assert (Hn : In n [0; 1; 2; 3; 4; 5; 6; 7; 8; 9; 10; 11; 12; 13; 14; 15]).
  { cbn [In]. lia. }
  cbn [In] in Hn. repeat (destruct Hn as [<-|Hn]; [reflexivity|]). contradiction.
Qed.

Lemma to_hex_digit_not_quote (n : Z) : 0 <= n < 16 -> (ch "'" =? to_hex_digit n) = false.
Proof.
  intros H.
  assert (Hn : In n [0; 1; 2; 3; 4; 5; 6; 7; 8; 9; 10; 11; 12; 13; 14; 15]).
  { cbn [In]. lia. }
  cbn [In] in Hn. repeat (destruct Hn as [<-|Hn]; [reflexivity|]). contradiction.
Qed.

(** The four hexadecimal digits of [u_escape] are read back as the
    number. *)
Lemma hex4_u_escape (i : Z) :
  0 <= i < 65536 ->
  hex4 (to_hex_digit ((i / 4096) mod 16)) (to_hex_digit ((i / 256) mod 16))
       (to_hex_digit ((i / 16) mod 16)) (to_hex_digit (i mod 16)) = Some i.
Proof.
  intros H. unfold hex4.
  rewrite !hexval_to_hex_digit by (apply Z.mod_pos_bound; lia).
  f_equal.
  pose proof (Z.div_mod i 16 ltac:(lia)) as H1.
  pose proof (Z.mod_pos_bound i 16 ltac:(lia)) as B1.
  pose proof (Z.div_mod (i / 16) 16 ltac:(lia)) as H2.
  pose proof (Z.mod_pos_bound (i / 16) 16 ltac:(lia)) as B2.
  pose proof (Z.div_mod (i / 16 / 16) 16 ltac:(lia)) as H3.
  pose proof (Z.mod_pos_bound (i / 16 / 16) 16 ltac:(lia)) as B3.
  assert (E256 : i / 256 = i / 16 / 16) by (rewrite Z.div_div by lia; reflexivity).
  assert (E4096 : i / 4096 = i / 16 / 16 / 16) by (rewrite !Z.div_div by lia; reflexivity).
  assert (Hq : 0 <= i / 16 / 16 / 16 < 16).
  { rewrite <- E4096. split; [apply Z.div_pos; lia|apply Z.div_lt_upper_bound; lia]. }
  rewrite E256, E4096.
  rewrite (Z.mod_small (i / 16 / 16 / 16) 16 Hq).
  set (q1 := i / 16) in *. set (q2 := q1 / 16) in *. set (q3 := q2 / 16) in *.
  set (m1 := i mod 16) in *. set (m2 := q1 mod 16) in *. set (m3 := q2 mod 16) in *.
  lia.
Qed.

Lemma u_escape_no_quote (i : Z) : has_single_quote (u_escape i) = false.
Proof.
  unfold has_single_quote, u_escape. cbn [existsb map].
  rewrite !to_hex_digit_not_quote by (apply Z.mod_pos_bound; lia). reflexivity.
Qed.

Section Escapes.
Context {PF : PyFloat}.

Lemma loads_u_escape (i : Z) :
  0 <= i < 65536 -> loads (DQUOTE :: u_escape i ++ [DQUOTE]) = Ok (PyStr [i]).
Proof.
  intros Hi. set (txt := DQUOTE :: u_escape i ++ [DQUOTE]).
  assert (Hs : forall fuel, scan_once txt (S fuel) O txt = Ok (PyStr [i], 8%nat, [])).
  { intros fuel. unfold txt at 2. rewrite scan_once_string. unfold scanstring, u_escape.
    cbn [map app scanstring_loop].
    change (BACKSLASH =? DQUOTE) with false. change (BACKSLASH =? BACKSLASH) with true.
    change (ch "u" =? ch "u") with true. cbv iota.
    rewrite (hex4_u_escape i Hi).
    destruct ((55296 <=? i) && (i <=? 56319)); cbn [scanstring_loop bind app];
      change (DQUOTE =? DQUOTE) with true; reflexivity. }
  unfold loads. change (startswith [65279] txt) with false. cbv iota.
  unfold decode, raw_decode. change (w_end O txt) with (O, txt). cbv beta iota.
  rewrite Hs. reflexivity.
Qed.

Lemma format_json_u_escape (i : Z) (indent : option Z) :
  0 <= i < 65536 ->
  format_json {| text := DQUOTE :: u_escape i ++ [DQUOTE]; indent := indent |}
  = Success (DQUOTE :: escape_char i ++ [DQUOTE]).
Proof.
  intros Hi.
  apply (format_json_ok (L := cpython_json)
           {| text := DQUOTE :: u_escape i ++ [DQUOTE]; indent := indent |} (PyStr [i])).
  - cbn [JsonFormatter.text json_loads cpython_json].
    rewrite no_single_quote_replace; [now apply loads_u_escape|].
    unfold has_single_quote. cbn [existsb]. rewrite existsb_app.
    fold (has_single_quote (u_escape i)). now rewrite u_escape_no_quote.
  - cbn [json_dumps cpython_json JsonFormatter.indent]. unfold dumps, encode_basestring.
    cbn [flat_map]. now rewrite app_nil_r.
Qed.

(** A string written as one escape of the form \uXXXX is formatted as the
    string of that character in the writer's own form: the character
    itself when it is neither a control character, a quote nor a backslash
    (characters outside ASCII included), its escape otherwise. *)
Theorem unicode_escape_is_resolved :
  forall (i : Z) (indent : option Z),
    0 <= i < 65536 ->
    format_json {| text := DQUOTE :: u_escape i ++ [DQUOTE]; indent := indent |}
    = Success (DQUOTE :: escape_char i ++ [DQUOTE])
    /\ (string_char i = true -> escape_char i = [i]).
Proof.
  intros i indent Hi. split; [now apply format_json_u_escape|].
  intros Hc. unfold string_char in Hc.
  apply andb_prop in Hc as [Hc Hb]. apply andb_prop in Hc as [Hc Hq].
  apply Z.leb_le in Hc. apply negb_true_iff, Z.eqb_neq in Hb, Hq.
  now apply escape_char_literal.
Qed.

(** The escape of a lone surrogate is accepted, and the formatted text
    holds the surrogate itself: a string that the UTF-8 encoder refuses,
    at the position of the surrogate. *)
Theorem lone_surrogate_escape_cannot_be_encoded :
  forall (i : Z) (indent : option Z),
    0xD800 <= i <= 0xDFFF ->
    format_json {| text := DQUOTE :: u_escape i ++ [DQUOTE]; indent := indent |}
    = Success [DQUOTE; i; DQUOTE]
    /\ encode_utf8 [DQUOTE; i; DQUOTE] = Raise (UnicodeEncodeError 1).
Proof.
  intros i indent Hi. split.
  - rewrite format_json_u_escape by lia.
    rewrite escape_char_literal; [reflexivity|lia| |]; intros ->; cbv in Hi;
      destruct Hi as [H1 H2]; contradiction.
  - unfold encode_utf8. cbn [utf8_encode_from].
    change (utf8_encode_char DQUOTE) with (Some [DQUOTE]). cbv iota.
    replace (utf8_encode_char i) with (@None (list Z)); [reflexivity|].
    unfold utf8_encode_char.
    destruct (Z.ltb_spec i 128); [lia|]. destruct (Z.ltb_spec i 2048); [lia|].
    replace ((55296 <=? i) && (i <=? 57343)) with true; [reflexivity|].
    symmetry. apply andb_true_iff. rewrite !Z.leb_le. lia.
Qed.

End Escapes.

Lemma unicode_escape_is_resolved_witness :
  0 <= 233 < 65536
  /\ format_json (L := cpython_json (PF := literal_PyFloat))
       {| text := DQUOTE :: u_escape 233 ++ [DQUOTE]; indent := default_indent |}
     = Success (DQUOTE :: escape_char 233 ++ [DQUOTE]).
Proof.
  split; [lia|].
  apply (unicode_escape_is_resolved (PF := literal_PyFloat) 233 default_indent). lia.
Defined.

Example format_json_escaped_letter :
  format_json (L := cpython_json (PF := literal_PyFloat))
    {| text := DQUOTE :: BACKSLASH :: str "u00e9" ++ [DQUOTE]; indent := default_indent |}
  = Success [DQUOTE; 233; DQUOTE].
Proof. reflexivity. Qed.

Lemma lone_surrogate_escape_cannot_be_encoded_witness :
  0xD800 <= 0xD83D <= 0xDFFF
  /\ format_json (L := cpython_json (PF := literal_PyFloat))
       {| text := DQUOTE :: u_escape 0xD83D ++ [DQUOTE]; indent := default_indent |}
     = Success [DQUOTE; 0xD83D; DQUOTE].
Proof.
  split; [lia|].
  apply (lone_surrogate_escape_cannot_be_encoded (PF := literal_PyFloat) 0xD83D default_indent).
  lia.
Defined.
